(** * Referendum pipeline of [pandas_questions.py]

    The script joins three tables (referendum results, regions,
    departments), aggregates the votes per region and computes the share of
    'Choice A' for a map.  Every step is a call into pandas, so the
    development has two layers:

    - a model of the pandas operations the script calls ([rename],
      [select], [getitem], [setitem], boolean-mask selection, [merge] with
      [how="left"], [drop], [groupby(...).agg], [reset_index], the string
      accessors [astype(str)], [str.zfill], [str.contains], and the
      element-wise [+] and [/]);
    - the four functions of the script, written call for call over that
      model, once as functions on tables and once as programs on a store of
      table objects (to speak about which objects a function updates).

    Scope of the model.  A cell is a missing value, an integer, a string or
    a float; floats are binary64, computed bit for bit ([SpecFloat]).
    Integers are unbounded (the wrap-around of an int64 column is not
    modelled).  A column has no dtype of its own: pandas' refusal to merge
    an int64 key column with an object one is not modelled (an integer key
    simply never equals a string key), and an integer cell of a column
    that pandas holds as float64 stands for the float of that integer,
    which is exact below 2^53.  [None] stands for an exception raised by
    pandas ([KeyError], [MergeError], [ValueError], [TypeError]).  Reading
    files is not modelled: a table read from a file is an argument. *)

From Stdlib Require Import ZArith Lia Bool Ascii String.
From Stdlib Require Import Floats.SpecFloat.
From stdpp Require Import base option list strings pretty sorting sets.

Open Scope string_scope.
Open Scope Z_scope.
Open Scope nat_scope.

(** ** Cells *)

(** binary64, as pandas' float64 columns: 53 bits of precision,
    exponents below 1024. *)
Definition prec : Z := 53%Z.
Definition emax : Z := 1024%Z.

(** A cell of a table.  [VNull] is the missing value (NaN, which is also
    what a float operation without a result produces); [VFloat] holds the
    other floats (zeros, finite numbers, infinities). *)
Inductive value :=
| VNull
| VInt (z : Z)
| VStr (s : string)
| VFloat (f : spec_float).

Global Instance spec_float_eq_dec : EqDecision spec_float.
Proof. solve_decision. Defined.

Global Instance value_eq_dec : EqDecision value.
Proof. solve_decision. Defined.

Definition is_null (v : value) : bool :=
  match v with VNull => true | _ => false end.

Definition notna (v : value) : bool := negb (is_null v).

(** Equality of join and group keys.  pandas matches a missing key with a
    missing key. *)
Definition key_eqb (a b : value) : bool := bool_decide (a = b).

(** ** Strings: [astype(str)], [str.zfill], [str.contains] *)

(** [str(x)] of a cell: the decimal numeral of an integer, the string
    itself, ["nan"] for a missing value.  The shortest-round-trip numeral
    Python prints for a float is not modelled: [None]. *)
Definition to_str (v : value) : option string :=
  match v with
  | VNull => Some "nan"
  | VInt z => Some (pretty z)
  | VStr s => Some s
  | VFloat _ => None
  end.

Definition astype_str (col : list value) : option (list value) :=
  mapM (λ v, VStr <$> to_str v) col.

Fixpoint zeros (n : nat) : string :=
  match n with
  | O => ""
  | S n => String "0"%char (zeros n)
  end.

(** Python's [str.zfill(width)]: zeros go after a leading sign. *)
Definition zfill (width : nat) (s : string) : string :=
  if (width <=? String.length s)%nat then s
  else
    let fill := zeros (width - String.length s) in
    match s with
    | String c rest =>
        if (Ascii.eqb c "+"%char || Ascii.eqb c "-"%char)%bool
        then String c (fill +:+ rest)
        else fill +:+ s
    | EmptyString => fill
    end.

(** [.str.zfill(width)] on a column: a string is padded, anything that is
    not a string becomes missing. *)
Definition str_zfill (width : nat) (col : list value) : list value :=
  (λ v, match v with VStr s => VStr (zfill width s) | _ => VNull end) <$> col.

(** [pat in s], for a pattern without regular-expression operators. *)
Fixpoint contains (pat s : string) : bool :=
  String.prefix pat s ||
  match s with
  | EmptyString => false
  | String _ s' => contains pat s'
  end.

(** [~col.str.contains(pat)] as a boolean mask.  A cell that is not a
    string gives a missing entry, which [~] cannot negate: [None]. *)
Definition str_not_contains (pat : string) (col : list value) : option (list bool) :=
  mapM (λ v, match v with VStr s => Some (negb (contains pat s)) | _ => None end) col.

(** ** Tables *)

(** A DataFrame: the row labels, their name if they have one, and the
    named columns in order.  Labels of columns may repeat, as in pandas. *)
Record DataFrame := mkDF {
  index_name : option string;
  index : list value;
  data : list (string * list value)
}.

Global Instance DataFrame_eq_dec : EqDecision DataFrame.
Proof. solve_decision. Defined.

Definition columns (df : DataFrame) : list string := (data df).*1.

Definition nrows (df : DataFrame) : nat := length (index df).

(** Every column has one cell per row label. *)
Definition wf (df : DataFrame) : Prop :=
  Forall (λ c, length c.2 = nrows df) (data df).

Global Instance wf_dec df : Decision (wf df).
Proof. unfold wf. apply _. Defined.

(** The labels [0 .. n-1] of a fresh table. *)
Definition range_index (n : nat) : list value :=
  (λ i, VInt (Z.of_nat i)) <$> seq 0 n.

(** The columns carrying label [c]. *)
Definition named (c : string) (d : list (string * list value)) : list (string * list value) :=
  filter (λ p, p.1 = c) d.

(** [df[c]]: the column labelled [c].  Absent: [KeyError].  With a
    repeated label pandas returns a table, on which none of the column
    operations of the script is defined: [None] as well. *)
Definition getitem (c : string) (df : DataFrame) : option (list value) :=
  match named c (data df) with
  | [p] => Some p.2
  | _ => None
  end.

(** [df[c] = col]: replaces the column(s) labelled [c], or appends a new
    last column.  A column of the wrong length: [ValueError]. *)
Definition setitem (c : string) (col : list value) (df : DataFrame) : option DataFrame :=
  if bool_decide (length col = nrows df) then
    Some (mkDF (index_name df) (index df)
            (if bool_decide (c ∈ columns df)
             then (λ p, if bool_decide (p.1 = c) then (c, col) else p) <$> data df
             else data df ++ [(c, col)]))
  else None.

(** [df.rename(columns=m)]: labels in [m] are replaced, the others kept. *)
Fixpoint rename_label (m : list (string * string)) (c : string) : string :=
  match m with
  | [] => c
  | (old, new) :: m => if bool_decide (old = c) then new else rename_label m c
  end.

Definition rename (m : list (string * string)) (df : DataFrame) : DataFrame :=
  mkDF (index_name df) (index df) (prod_map (rename_label m) id <$> data df).

(** [df[[c1, ..., cn]]]: the columns with these labels, in the order asked
    for.  A label that is absent: [KeyError]. *)
Definition select (cs : list string) (df : DataFrame) : option DataFrame :=
  d ← mapM (λ c, match named c (data df) with [] => None | ps => Some ps end) cs;
  Some (mkDF (index_name df) (index df) (concat d)).

(** [df.drop(columns=cs)]: removes the columns with these labels.  A label
    that is absent: [KeyError]. *)
Definition drop (cs : list string) (df : DataFrame) : option DataFrame :=
  if bool_decide (Forall (λ c, c ∈ columns df) cs) then
    Some (mkDF (index_name df) (index df) (filter (λ p, p.1 ∉ cs) (data df)))
  else None.

(** Selection of the rows where a mask is true. *)
Fixpoint mask_filter {A} (mask : list bool) (l : list A) : list A :=
  match mask, l with
  | b :: mask, x :: l => if b then x :: mask_filter mask l else mask_filter mask l
  | _, _ => []
  end.

(** [df[mask]]: the rows where the mask is true, labels kept.  A mask of
    the wrong length: an error. *)
Definition filter_rows (mask : list bool) (df : DataFrame) : option DataFrame :=
  if bool_decide (length mask = nrows df) then
    Some (mkDF (index_name df) (mask_filter mask (index df))
            (prod_map id (mask_filter mask) <$> data df))
  else None.

(** ** [merge(..., how="left")] *)

(** The cells of [col] in the rows whose key is [k], in order. *)
Definition cells_at (k : value) (keycol col : list value) : list value :=
  (filter (λ p, p.1 = k) (zip keycol col)).*2.

(** The number of rows whose key is [k]. *)
Definition count_key (k : value) (keycol : list value) : nat :=
  length (filter (λ x, x = k) keycol).

(** A column of the left table after the join: the cell of a left row is
    repeated once for every right row with the same key, and kept once
    when there is none. *)
Definition left_take (lkey rkey col : list value) : list value :=
  p ← zip lkey col;
  replicate (Nat.max 1 (count_key p.1 rkey)) p.2.

(** A column of the right table after the join: for every left row the
    cells of the right rows with the same key, and a missing value when
    there is none. *)
Definition right_take (lkey rkey col : list value) : list value :=
  k ← lkey;
  match cells_at k rkey col with
  | [] => [VNull]
  | cs => cs
  end.

(** A label carried by both tables gets the suffix of its side. *)
Definition suffixed (sfx : string) (other : list string) (c : string) : string :=
  if bool_decide (c ∈ other) then c +:+ sfx else c.

(** pandas refuses a suffix that makes two labels of one side equal: a
    new label seen before, at a place where the old label was not. *)
Fixpoint suffix_dups (seen_old seen_new old new : list string) : bool :=
  match old, new with
  | o :: old, n :: new =>
      (bool_decide (n ∈ seen_new) && negb (bool_decide (o ∈ seen_old)))
      || suffix_dups (o :: seen_old) (n :: seen_new) old new
  | _, _ => false
  end.

(** [left.merge(right, left_on=.., right_on=.., how="left")], and
    [on=k] when both labels are [k]: then the result has one key column,
    the left one.  A key label that is absent or repeated is an error, and
    so is a clash of suffixed labels.  Rows are numbered afresh. *)
Definition merge_left (left right : DataFrame) (left_on right_on : string) : option DataFrame :=
  lkey ← getitem left_on left;
  rkey ← getitem right_on right;
  let rdata :=
    if bool_decide (left_on = right_on)
    then filter (λ p, p.1 ≠ right_on) (data right)
    else data right in
  let llabels := columns left in
  let rlabels := rdata.*1 in
  if suffix_dups [] [] llabels (suffixed "_x" rlabels <$> llabels)
     || suffix_dups [] [] rlabels (suffixed "_y" llabels <$> rlabels)
  then None
  else
    Some (mkDF None
            (range_index (length (left_take lkey rkey lkey)))
            ((prod_map (suffixed "_x" rlabels) (left_take lkey rkey) <$> data left)
             ++ (prod_map (suffixed "_y" llabels) (right_take lkey rkey) <$> rdata))).

(** ** [groupby(key).agg(...)] *)

Inductive aggfun := AggFirst | AggSum.

(** ["first"]: the first cell of the group that is not missing. *)
Definition agg_first (cells : list value) : value :=
  default VNull (head (filter (λ v, v ≠ VNull) cells)).

(** ["sum"] of a group of integer cells; missing cells are skipped.  The
    sums of strings and of floats are not modelled: [None]. *)
Fixpoint agg_sum_Z (cells : list value) : option Z :=
  match cells with
  | [] => Some 0%Z
  | VNull :: cells => agg_sum_Z cells
  | VInt z :: cells => Z.add z <$> agg_sum_Z cells
  | _ :: _ => None
  end.

Definition agg (f : aggfun) (cells : list value) : option value :=
  match f with
  | AggFirst => Some (agg_first cells)
  | AggSum => VInt <$> agg_sum_Z cells
  end.

(** The order in which group keys are listed: missing, integers,
    floats, strings; integers by size, strings as Python compares them. *)
Definition value_leb (a b : value) : bool :=
  match a, b with
  | VNull, _ => true
  | _, VNull => false
  | VInt x, VInt y => (x <=? y)%Z
  | VInt _, _ => true
  | _, VInt _ => false
  | VFloat x, VFloat y => SFleb x y
  | VFloat _, _ => true
  | _, VFloat _ => false
  | VStr x, VStr y => String.leb x y
  end.

Definition value_le (a b : value) : Prop := value_leb a b = true.

Global Instance value_le_dec a b : Decision (value_le a b).
Proof. unfold value_le. apply _. Defined.

(** The keys of the groups: the distinct keys that are not missing
    ([dropna=True]), sorted ([sort=True]). *)
Definition group_keys (keycol : list value) : list value :=
  merge_sort value_le (remove_dups (filter (λ v, v ≠ VNull) keycol)).

(** [df.groupby(key).agg(out=(col, f), ...)]: one row per group, labelled
    by the key of the group. *)
Definition groupby_agg (key : string) (spec : list (string * (string * aggfun)))
    (df : DataFrame) : option DataFrame :=
  keycol ← getitem key df;
  let keys := group_keys keycol in
  d ← mapM (λ s,
        col ← getitem s.2.1 df;
        cells ← mapM (λ k, agg s.2.2 (cells_at k keycol col)) keys;
        Some (s.1, cells)) spec;
  Some (mkDF (Some key) keys d).

(** [df.reset_index()]: the row labels become the first column, under
    their name (["index"], or ["level_0"], when they have none); a column
    of that name already there is an error. *)
Definition reset_index (df : DataFrame) : option DataFrame :=
  let c := match index_name df with
           | Some n => n
           | None => if bool_decide ("index" ∈ columns df) then "level_0" else "index"
           end in
  if bool_decide (c ∈ columns df) then None
  else Some (mkDF None (range_index (nrows df)) ((c, index df) :: data df)).

(** ** Element-wise arithmetic *)

Definition of_Z (z : Z) : spec_float := binary_normalize prec emax z 0 false.

Definition of_float (f : spec_float) : value :=
  match f with
  | S754_nan => VNull
  | _ => VFloat f
  end.

Definition to_float (v : value) : option spec_float :=
  match v with
  | VInt z => Some (of_Z z)
  | VFloat f => Some f
  | _ => None
  end.

(** [a + b] on two cells: a missing operand gives a missing result,
    integers add as integers, strings concatenate, a number and a string
    do not add. *)
Definition add_cell (a b : value) : option value :=
  match a, b with
  | VNull, _ | _, VNull => Some VNull
  | VInt x, VInt y => Some (VInt (x + y))
  | VStr x, VStr y => Some (VStr (x +:+ y))
  | _, _ => x ← to_float a; y ← to_float b; Some (of_float (SFadd prec emax x y))
  end.

(** [a / b] on two cells, as numpy divides numbers: in binary64, a zero
    divisor gives an infinity or, for [0 / 0], a missing value, never an
    exception.  Strings do not divide. *)
Definition div_cell (a b : value) : option value :=
  match a, b with
  | VNull, _ | _, VNull => Some VNull
  | _, _ => x ← to_float a; y ← to_float b; Some (of_float (SFdiv prec emax x y))
  end.

(** Two columns of one table, cell by cell. *)
Definition series_op (op : value → value → option value) (a b : list value) : option (list value) :=
  if bool_decide (length a = length b) then mapM (λ p, op p.1 p.2) (zip a b) else None.

Definition series_add := series_op add_cell.
Definition series_div := series_op div_cell.

(** ** The script *)

(** [DataFrame.copy()]: a table with the same content. *)
Definition copy (df : DataFrame) : DataFrame := df.

Definition merge_regions_and_departments (regions departments : DataFrame) : option DataFrame :=
  let regions := rename [("code", "code_reg"); ("name", "name_reg")] regions in
  let departments :=
    rename [("code", "code_dep"); ("name", "name_dep"); ("region_code", "code_reg")]
      departments in
  regions2 ← select ["code_reg"; "name_reg"] regions;
  merged ← merge_left departments regions2 "code_reg" "code_reg";
  select ["code_reg"; "name_reg"; "code_dep"; "name_dep"] merged.

Definition merge_referendum_and_areas (referendum regions_and_departments : DataFrame)
    : option DataFrame :=
  let referendum := copy referendum in
  code ← getitem "Department code" referendum;
  code ← astype_str code;
  referendum ← setitem "code_dep" (str_zfill 2 code) referendum;
  name ← getitem "Department name" referendum;
  referendum ← setitem "name_dep" name referendum;
  let regions_and_departments := copy regions_and_departments in
  code ← getitem "code_dep" regions_and_departments;
  code ← astype_str code;
  regions_and_departments ← setitem "code_dep" (str_zfill 2 code) regions_and_departments;
  code ← getitem "code_dep" referendum;
  mask ← str_not_contains "Z" code;
  referendum ← filter_rows mask referendum;
  merged ← merge_left referendum regions_and_departments "code_dep" "code_dep";
  merged ← drop ["name_dep_y"] merged;
  Some (rename [("name_dep_x", "name_dep")] merged).

Definition compute_referendum_result_by_regions (referendum_and_areas : DataFrame)
    : option DataFrame :=
  groupby_agg "code_reg"
    [("name_reg", ("name_reg", AggFirst));
     ("Registered", ("Registered", AggSum));
     ("Abstentions", ("Abstentions", AggSum));
     ("Null", ("Null", AggSum));
     ("Choice A", ("Choice A", AggSum));
     ("Choice B", ("Choice B", AggSum))]
    referendum_and_areas.

(** [plot_referendum_map], with the table read from
    [data/regions.geojson] as the argument [geo].  The call of
    [merged.plot] reads the column it draws and leaves the table as it
    is. *)
Definition plot_referendum_map (geo referendum_result_by_regions : DataFrame)
    : option DataFrame :=
  results ← reset_index referendum_result_by_regions;
  merged ← merge_left geo results "code" "code_reg";
  a ← getitem "Choice A" merged;
  b ← getitem "Choice B" merged;
  total ← series_add a b;
  ratio ← series_div a total;
  merged ← setitem "ratio" ratio merged;
  drawn ← getitem "ratio" merged;
  Some merged.

(** The body of [if __name__ == "__main__"], from the tables
    [load_data] and [plot_referendum_map] read. *)
Definition main (referendum df_reg df_dep geo : DataFrame) : option DataFrame :=
  regions_and_departments ← merge_regions_and_departments df_reg df_dep;
  referendum_and_areas ← merge_referendum_and_areas referendum regions_and_departments;
  referendum_results ← compute_referendum_result_by_regions referendum_and_areas;
  plot_referendum_map geo referendum_results.

(** ** The script on a store of table objects

    A table is an object of a store; a variable of the script holds a
    reference.  [df[c] = col] updates the object it is called on; every
    other method of the script builds a new object.  A column taken out of
    a table is a value: the script never writes into one. *)
Module Store.

Record state := mkState {
  objects : list DataFrame;
  figures : list (list value)
}.

Definition ref := nat.

Definition M (A : Type) : Type := state → option (A * state).

Global Instance M_ret : MRet M := λ A a s, Some (a, s).

Global Instance M_bind : MBind M := λ A B f m s,
  match m s with
  | Some (a, s') => f a s'
  | None => None
  end.

Definition lift {A} (o : option A) : M A := λ s, (λ a, (a, s)) <$> o.

Definition new (df : DataFrame) : M ref := λ s,
  Some (length (objects s), mkState (objects s ++ [df]) (figures s)).

Definition load (r : ref) : M DataFrame := λ s,
  (λ df, (df, s)) <$> objects s !! r.

Definition store (r : ref) (df : DataFrame) : M unit := λ s,
  if bool_decide (r < length (objects s))
  then Some ((), mkState (<[r := df]> (objects s)) (figures s))
  else None.

Definition df_copy (r : ref) : M ref :=
  df ← load r; new (copy df).

Definition df_getitem (r : ref) (c : string) : M (list value) :=
  df ← load r; lift (getitem c df).

Definition df_setitem (r : ref) (c : string) (col : list value) : M unit :=
  df ← load r; df' ← lift (setitem c col df); store r df'.

Definition df_rename (r : ref) (m : list (string * string)) : M ref :=
  df ← load r; new (rename m df).

Definition df_select (r : ref) (cs : list string) : M ref :=
  df ← load r; df' ← lift (select cs df); new df'.

Definition df_drop (r : ref) (cs : list string) : M ref :=
  df ← load r; df' ← lift (drop cs df); new df'.

Definition df_filter_rows (r : ref) (mask : list bool) : M ref :=
  df ← load r; df' ← lift (filter_rows mask df); new df'.

Definition df_merge_left (l r : ref) (left_on right_on : string) : M ref :=
  left ← load l; right ← load r;
  df' ← lift (merge_left left right left_on right_on); new df'.

Definition df_groupby_agg (r : ref) (key : string)
    (spec : list (string * (string * aggfun))) : M ref :=
  df ← load r; df' ← lift (groupby_agg key spec df); new df'.

Definition df_reset_index (r : ref) : M ref :=
  df ← load r; df' ← lift (reset_index df); new df'.

(** [gpd.read_file(path)] and [pd.read_csv(path)]: a new table with the
    content of the file. *)
Definition read_file (content : DataFrame) : M ref := new content.

Definition read_csv (content : DataFrame) : M ref := new content.

(** [df.plot(column=c, ...)]: draws the column; the table is only read. *)
Definition draw (col : list value) : M unit := λ s,
  Some ((), mkState (objects s) (figures s ++ [col])).

Definition df_plot (r : ref) (c : string) : M unit :=
  df ← load r; col ← lift (getitem c df); draw col.

Definition merge_regions_and_departments (regions departments : ref) : M ref :=
  regions ← df_rename regions [("code", "code_reg"); ("name", "name_reg")];
  departments ← df_rename departments
    [("code", "code_dep"); ("name", "name_dep"); ("region_code", "code_reg")];
  regions2 ← df_select regions ["code_reg"; "name_reg"];
  merged ← df_merge_left departments regions2 "code_reg" "code_reg";
  df_select merged ["code_reg"; "name_reg"; "code_dep"; "name_dep"].

Definition merge_referendum_and_areas (referendum regions_and_departments : ref) : M ref :=
  referendum ← df_copy referendum;
  code ← df_getitem referendum "Department code";
  code ← lift (astype_str code);
  df_setitem referendum "code_dep" (str_zfill 2 code);;
  name ← df_getitem referendum "Department name";
  df_setitem referendum "name_dep" name;;
  regions_and_departments ← df_copy regions_and_departments;
  code ← df_getitem regions_and_departments "code_dep";
  code ← lift (astype_str code);
  df_setitem regions_and_departments "code_dep" (str_zfill 2 code);;
  code ← df_getitem referendum "code_dep";
  mask ← lift (str_not_contains "Z" code);
  referendum ← df_filter_rows referendum mask;
  merged ← df_merge_left referendum regions_and_departments "code_dep" "code_dep";
  merged ← df_drop merged ["name_dep_y"];
  df_rename merged [("name_dep_x", "name_dep")].

Definition compute_referendum_result_by_regions (referendum_and_areas : ref) : M ref :=
  df_groupby_agg referendum_and_areas "code_reg"
    [("name_reg", ("name_reg", AggFirst));
     ("Registered", ("Registered", AggSum));
     ("Abstentions", ("Abstentions", AggSum));
     ("Null", ("Null", AggSum));
     ("Choice A", ("Choice A", AggSum));
     ("Choice B", ("Choice B", AggSum))].

Definition plot_referendum_map (geojson : DataFrame) (referendum_result_by_regions : ref)
    : M ref :=
  geo ← read_file geojson;
  results ← df_reset_index referendum_result_by_regions;
  merged ← df_merge_left geo results "code" "code_reg";
  a ← df_getitem merged "Choice A";
  b ← df_getitem merged "Choice B";
  total ← lift (series_add a b);
  ratio ← lift (series_div a total);
  df_setitem merged "ratio" ratio;;
  df_plot merged "ratio";;
  mret merged.

(** [load_data], from the content of the three files. *)
Definition load_data (referendum_csv regions_csv departments_csv : DataFrame)
    : M (ref * ref * ref) :=
  referendum ← read_csv referendum_csv;
  regions ← read_csv regions_csv;
  departments ← read_csv departments_csv;
  mret (referendum, regions, departments).

(** The body of [if __name__ == "__main__"]; what [print] writes is not
    part of the state. *)
Definition main (referendum_csv regions_csv departments_csv geojson : DataFrame) : M ref :=
  loaded ← load_data referendum_csv regions_csv departments_csv;
  regions_and_departments ← merge_regions_and_departments loaded.1.2 loaded.2;
  referendum_and_areas ← merge_referendum_and_areas loaded.1.1 regions_and_departments;
  referendum_results ← compute_referendum_result_by_regions referendum_and_areas;
  plot_referendum_map geojson referendum_results.

End Store.

(** ** Vocabulary of the properties *)

(** The join key the script derives from a department code:
    [astype(str)], then [str.zfill(2)]. *)
Definition dep_key (v : value) : option value :=
  (λ s, VStr (zfill 2 s)) <$> to_str v.

(** The key of a row the script drops: it contains the letter Z. *)
Definition has_Z (v : value) : bool :=
  match v with
  | VStr s => contains "Z" s
  | _ => false
  end.

(** The mask of the rows the script keeps, from the keys of all rows, and
    the keys of the rows it keeps. *)
Definition keep_mask (keys : list value) : list bool :=
  (λ k, negb (has_Z k)) <$> keys.

Definition kept (keys : list value) : list value :=
  filter (λ k, has_Z k = false) keys.

(** A cell that ["sum"] adds up or skips. *)
Definition summable (v : value) : bool :=
  match v with
  | VNull | VInt _ => true
  | _ => false
  end.

(** The cell of column [c] in row [i]. *)
Definition cell (c : string) (i : nat) (df : DataFrame) : option value :=
  col ← getitem c df; col !! i.

(** A cell that arithmetic accepts: anything but a string. *)
Definition numeric (v : value) : bool :=
  match v with
  | VStr _ => false
  | _ => true
  end.

(** The ratio the script computes from the cells of Choice A and
    Choice B of one row: [a / (a + b)]. *)
Definition ratio_cell (a b : value) : option value :=
  total ← add_cell a b; div_cell a total.

(** The floats 0.0 and 1.0. *)
Definition float_zero : spec_float := S754_zero false.
Definition float_one : spec_float := of_Z 1.

(** The last stage of rounding: a rounded mantissa of 53 digits is kept,
    the mantissa [2^53] is renormalised to [2^52]. *)
Definition finish_round (m e : Z) : spec_float :=
  let '(mrs, e') := shr_fexp prec emax m e loc_Exact in
  match shr_m mrs with
  | Z0 => S754_zero false
  | Zpos m => if (e' <=? emax - prec)%Z then S754_finite false m e' else S754_infinity false
  | Zneg _ => S754_nan
  end.

(** The sum of the integers among some cells. *)
Definition sum_cells (cells : list value) : Z :=
  foldr (λ v acc, match v with VInt z => (z + acc)%Z | _ => acc end) 0%Z cells.

(** What a run of a function of the script from store [s] does, against
    the result [res] of the function on tables: if it returns, the
    reference it returns is new, the object there is the table [res], and
    every object of [s] is as it was; it fails exactly when the function
    on tables fails. *)
Definition returns_new (s : Store.state) (run : option (Store.ref * Store.state))
    (res : option DataFrame) : Prop :=
  match run with
  | Some (r, s') =>
      length (Store.objects s) ≤ r
      ∧ Store.objects s' !! r = res
      ∧ is_Some res
      ∧ ∀ l df, Store.objects s !! l = Some df → Store.objects s' !! l = Some df
  | None => res = None
  end.

(** The region of a department key in an area table with the keys
    [akeys] and the region codes [creg]: the region code of the first row
    with this key, missing when there is none. *)
Definition region_of (akeys creg : list value) (k : value) : value :=
  default VNull (head (cells_at k akeys creg)).

(** A cell that holds a string. *)
Definition is_str (v : value) : bool :=
  match v with
  | VStr _ => true
  | _ => false
  end.

(** The float 0.5. *)
Definition float_half : spec_float := S754_finite false 4503599627370496 (-53).

(** A program of the store that draws nothing. *)
Definition keeps_figures {A} (m : Store.M A) : Prop :=
  ∀ s a s', m s = Some (a, s') → Store.figures s' = Store.figures s.

(** ** Tables used as examples *)

Definition c5_regions : DataFrame :=
  mkDF None (range_index 1)
    [("code", [VStr "84"]); ("name", [VStr "Auvergne-Rhone-Alpes"])].

Definition c5_departments : DataFrame :=
  mkDF None (range_index 2)
    [("code", [VStr "01"; VStr "2A"]); ("name", [VStr "Ain"; VStr "Corse-du-Sud"]);
     ("region_code", [VStr "84"; VStr "94"])].

(** A referendum table: five departments, one of them abroad (a code with
    a Z), one that the area table does not list, one with a code read as
    a number. *)
Definition ex_codes : list value :=
  [VStr "1"; VStr "2A"; VInt 75; VStr "ZA"; VStr "99"].

Definition ex_names : list value :=
  [VStr "AIN"; VStr "CORSE DU SUD"; VStr "PARIS"; VStr "GUADELOUPE"; VStr "INCONNU"].

Definition ex_referendum : DataFrame :=
  mkDF None (range_index 5)
    [("Department code", ex_codes);
     ("Department name", ex_names);
     ("Town code", [VInt 1; VInt 4; VInt 56; VInt 1; VInt 7]);
     ("Registered", [VInt 1200; VInt 900; VInt 5000; VInt 300; VInt 10]);
     ("Abstentions", [VInt 100; VInt 200; VInt 1000; VInt 30; VInt 1]);
     ("Null", [VInt 100; VInt 50; VInt 500; VInt 3; VInt 0]);
     ("Choice A", [VInt 600; VInt 250; VInt 1500; VInt 100; VInt 4]);
     ("Choice B", [VInt 400; VInt 400; VInt 2000; VInt 167; VInt 5])].

Definition ex_keys : list value :=
  [VStr "01"; VStr "2A"; VStr "75"; VStr "ZA"; VStr "99"].

(** An area table: three departments of three regions. *)
Definition ex_code_reg : list value := [VStr "84"; VStr "94"; VStr "11"].

Definition ex_code_dep : list value := [VStr "01"; VStr "2A"; VStr "75"].

Definition ex_areas : DataFrame :=
  mkDF None (range_index 3)
    [("code_reg", ex_code_reg);
     ("name_reg", [VStr "Auvergne-Rhone-Alpes"; VStr "Corse"; VStr "Ile-de-France"]);
     ("code_dep", ex_code_dep);
     ("name_dep", [VStr "Ain"; VStr "Corse-du-Sud"; VStr "Paris"])].

(** The tables of the end-to-end example: a referendum table with the
    metropolitan department "01" (600 votes for A, 400 for B) and the
    overseas department "971", every other cell left open, and an area
    table that puts department "01" in region "84". *)
Definition c1_referendum (n1 n2 : string) (r1 a1 u1 r2 a2 u2 ca2 cb2 : Z) : DataFrame :=
  mkDF None (range_index 2)
    [("Department code", [VStr "01"; VStr "971"]);
     ("Department name", [VStr n1; VStr n2]);
     ("Registered", [VInt r1; VInt r2]);
     ("Abstentions", [VInt a1; VInt a2]);
     ("Null", [VInt u1; VInt u2]);
     ("Choice A", [VInt 600; VInt ca2]);
     ("Choice B", [VInt 400; VInt cb2])].

Definition c1_areas (rname dname : string) : DataFrame :=
  mkDF None (range_index 1)
    [("code_reg", [VStr "84"]); ("name_reg", [VStr rname]);
     ("code_dep", [VStr "01"]); ("name_dep", [VStr dname])].

(** A merged table with two departments of region "84", one of region
    "11" and one without a region. *)
Definition ex_merged : DataFrame :=
  mkDF None (range_index 4)
    [("code_reg", [VStr "84"; VStr "11"; VStr "84"; VNull]);
     ("name_reg", [VNull; VStr "Ile-de-France"; VStr "Auvergne-Rhone-Alpes"; VNull]);
     ("Registered", [VInt 1000; VInt 5000; VInt 2000; VInt 10]);
     ("Abstentions", [VInt 100; VInt 1000; VInt 200; VInt 1]);
     ("Null", [VInt 10; VInt 500; VNull; VInt 0]);
     ("Choice A", [VInt 600; VInt 1500; VInt 900; VInt 4]);
     ("Choice B", [VInt 290; VInt 2000; VInt 900; VInt 5])].

(** A table of region outlines and a table of regional results; the
    outline "11" has no result. *)
Definition ex_geo_codes : list value := [VStr "84"; VStr "11"; VStr "94"].

Definition ex_geo : DataFrame :=
  mkDF None (range_index 3)
    [("code", ex_geo_codes);
     ("nom", [VStr "Auvergne-Rhone-Alpes"; VStr "Ile-de-France"; VStr "Corse"]);
     ("geometry", [VStr "POLYGON 1"; VStr "POLYGON 2"; VStr "POLYGON 3"])].

Definition ex_choice_a : list value := [VInt 600; VInt 0].
Definition ex_choice_b : list value := [VInt 400; VInt 0].

Definition ex_results : DataFrame :=
  mkDF (Some "code_reg") [VStr "84"; VStr "94"]
    [("name_reg", [VStr "Auvergne-Rhone-Alpes"; VStr "Corse"]);
     ("Registered", [VInt 1200; VInt 900]);
     ("Abstentions", [VInt 100; VInt 900]);
     ("Null", [VInt 100; VInt 0]);
     ("Choice A", ex_choice_a);
     ("Choice B", ex_choice_b)].

(** A store with the four tables of the examples. *)
Definition ex_store : Store.state :=
  Store.mkState [c5_regions; c5_departments; ex_referendum; ex_areas; ex_merged; ex_results] [].

(** A result with a cell that is not a count. *)
Definition ex_geo_one : DataFrame :=
  mkDF None (range_index 1) [("code", [VStr "84"]); ("geometry", [VStr "POLYGON 1"])].

Definition ex_results_negative : DataFrame :=
  mkDF (Some "code_reg") [VStr "84"]
    [("name_reg", [VStr "Auvergne-Rhone-Alpes"]);
     ("Choice A", [VInt (-1)]);
     ("Choice B", [VInt 2])].

(** The files of a small run: three regions, four departments, the
    referendum table above. *)
Definition ex_regions_csv : DataFrame :=
  mkDF None (range_index 3)
    [("id", [VInt 1; VInt 2; VInt 3]);
     ("code", [VStr "84"; VStr "94"; VStr "11"]);
     ("name", [VStr "Auvergne-Rhone-Alpes"; VStr "Corse"; VStr "Ile-de-France"]);
     ("slug", [VStr "auvergne-rhone-alpes"; VStr "corse"; VStr "ile-de-france"])].

Definition ex_departments_csv : DataFrame :=
  mkDF None (range_index 4)
    [("id", [VInt 1; VInt 2; VInt 3; VInt 4]);
     ("region_code", [VStr "84"; VStr "94"; VStr "11"; VStr "84"]);
     ("code", [VStr "01"; VStr "2A"; VStr "75"; VStr "69"]);
     ("name", [VStr "Ain"; VStr "Corse-du-Sud"; VStr "Paris"; VStr "Rhone"]);
     ("slug", [VStr "ain"; VStr "corse-du-sud"; VStr "paris"; VStr "rhone"])].

(** Results of two unanimous regions. *)
Definition ex_results_unanimous : DataFrame :=
  mkDF (Some "code_reg") [VStr "84"; VStr "94"]
    [("name_reg", [VStr "Auvergne-Rhone-Alpes"; VStr "Corse"]);
     ("Choice A", [VInt 5; VInt 0]);
     ("Choice B", [VInt 0; VInt 7])].

(** * Properties *)

(** ** Columns by label *)

Implicit Types (d : list (string * list value)) (c : string) (df : DataFrame).

Lemma filter_ext_in {A} (P Q : A → Prop) `{∀ x, Decision (P x)} `{∀ x, Decision (Q x)}
    (l : list A) :
  Forall (λ x, P x ↔ Q x) l → filter P l = filter Q l.
Proof.
  induction 1 as [|x l Hx _ IH]; [done|].
  rewrite !filter_cons, IH.
  destruct (decide (P x)), (decide (Q x)); tauto.
Qed.

Lemma filter_all {A} (P : A → Prop) `{∀ x, Decision (P x)} (l : list A) :
  Forall P l → filter P l = l.
Proof.
  induction 1 as [|x l Hx _ IH]; [done|].
  by rewrite filter_cons_True, IH.
Qed.

Lemma filter_none {A} (P : A → Prop) `{∀ x, Decision (P x)} (l : list A) :
  Forall (λ x, ¬ P x) l → filter P l = [].
Proof.
  induction 1 as [|x l Hx _ IH]; [done|].
  by rewrite filter_cons_False.
Qed.

Lemma getitem_named c df col :
  getitem c df = Some col ↔ named c (data df) = [(c, col)].
Proof.
  unfold getitem. split.
  - destruct (named c (data df)) as [|[c' col'] [|]] eqn:E; try done.
    intros [= <-]. f_equal.
    assert (Hin : (c', col') ∈ named c (data df)) by (rewrite E; left).
    apply list_elem_of_filter in Hin as [Hc _]. simpl in Hc. by subst.
  - by intros ->.
Qed.

Lemma named_fmap (f : string → string) (g : list value → list value) c d :
  named c (prod_map f g <$> d) = prod_map f g <$> filter (λ p, f p.1 = c) d.
Proof.
  unfold named. induction d as [|[x col] d IH]; [done|].
  rewrite fmap_cons, !filter_cons, IH. simpl.
  by destruct (decide (f x = c)).
Qed.

(** The column [c'] of a table whose labels went through [f], when [c]
    is the only label of the table that [f] sends to [c']. *)
Lemma getitem_relabel (f : string → string) (g : list value → list value) c c' n i d col :
  getitem c (mkDF n i d) = Some col →
  Forall (λ p, f p.1 = c' ↔ p.1 = c) d →
  named c' (prod_map f g <$> d) = [(c', g col)].
Proof.
  intros Hc Hf. apply getitem_named in Hc. simpl in Hc.
  rewrite named_fmap, (filter_ext_in _ (λ p, p.1 = c)) by done.
  fold (named c d). rewrite Hc. simpl. f_equal. f_equal.
  apply Forall_forall with (x := (c, col)) in Hf; [by apply Hf|].
  assert (Hin : (c, col) ∈ named c d) by (rewrite Hc; left).
  by apply list_elem_of_filter in Hin as [_ ?].
Qed.

Lemma not_in_columns c df :
  c ∉ columns df ↔ Forall (λ p, p.1 ≠ c) (data df).
Proof.
  unfold columns. rewrite Forall_forall. split.
  - intros Hc p Hp Heq. apply Hc. rewrite <- Heq. by apply list_elem_of_fmap_2.
  - intros Hall Hc. apply list_elem_of_fmap in Hc as (p & Heq & Hp).
    by apply (Hall p).
Qed.

Lemma suffix_dups_same seen l : suffix_dups seen seen l l = false.
Proof.
  revert seen. induction l as [|x l IH]; intros seen; [done|].
  simpl. rewrite IH. by destruct (bool_decide (x ∈ seen)).
Qed.

Lemma select_named cs ps n i d :
  Forall2 (λ c p, named c d = [p]) cs ps →
  select cs (mkDF n i d) = Some (mkDF n i ps).
Proof.
  intros H. unfold select. cbn [data index index_name].
  assert (Hm : mapM (λ c, match named c d with [] => None | ps => Some ps end) cs
               = Some ((λ p, [p]) <$> ps)).
  { apply mapM_Some. induction H as [|c p cs ps Hc _ IH]; constructor; [|done].
    by rewrite Hc. }
  rewrite Hm. cbn [mbind option_bind]. f_equal. f_equal.
  clear. induction ps as [|p ps IH]; [done|]. rewrite fmap_cons. simpl. by rewrite IH.
Qed.

Ltac labels :=
  rewrite ?Forall_fmap;
  rewrite ?Forall_forall in *;
  let x := fresh "x" in let col := fresh "col" in let Hp := fresh "Hp" in
  intros [x col] Hp;
  repeat match goal with H : ∀ p, p ∈ _ → _ |- _ => specialize (H _ Hp) end;
  clear Hp;
  repeat match goal with H : getitem _ _ = _ |- _ => clear H end;
  unfold compose, suffixed, rename_label in *; simpl in *;
  repeat case_bool_decide; simplify_eq; set_unfold; intuition congruence.

Lemma suffixed_fmap_id sfx other (l : list string) :
  Forall (λ c, c ∉ other) l → suffixed sfx other <$> l = l.
Proof.
  induction 1 as [|c l Hc _ IH]; [done|].
  rewrite fmap_cons, IH. unfold suffixed. by rewrite bool_decide_eq_false_2.
Qed.

Lemma named_app c (d1 d2 : list (string * list value)) :
  (named c (d1 ++ d2) = named c d1 ++ named c d2)%list.
Proof. apply filter_app. Qed.

Lemma named_absent (f : string → string) (g : list value → list value) c (d : list (string * list value)) :
  Forall (λ p, f p.1 ≠ c) d → named c (prod_map f g <$> d) = [].
Proof. intros H. rewrite named_fmap. by rewrite filter_none. Qed.

Lemma prod_map_fmap_compose (f f' : string → string) (g g' : list value → list value) (d : list (string * list value)) :
  prod_map f g <$> (prod_map f' g' <$> d) = prod_map (f ∘ f') (g ∘ g') <$> d.
Proof. rewrite <- list_fmap_compose. apply list_fmap_ext. by intros ? [??]. Qed.

Lemma merge_regions_and_departments_eq regions departments rcode rname dcode dname dreg :
  getitem "code" regions = Some rcode →
  getitem "name" regions = Some rname →
  "code_reg" ∉ columns regions →
  "name_reg" ∉ columns regions →
  getitem "code" departments = Some dcode →
  getitem "name" departments = Some dname →
  getitem "region_code" departments = Some dreg →
  Forall (λ c, c ∉ columns departments) ["code_reg"; "name_reg"; "code_dep"; "name_dep"] →
  merge_regions_and_departments regions departments =
    Some (mkDF None (range_index (length (left_take dreg rcode dreg)))
            [("code_reg", left_take dreg rcode dreg);
             ("name_reg", right_take dreg rcode rname);
             ("code_dep", left_take dreg rcode dcode);
             ("name_dep", left_take dreg rcode dname)]).
Proof.
  destruct regions as [rn ri R], departments as [dn di D].
  intros Hrc Hrn Hr1 Hr2 Hdc Hdn Hdr Hd.
  rewrite !Forall_cons in Hd. destruct Hd as (Hd1 & Hd2 & Hd3 & Hd4 & _).
  rewrite not_in_columns in Hr1, Hr2, Hd1, Hd2, Hd3, Hd4. simpl in *.
  unfold merge_regions_and_departments, rename. cbn [index_name index data].
  erewrite select_named; cycle 1.
  { repeat constructor.
    - apply (getitem_relabel _ id _ _ _ _ _ _ Hrc). labels.
    - apply (getitem_relabel _ id _ _ _ _ _ _ Hrn). labels. }
  cbn [mbind option_bind].
  unfold merge_left.
  assert (Hk : getitem "code_reg" (mkDF dn di (prod_map (rename_label [("code", "code_dep"); ("name", "name_dep"); ("region_code", "code_reg")]) id <$> D)) = Some dreg).
  { apply getitem_named. apply (getitem_relabel _ id _ _ _ _ _ _ Hdr). labels. }
  rewrite Hk. cbn [mbind option_bind].
  assert (Hr : getitem "code_reg" (mkDF rn ri [("code_reg", id rcode); ("name_reg", id rname)]) = Some rcode) by reflexivity.
  rewrite Hr. cbn [mbind option_bind]. clear Hr.
  simpl.
  set (ρ := λ c : string, if bool_decide ("code" = c) then "code_dep" else if bool_decide ("name" = c) then "name_dep" else if bool_decide ("region_code" = c) then "code_reg" else c).
  assert (Hnr : Forall (λ c, c ∉ ["name_reg"]) (columns (mkDF dn di (prod_map ρ id <$> D)))).
  { unfold columns. cbn [data]. subst ρ. labels. }
  rewrite suffixed_fmap_id, suffix_dups_same by done. cbn [orb].
  assert (Hy : suffixed "_y" (columns (mkDF dn di (prod_map ρ id <$> D))) "name_reg" = "name_reg").
  { unfold suffixed. rewrite bool_decide_eq_false_2; [done|].
    intros Hin. eapply Forall_forall in Hnr; [|done]. apply Hnr. left. }
  rewrite Hy. cbn [mbind option_bind].
  rewrite prod_map_fmap_compose.
  apply select_named.
  repeat constructor; rewrite named_app.
  - erewrite (getitem_relabel _ _ _ _ _ _ _ _ Hdr); [done|]. subst ρ. labels.
  - rewrite named_absent; [done|]. subst ρ. labels.
  - erewrite (getitem_relabel _ _ _ _ _ _ _ _ Hdc); [done|]. subst ρ. labels.
  - erewrite (getitem_relabel _ _ _ _ _ _ _ _ Hdn); [done|]. subst ρ. labels.
Qed.

Lemma getitem_length c df col : wf df → getitem c df = Some col → length col = nrows df.
Proof.
  intros Hwf Hc. apply getitem_named in Hc.
  assert (Hin : (c, col) ∈ named c (data df)) by (rewrite Hc; left).
  apply list_elem_of_filter in Hin as [_ Hin].
  unfold wf in Hwf. rewrite Forall_forall in Hwf. by apply (Hwf _ Hin).
Qed.

Lemma setitem_new c col df :
  c ∉ columns df → length col = nrows df →
  setitem c col df = Some (mkDF (index_name df) (index df) (data df ++ [(c, col)])).
Proof.
  intros Hc Hl. unfold setitem.
  by rewrite bool_decide_eq_true_2, bool_decide_eq_false_2.
Qed.

Lemma length_astype_str col scol : astype_str col = Some scol → length scol = length col.
Proof. intros H. symmetry. by eapply length_mapM. Qed.

Lemma length_str_zfill n col : length (str_zfill n col) = length col.
Proof. unfold str_zfill. by rewrite length_fmap. Qed.

Lemma getitem_app_new n i d c col :
  Forall (λ p, p.1 ≠ c) d → getitem c (mkDF n i (d ++ [(c, col)])) = Some col.
Proof.
  intros H. apply getitem_named. cbn [data]. rewrite named_app.
  unfold named at 1. rewrite filter_none by done.
  unfold named. rewrite filter_cons_True by done. done.
Qed.

Lemma getitem_app_old n i d d' c :
  Forall (λ p, p.1 ≠ c) d' → getitem c (mkDF n i (d ++ d')) = getitem c (mkDF n i d).
Proof.
  intros H. unfold getitem. cbn [data]. rewrite named_app.
  unfold named at 2. rewrite filter_none by done. by rewrite app_nil_r.
Qed.

Ltac step := cbn [mbind option_bind mret option_ret].

Lemma getitem_app_tail n i d d' c :
  Forall (λ p, p.1 ≠ c) d → getitem c (mkDF n i (d ++ d')) = getitem c (mkDF n i d').
Proof.
  intros H. unfold getitem. cbn [data]. rewrite named_app.
  unfold named at 1. by rewrite filter_none.
Qed.

Lemma suffix_dups_app seen l o n :
  suffix_dups seen seen (l ++ o) (l ++ n)
  = suffix_dups (reverse l ++ seen) (reverse l ++ seen) o n.
Proof.
  revert seen. induction l as [|x l IH]; intros seen; [done|].
  cbn [app suffix_dups]. rewrite IH, reverse_cons, <- app_assoc.
  by destruct (bool_decide (x ∈ seen)).
Qed.

Lemma fst_prod_map (f : string → string) (g : list value → list value) d :
  (prod_map f g <$> d).*1 = f <$> d.*1.
Proof. rewrite <- !list_fmap_compose. by apply list_fmap_ext; intros ? [??]. Qed.

Lemma suffixed_absent sfx other c : c ∉ other → suffixed sfx other c = c.
Proof. intros. unfold suffixed. by rewrite bool_decide_eq_false_2. Qed.

Lemma suffixed_present sfx other c : c ∈ other → suffixed sfx other c = c +:+ sfx.
Proof. intros. unfold suffixed. by rewrite bool_decide_eq_true_2. Qed.

Lemma not_in_labels c d : c ∉ d.*1 ↔ Forall (λ p, p.1 ≠ c) d.
Proof. apply (not_in_columns c (mkDF None [] d)). Qed.

Ltac notin_list :=
  let H := fresh in
  intros H; repeat (apply elem_of_cons in H as [H|H]; [discriminate H|]);
  by apply elem_of_nil in H.

Lemma not_elem_of_app_labels c d (l : list string) :
  Forall (λ p, p.1 ≠ c) d → c ∉ l → c ∉ (d.*1 ++ l)%list.
Proof.
  intros Hd Hl [Hin|Hin]%elem_of_app; [|done].
  by apply not_in_labels in Hd.
Qed.

Lemma labels_avoid d (l : list string) :
  Forall (λ c, c ∉ d.*1) l → Forall (λ c, c ∉ l) d.*1.
Proof. rewrite !Forall_forall. intros H c Hc Hl. by apply (H c Hl). Qed.

Lemma fmap_relabel_id (f : string → string) (g : list value → list value) d :
  Forall (λ p, f p.1 = p.1) d → prod_map f g <$> d = prod_map id g <$> d.
Proof.
  induction 1 as [|[x col] d Hx _ IH]; [done|].
  rewrite !fmap_cons, IH. simpl in *. by rewrite Hx.
Qed.

Ltac each_column :=
  rewrite ?Forall_fmap; rewrite Forall_forall;
  let x := fresh "x" in let col := fresh "col" in let Hp := fresh "Hp" in
  intros [x col] Hp;
  repeat match goal with
  | H : Forall _ _ |- _ => pose proof (proj1 (Forall_forall _ _) H _ Hp); clear H
  end;
  clear Hp; cbn [fst snd] in *.

Lemma merge_referendum_and_areas_eq referendum areas codes names creg nreg cdep ndep scodes sdep mask :
  wf referendum →
  getitem "Department code" referendum = Some codes →
  getitem "Department name" referendum = Some names →
  Forall (λ c, c ∉ columns referendum)
    ["code_dep"; "name_dep"; "name_dep_x"; "name_dep_y"; "code_reg"; "name_reg"] →
  data areas = [("code_reg", creg); ("name_reg", nreg); ("code_dep", cdep); ("name_dep", ndep)] →
  length cdep = nrows areas →
  astype_str codes = Some scodes →
  astype_str cdep = Some sdep →
  str_not_contains "Z" (str_zfill 2 scodes) = Some mask →
  let akeys := str_zfill 2 sdep in
  let lkey := mask_filter mask (str_zfill 2 scodes) in
  merge_referendum_and_areas referendum areas =
    Some (mkDF None (range_index (length (left_take lkey akeys lkey)))
            ((prod_map id (left_take lkey akeys ∘ mask_filter mask) <$> data referendum) ++
             [("code_dep", left_take lkey akeys lkey);
              ("name_dep", left_take lkey akeys (mask_filter mask names));
              ("code_reg", right_take lkey akeys creg);
              ("name_reg", right_take lkey akeys nreg)])).
Proof.
  destruct referendum as [rn ri R], areas as [an ai A].
  intros Hwf Hcodes Hnames Hlack HA Hlen Hsc Hsd Hmask akeys lkey.
  cbn [data] in HA. subst A.
  rewrite !Forall_cons in Hlack. destruct Hlack as (L1 & L2 & L3 & L4 & L5 & L6 & _).
  pose proof (getitem_length _ _ _ Hwf Hcodes) as Hlc.
  pose proof (getitem_length _ _ _ Hwf Hnames) as Hln.
  unfold merge_referendum_and_areas, copy.
  rewrite Hcodes. step. rewrite Hsc. step.
  rewrite setitem_new by (done || by rewrite length_str_zfill, (length_astype_str _ _ Hsc)). step.
  cbn [index_name index data].
  rewrite not_in_columns in L1, L2, L3, L4, L5, L6. cbn [data] in *.
  rewrite getitem_app_old by (repeat constructor; done). rewrite Hnames. step.
  rewrite setitem_new; cycle 1.
  { apply not_in_columns. cbn [data]. apply Forall_app. split; [done|]. by repeat constructor. }
  { done. }
  step. cbn [index_name index data]. rewrite <- app_assoc. cbn [app].
  assert (Hg : getitem "code_dep" (mkDF an ai [("code_reg", creg); ("name_reg", nreg); ("code_dep", cdep); ("name_dep", ndep)]) = Some cdep) by reflexivity.
  rewrite Hg. clear Hg. step. rewrite Hsd. step.
  assert (Hs : setitem "code_dep" (str_zfill 2 sdep) (mkDF an ai [("code_reg", creg); ("name_reg", nreg); ("code_dep", cdep); ("name_dep", ndep)])
     = Some (mkDF an ai [("code_reg", creg); ("name_reg", nreg); ("code_dep", akeys); ("name_dep", ndep)])).
  { unfold setitem. rewrite bool_decide_eq_true_2; [done|].
    rewrite length_str_zfill, (length_astype_str _ _ Hsd). done. }
  rewrite Hs. clear Hs. step.
  rewrite getitem_app_tail by done.
  assert (Hg : getitem "code_dep" (mkDF rn ri [("code_dep", str_zfill 2 scodes); ("name_dep", names)]) = Some (str_zfill 2 scodes)) by reflexivity.
  rewrite Hg. clear Hg. step. rewrite Hmask. step.
  unfold filter_rows. rewrite bool_decide_eq_true_2; cycle 1.
  { rewrite <- (length_mapM _ _ _ Hmask), length_str_zfill, (length_astype_str _ _ Hsc). done. }
  step. cbn [index_name index data]. rewrite fmap_app. cbn [fmap list_fmap prod_map fst snd id].
  fold lkey.
  unfold merge_left.
  rewrite getitem_app_tail by (rewrite Forall_fmap; eapply Forall_impl; [exact L1|]; by intros [??]).
  assert (Hg : getitem "code_dep" (mkDF rn (mask_filter mask ri) [("code_dep", lkey); ("name_dep", mask_filter mask names)]) = Some lkey) by reflexivity.
  rewrite Hg; clear Hg. step.
  assert (Hg : getitem "code_dep" (mkDF an ai [("code_reg", creg); ("name_reg", nreg); ("code_dep", akeys); ("name_dep", ndep)]) = Some akeys) by reflexivity.
  rewrite Hg; clear Hg. step.
  cbn [data]. rewrite bool_decide_eq_true_2 by done.
  assert (Hf : filter (λ p : string * list value, p.1 ≠ "code_dep") [("code_reg", creg); ("name_reg", nreg); ("code_dep", akeys); ("name_dep", ndep)] = [("code_reg", creg); ("name_reg", nreg); ("name_dep", ndep)]) by reflexivity.
  rewrite Hf; clear Hf.
  unfold columns. cbn [data]. rewrite fmap_app, fst_prod_map, list_fmap_id.
  cbn [fmap list_fmap fst].
  rewrite (suffixed_absent _ _ "code_reg"), (suffixed_absent _ _ "name_reg"),
    (suffixed_present _ _ "name_dep");
    [| apply elem_of_app; right; right; left
     | apply not_elem_of_app_labels; [done|notin_list]
     | apply not_elem_of_app_labels; [done|notin_list] ].
  rewrite fmap_app, suffixed_fmap_id; cycle 1.
  { apply labels_avoid. repeat constructor; by apply not_in_labels. }
  change (suffixed "_x" ["code_reg"; "name_reg"; "name_dep"] <$> ["code_dep"; "name_dep"])
    with ["code_dep"; "name_dep_x"].
  rewrite suffix_dups_app. cbn [suffix_dups].
  rewrite (bool_decide_eq_false_2 ("name_dep_x" ∈ _)); cycle 1.
  { rewrite app_nil_r. intros [Hin|Hin]%elem_of_cons; [done|].
    rewrite elem_of_reverse in Hin. exact (proj2 (not_in_labels _ _) L3 Hin). }
  rewrite andb_negb_r. cbn [orb andb].
  change (suffix_dups [] [] ["code_reg"; "name_reg"; "name_dep"] ["code_reg"; "name_reg"; "name_dep" +:+ "_y"]) with false.
  match goal with |- context [if ?b then None else _] => change b with false end.
  step. cbn [prod_map fst snd].
  rewrite (suffixed_absent _ _ "code_reg"), (suffixed_absent _ _ "name_reg"),
    (suffixed_present _ _ "name_dep");
    [| apply elem_of_app; right; right; left
     | apply not_elem_of_app_labels; [done|notin_list]
     | apply not_elem_of_app_labels; [done|notin_list] ].
  rewrite fmap_app, prod_map_fmap_compose.
  rewrite (fmap_relabel_id (suffixed "_x" ["code_reg"; "name_reg"; "name_dep"] ∘ id)); cycle 1.
  { each_column. apply suffixed_absent.
    intros Hin. repeat (apply elem_of_cons in Hin as [Hin|Hin]; [done|]). by apply elem_of_nil in Hin. }
  cbn [fmap list_fmap prod_map fst snd].
  change (suffixed "_x" ["code_reg"; "name_reg"; "name_dep"] "code_dep") with "code_dep".
  change (suffixed "_x" ["code_reg"; "name_reg"; "name_dep"] "name_dep") with "name_dep_x".
  change ("name_dep" +:+ "_y") with "name_dep_y".
  rewrite <- app_assoc. cbn [app].
  unfold drop. rewrite bool_decide_eq_true_2; cycle 1.
  { repeat constructor. unfold columns. cbn [data]. rewrite fmap_app.
    apply elem_of_app. right. cbn. do 4 right. left. }
  step. cbn [index_name index data]. rewrite filter_app, filter_all; cycle 1.
  { each_column. simpl. by intros Hin%list_elem_of_singleton. }
  unfold rename. cbn [index_name index data]. rewrite fmap_app.
  rewrite prod_map_fmap_compose, (fmap_relabel_id (rename_label _ ∘ id)); cycle 1.
  { each_column. unfold compose, rename_label, id. by rewrite bool_decide_eq_false_2. }
  reflexivity.
Qed.

(** ** Rows of a left join *)

Lemma length_cells_at k keycol col :
  length col = length keycol → length (cells_at k keycol col) = count_key k keycol.
Proof.
  unfold cells_at, count_key. rewrite length_fmap.
  revert col. induction keycol as [|x keycol IH]; intros [|v col] Hl; try done.
  simpl in Hl. cbn [zip zip_with]. rewrite !filter_cons. cbn [fst].
  destruct (decide (x = k)); cbn [length]; rewrite IH; congruence.
Qed.

Lemma length_left_take lkey rkey col :
  length col = length lkey →
  length (left_take lkey rkey col) = length (left_take lkey rkey lkey).
Proof.
  unfold left_take. revert col.
  induction lkey as [|k lkey IH]; intros [|v col] Hl; try done.
  cbn [zip zip_with]. rewrite !bind_cons, !length_app, !length_replicate.
  cbn [fst]. f_equal. apply IH. simpl in Hl. congruence.
Qed.

Lemma length_right_take lkey rkey col :
  length col = length rkey →
  length (right_take lkey rkey col) = length (left_take lkey rkey lkey).
Proof.
  intros Hl. unfold left_take, right_take.
  induction lkey as [|k lkey IH]; [done|].
  cbn [zip zip_with]. rewrite !bind_cons, !length_app, IH, length_replicate.
  cbn [fst]. f_equal.
  pose proof (length_cells_at k rkey col Hl) as Hc.
  destruct (cells_at k rkey col); simpl in *; lia.
Qed.

(** When no key of the left table is carried by two rows of the right
    one, the join keeps the rows of the left table as they are. *)
Lemma left_take_unique lkey rkey col :
  Forall (λ k, count_key k rkey ≤ 1) lkey →
  length col = length lkey →
  left_take lkey rkey col = col.
Proof.
  unfold left_take. intros Hu. revert col.
  induction Hu as [|k lkey Hk _ IH]; intros [|v col] Hl; try done.
  cbn [zip zip_with]. rewrite bind_cons. cbn [fst snd].
  replace (Nat.max 1 (count_key k rkey)) with 1 by lia.
  cbn [replicate app]. f_equal. apply IH. simpl in Hl. congruence.
Qed.

Lemma right_take_unique lkey rkey col :
  Forall (λ k, count_key k rkey ≤ 1) lkey →
  length col = length rkey →
  right_take lkey rkey col = (λ k, default VNull (head (cells_at k rkey col))) <$> lkey.
Proof.
  unfold right_take. intros Hu Hl.
  induction Hu as [|k lkey Hk _ IH]; [done|].
  rewrite bind_cons, fmap_cons, IH.
  pose proof (length_cells_at k rkey col Hl) as Hc.
  destruct (cells_at k rkey col) as [|v [|??]]; simpl in *; done || lia.
Qed.

(** The cell a right column gets in row [i] of the join. *)
Lemma cells_at_absent k keycol col : k ∉ keycol → cells_at k keycol col = [].
Proof.
  intros Hk. unfold cells_at. rewrite filter_none; [done|].
  rewrite Forall_forall. intros [x v] Hin Heq. simpl in Heq. subst x. apply Hk.
  apply (list_elem_of_fmap_2 fst) in Hin. simpl in Hin.
  revert Hin. generalize col. clear.
  induction keycol as [|y keycol IH]; intros [|w col]; simpl; try by intros ?%elem_of_nil.
  intros [->|Hin]%elem_of_cons; [left|right]. by eapply IH.
Qed.

Lemma cells_at_lookup k keycol col j :
  NoDup keycol → keycol !! j = Some k → length col = length keycol →
  cells_at k keycol col = [default VNull (col !! j)].
Proof.
  unfold cells_at. intros Hnd. revert j col.
  induction Hnd as [|x keycol Hx Hnd IH]; intros j [|v col] Hj Hl; try done.
  cbn [zip zip_with]. rewrite filter_cons. cbn [fst].
  destruct j as [|j]; simpl in Hj.
  - injection Hj as ->. rewrite decide_True by done.
    rewrite fmap_cons. cbn [snd]. f_equal.
    change (cells_at k keycol col = []). by apply cells_at_absent.
  - rewrite decide_False.
    + simpl. apply IH; [done|]. simpl in Hl. congruence.
    + intros ->. apply Hx. by eapply list_elem_of_lookup_2.
Qed.

Lemma count_key_NoDup k keycol : NoDup keycol → count_key k keycol ≤ 1.
Proof.
  unfold count_key. induction 1 as [|x keycol Hx Hnd IH]; [simpl; lia|].
  destruct (decide (x = k)) as [->|].
  - rewrite filter_cons_True, filter_none; [simpl; lia| |done].
    rewrite Forall_forall. by intros y Hy ->.
  - by rewrite filter_cons_False.
Qed.

(** A closed decidable statement, by evaluation. *)
Ltac by_compute := refine (bool_decide_eq_true_1 _ _); vm_compute; reflexivity.

(** ** Regions and departments *)

Lemma length_range_index n : length (range_index n) = n.
Proof. unfold range_index. by rewrite length_fmap, length_seq. Qed.




(** ** Department keys *)

Lemma astype_str_dep_key col scol :
  astype_str col = Some scol → mapM dep_key col = Some (str_zfill 2 scol).
Proof.
  unfold astype_str. rewrite !mapM_Some. intros H.
  unfold str_zfill. induction H as [|v s col scol Hv _ IH]; [constructor|].
  rewrite fmap_cons. constructor; [|done].
  unfold dep_key. destruct (to_str v); simplify_eq/=. done.
Qed.

Lemma dep_key_astype_str col keys :
  mapM dep_key col = Some keys →
  ∃ scol, astype_str col = Some scol ∧ keys = str_zfill 2 scol.
Proof.
  intros H. destruct (astype_str col) as [scol|] eqn:E.
  - exists scol. split; [done|]. apply astype_str_dep_key in E. congruence.
  - exfalso. unfold astype_str in E. apply mapM_None in E.
    apply mapM_Some in H. revert E. clear -H.
    induction H as [|v k col keys Hv _ IH]; intros E.
    + by apply Exists_nil in E.
    + apply Exists_cons in E as [E|E]; [|by apply IH].
      unfold dep_key in Hv. by destruct (to_str v).
Qed.

Lemma length_zeros n : String.length (zeros n) = n.
Proof. induction n as [|n IH]; [done|]. cbn [zeros String.length]. by rewrite IH. Qed.

Lemma string_length_app (s t : string) :
  String.length (s +:+ t) = String.length s + String.length t.
Proof. induction s as [|a s IH]; [done|]. simpl. by rewrite <- IH. Qed.

(** [zfill] pads to the width and never shortens. *)
Lemma length_zfill width s :
  String.length (zfill width s) = Nat.max width (String.length s).
Proof.
  unfold zfill. destruct (Nat.leb_spec width (String.length s)) as [Hle|Hlt]; [lia|].
  destruct s as [|c rest].
  - rewrite length_zeros. simpl. lia.
  - destruct (Ascii.eqb c "+" || Ascii.eqb c "-")%bool; simpl in *;
      rewrite string_length_app, length_zeros; simpl; lia.
Qed.

Lemma zfill_long width s : width ≤ String.length s → zfill width s = s.
Proof. intros H. unfold zfill. by destruct (Nat.leb_spec width (String.length s)); [|lia]. Qed.

Lemma dep_key_str v k :
  dep_key v = Some k →
  ∃ s, to_str v = Some s ∧ k = VStr (zfill 2 s) ∧ 2 ≤ String.length (zfill 2 s).
Proof.
  unfold dep_key. destruct (to_str v) as [s|]; [|done].
  intros [= <-]. exists s. repeat split. rewrite length_zfill. lia.
Qed.

Lemma str_not_contains_keys col keys :
  mapM dep_key col = Some keys →
  str_not_contains "Z" keys = Some ((λ k, negb (has_Z k)) <$> keys).
Proof.
  rewrite mapM_Some. intros H. unfold str_not_contains. apply mapM_Some.
  induction H as [|v k col keys Hv _ IH]; [constructor|].
  rewrite fmap_cons. constructor; [|done].
  apply dep_key_str in Hv as (s & _ & -> & _). done.
Qed.

(** ** Boolean masks *)

Lemma mask_filter_fmap {A} (f : A → bool) (l : list A) :
  mask_filter (f <$> l) l = filter (λ x, f x = true) l.
Proof.
  induction l as [|x l IH]; [done|].
  rewrite fmap_cons, filter_cons. cbn [mask_filter]. rewrite IH.
  destruct (f x) eqn:E; [by rewrite decide_True|by rewrite decide_False].
Qed.

Lemma length_mask_filter {A} (mask : list bool) (l : list A) :
  length mask = length l →
  length (mask_filter mask l) = length (filter (λ b, b = true) mask).
Proof.
  revert l. induction mask as [|b mask IH]; intros [|x l] Hl; try done.
  cbn [mask_filter]. rewrite filter_cons.
  destruct b; [rewrite decide_True by done|rewrite decide_False by done];
    cbn [length]; rewrite IH; simpl in Hl; congruence.
Qed.

Lemma length_filter_negb {A} (f : A → bool) (l : list A) :
  length (filter (λ x, f x = false) l) = length l - length (filter (λ x, f x = true) l).
Proof.
  induction l as [|x l IH]; [done|].
  rewrite !filter_cons. pose proof (length_filter (λ x, f x = true) l).
  destruct (f x); simpl; rewrite ?IH; lia.
Qed.

(** ** Referendum and areas *)

Lemma columns_four df c1 c2 c3 c4 :
  columns df = [c1; c2; c3; c4] →
  ∃ x1 x2 x3 x4, data df = [(c1, x1); (c2, x2); (c3, x3); (c4, x4)].
Proof.
  unfold columns. destruct (data df) as [|[? x1] [|[? x2] [|[? x3] [|[? x4] [|]]]]];
    intros [=]; subst. by exists x1, x2, x3, x4.
Qed.

Lemma getitem_fmap_id (g : list value → list value) c df n i col :
  getitem c df = Some col →
  getitem c (mkDF n i (prod_map id g <$> data df)) = Some (g col).
Proof.
  destruct df as [n' i' d]. intros H. apply getitem_named. cbn [data].
  eapply (getitem_relabel id g) in H; [exact H|].
  rewrite Forall_forall. by intros [??] _.
Qed.

Lemma getitem_in_columns c df col : getitem c df = Some col → c ∈ columns df.
Proof.
  intros H%getitem_named.
  assert (Hin : (c, col) ∈ named c (data df)) by (rewrite H; left).
  apply list_elem_of_filter in Hin as [_ Hin].
  unfold columns. by apply (list_elem_of_fmap_2 fst) in Hin.
Qed.

Lemma mask_filter_keep_mask keys : mask_filter (keep_mask keys) keys = kept keys.
Proof.
  unfold keep_mask, kept. rewrite mask_filter_fmap. apply list_filter_iff.
  intros k. by destruct (has_Z k).
Qed.

Lemma elem_of_cells_at v k keycol col :
  v ∈ cells_at k keycol col → ∃ j, keycol !! j = Some k ∧ col !! j = Some v.
Proof.
  unfold cells_at. revert col.
  induction keycol as [|x keycol IH]; intros [|w col]; try by intros ?%elem_of_nil.
  cbn [zip zip_with]. rewrite filter_cons. cbn [fst].
  destruct (decide (x = k)) as [->|].
  - rewrite fmap_cons. intros [->|Hin]%elem_of_cons.
    + by exists 0.
    + destruct (IH _ Hin) as (j & ? & ?). by exists (S j).
  - intros Hin. destruct (IH _ Hin) as (j & ? & ?). by exists (S j).
Qed.

Lemma count_key_0 k keycol : count_key k keycol = 0 → k ∉ keycol.
Proof.
  unfold count_key. intros H Hin.
  assert (Hk : k ∈ filter (λ x, x = k) keycol) by by apply list_elem_of_filter.
  destruct (filter (λ x, x = k) keycol); [by apply elem_of_nil in Hk|done].
Qed.

(** Every row of a left join either has a key that no right row carries,
    and then a missing cell in the right column, or carries the cell of a
    right row with an equal key. *)
Lemma join_rows lkey rkey col :
  length col = length rkey →
  Forall (λ p, ((p.1 ∉ rkey) ∧ p.2 = VNull)
               ∨ (∃ j, rkey !! j = Some p.1 ∧ col !! j = Some p.2))
    (zip (left_take lkey rkey lkey) (right_take lkey rkey col)).
Proof.
  intros Hl. unfold left_take, right_take.
  induction lkey as [|k lkey IH]; [constructor|].
  cbn [zip zip_with]. rewrite !bind_cons. cbn [fst snd].
  pose proof (length_cells_at k rkey col Hl) as Hc.
  rewrite (zip_with_app pair (replicate (1 `max` count_key k rkey) k)); cycle 1.
  { rewrite length_replicate, <- Hc. destruct (cells_at k rkey col); simpl; lia. }
  apply Forall_app. split; [|exact IH].
  rewrite Forall_forall. intros [a b] Hin.
  pose proof (elem_of_zip_l _ _ _ _ Hin) as ->%elem_of_replicate_inv.
  apply elem_of_zip_r in Hin. cbn [fst snd].
  destruct (cells_at k rkey col) as [|c cs] eqn:E.
  - left. apply list_elem_of_singleton in Hin. split; [|done].
    apply count_key_0. by rewrite <- Hc.
  - right. apply elem_of_cells_at. by rewrite E.
Qed.

Lemma Forall_kept (P : value → Prop) keys : Forall P keys → Forall P (kept keys).
Proof.
  rewrite !Forall_forall. intros H k [_ Hk]%list_elem_of_filter. by apply H.
Qed.

Lemma elem_of_left_take v lkey rkey col :
  v ∈ left_take lkey rkey col → v ∈ col.
Proof.
  unfold left_take. intros (p & Hv & Hp)%list_elem_of_bind.
  apply elem_of_replicate_inv in Hv as ->.
  destruct p as [k x]. by apply elem_of_zip_r in Hp.
Qed.

Lemma mapM_dep_key_str col keys :
  mapM dep_key col = Some keys →
  Forall2 (λ v k, ∃ s, to_str v = Some s ∧ k = VStr (zfill 2 s)
                       ∧ 2 ≤ String.length (zfill 2 s)) col keys.
Proof.
  rewrite mapM_Some. intros H. eapply Forall2_impl; [exact H|].
  intros v k. apply dep_key_str.
Qed.

(** ** Groups *)

Lemma elem_of_group_keys k keycol : k ∈ group_keys keycol ↔ k ∈ keycol ∧ k ≠ VNull.
Proof.
  unfold group_keys. rewrite merge_sort_Permutation, elem_of_remove_dups.
  rewrite list_elem_of_filter. tauto.
Qed.

Lemma NoDup_group_keys keycol : NoDup (group_keys keycol).
Proof.
  unfold group_keys. rewrite merge_sort_Permutation. apply NoDup_remove_dups.
Qed.

Lemma length_group_keys keycol :
  length (group_keys keycol) = length (remove_dups (filter (λ v, v ≠ VNull) keycol)).
Proof. unfold group_keys. by rewrite merge_sort_Permutation. Qed.

Lemma elem_of_cells_at_col v k keycol col : v ∈ cells_at k keycol col → v ∈ col.
Proof.
  intros (j & _ & Hj)%elem_of_cells_at. by eapply list_elem_of_lookup_2.
Qed.

Lemma agg_sum_Z_summable cells :
  Forall (λ v, summable v = true) cells → agg_sum_Z cells = Some (sum_cells cells).
Proof.
  induction 1 as [|v cells Hv _ IH]; [done|].
  destruct v; try done. cbn [agg_sum_Z sum_cells foldr]. by rewrite IH.
Qed.

Lemma mapM_agg_sum keycol col keys :
  Forall (λ v, summable v = true) col →
  mapM (λ k, agg AggSum (cells_at k keycol col)) keys
  = Some ((λ k, VInt (sum_cells (cells_at k keycol col))) <$> keys).
Proof.
  intros Hc. apply mapM_Some. apply Forall2_fmap_r, Forall_Forall2_diag.
  rewrite Forall_forall. intros k _. cbn [agg].
  rewrite agg_sum_Z_summable; [done|].
  rewrite Forall_forall in Hc |- *. intros v Hv. eapply Hc, elem_of_cells_at_col, Hv.
Qed.

Lemma mapM_agg_first keycol col keys :
  mapM (λ k, agg AggFirst (cells_at k keycol col)) keys
  = Some ((λ k, agg_first (cells_at k keycol col)) <$> keys).
Proof.
  apply mapM_Some. apply Forall2_fmap_r, Forall_Forall2_diag.
  by rewrite Forall_forall.
Qed.

(** ["first"] is the first cell of the group when that cell is not
    missing. *)
Lemma agg_first_head v cells : v ≠ VNull → agg_first (v :: cells) = v.
Proof. intros Hv. unfold agg_first. by rewrite filter_cons_True. Qed.

Lemma agg_first_skip cells : agg_first (VNull :: cells) = agg_first cells.
Proof. unfold agg_first. by rewrite filter_cons_False by (by intros []). Qed.

(** The table [compute_referendum_result_by_regions] returns, column by
    column. *)
Lemma compute_referendum_result_by_regions_eq df keycol names reg abst null a b :
  getitem "code_reg" df = Some keycol →
  getitem "name_reg" df = Some names →
  getitem "Registered" df = Some reg →
  getitem "Abstentions" df = Some abst →
  getitem "Null" df = Some null →
  getitem "Choice A" df = Some a →
  getitem "Choice B" df = Some b →
  Forall (Forall (λ v, summable v = true)) [reg; abst; null; a; b] →
  compute_referendum_result_by_regions df =
    Some (mkDF (Some "code_reg") (group_keys keycol)
      [("name_reg", (λ k, agg_first (cells_at k keycol names)) <$> group_keys keycol);
       ("Registered", (λ k, VInt (sum_cells (cells_at k keycol reg))) <$> group_keys keycol);
       ("Abstentions", (λ k, VInt (sum_cells (cells_at k keycol abst))) <$> group_keys keycol);
       ("Null", (λ k, VInt (sum_cells (cells_at k keycol null))) <$> group_keys keycol);
       ("Choice A", (λ k, VInt (sum_cells (cells_at k keycol a))) <$> group_keys keycol);
       ("Choice B", (λ k, VInt (sum_cells (cells_at k keycol b))) <$> group_keys keycol)]).
Proof.
  intros Hk Hn Hr Ha Hu Hca Hcb Hs.
  rewrite !Forall_cons in Hs. destruct Hs as (S1 & S2 & S3 & S4 & S5 & _).
  unfold compute_referendum_result_by_regions, groupby_agg.
  rewrite Hk. step. cbn [mapM fst snd]. step.
  rewrite Hn, Hr, Ha, Hu, Hca, Hcb. step.
  rewrite mapM_agg_first. step.
  rewrite !mapM_agg_sum by done. step. done.
Qed.



(** ** Rows without a region *)

Lemma mask_filter_notna keycol :
  mask_filter (notna <$> keycol) keycol = filter (λ v, v ≠ VNull) keycol.
Proof.
  rewrite mask_filter_fmap. apply list_filter_iff. by intros [].
Qed.

Lemma group_keys_notna keycol :
  group_keys (mask_filter (notna <$> keycol) keycol) = group_keys keycol.
Proof.
  rewrite mask_filter_notna. unfold group_keys. f_equal. f_equal.
  apply filter_all. rewrite Forall_forall. by intros v [? _]%list_elem_of_filter.
Qed.

Lemma cells_at_notna k keycol col :
  k ≠ VNull →
  cells_at k (mask_filter (notna <$> keycol) keycol) (mask_filter (notna <$> keycol) col)
  = cells_at k keycol col.
Proof.
  intros Hk. unfold cells_at. revert col.
  induction keycol as [|x keycol IH]; intros [|v col]; try done.
  - rewrite fmap_cons. cbn [mask_filter]. by rewrite !zip_with_nil_r.
  - rewrite fmap_cons. cbn [mask_filter zip zip_with].
    destruct (decide (x = VNull)) as [->|Hx].
    + cbn [notna is_null negb]. rewrite IH.
      rewrite (filter_cons_False _ (VNull, v)); [done|]. cbn [fst]. congruence.
    + replace (notna x) with true by (by destruct x).
      cbn [zip zip_with]. rewrite !filter_cons. cbn [fst].
      destruct (decide (x = k)); [rewrite !fmap_cons|]; by rewrite IH.
Qed.

Lemma getitem_filter_rows c mask df df' :
  filter_rows mask df = Some df' →
  getitem c df' = mask_filter mask <$> getitem c df.
Proof.
  unfold filter_rows. case_bool_decide; [|done]. intros [= <-].
  unfold getitem. cbn [data]. rewrite named_fmap.
  change (filter (λ p : string * list value, id p.1 = c) (data df)) with (named c (data df)).
  by destruct (named c (data df)) as [|[??] [|]].
Qed.

(** Rows whose key is missing are in no group: the aggregation of a
    table is that of its rows with a key. *)
Lemma groupby_agg_dropna key spec df keycol :
  wf df →
  getitem key df = Some keycol →
  groupby_agg key spec df
  = df' ← filter_rows (notna <$> keycol) df; groupby_agg key spec df'.
Proof.
  intros Hwf Hk.
  destruct (filter_rows (notna <$> keycol) df) as [df'|] eqn:E; cycle 1.
  { unfold filter_rows in E. rewrite bool_decide_eq_true_2 in E; [done|].
    rewrite length_fmap. by eapply getitem_length. }
  step. unfold groupby_agg.
  rewrite (getitem_filter_rows _ _ _ _ E), Hk.
  change (mask_filter (notna <$> keycol) <$> Some keycol)
    with (Some (mask_filter (notna <$> keycol) keycol)).
  step. rewrite group_keys_notna. f_equal.
  apply mapM_ext. intros [out [c f]]. cbn [fst snd].
  rewrite (getitem_filter_rows _ _ _ _ E).
  destruct (getitem c df) as [col|]; [|done].
  change (mask_filter (notna <$> keycol) <$> Some col)
    with (Some (mask_filter (notna <$> keycol) col)).
  step.
  f_equal. apply Forall_mapM_ext. rewrite Forall_forall.
  intros k [_ Hk']%elem_of_group_keys. by rewrite cells_at_notna.
Qed.

Section referendum_and_areas.
Variables referendum areas : DataFrame.
Variables codes names creg cdep keys akeys : list value.
Hypothesis Hwf : wf referendum.
Hypothesis Hcodes : getitem "Department code" referendum = Some codes.
Hypothesis Hnames : getitem "Department name" referendum = Some names.
Hypothesis Hfresh :
  Forall (λ c, c ∉ columns referendum)
    ["code_dep"; "name_dep"; "name_dep_x"; "name_dep_y"; "code_reg"; "name_reg"].
Hypothesis Hwfa : wf areas.
Hypothesis Hcols : columns areas = ["code_reg"; "name_reg"; "code_dep"; "name_dep"].
Hypothesis Hcreg : getitem "code_reg" areas = Some creg.
Hypothesis Hcdep : getitem "code_dep" areas = Some cdep.
Hypothesis Hkeys : mapM dep_key codes = Some keys.
Hypothesis Hakeys : mapM dep_key cdep = Some akeys.

Local Abbreviation mask := (keep_mask keys).
Local Abbreviation lkey := (kept keys).

Lemma length_keys : length keys = nrows referendum.
Proof using Hwf Hcodes Hkeys.
  rewrite <- (length_mapM _ _ _ Hkeys). by eapply getitem_length.
Qed.

Lemma length_akeys : length akeys = nrows areas.
Proof using Hwfa Hcdep Hakeys.
  rewrite <- (length_mapM _ _ _ Hakeys). by eapply getitem_length.
Qed.

(** The table the script returns, column by column. *)
Lemma merge_referendum_and_areas_data :
  ∃ nreg,
    getitem "name_reg" areas = Some nreg ∧
    merge_referendum_and_areas referendum areas =
      Some (mkDF None (range_index (length (left_take lkey akeys lkey)))
              ((prod_map id (left_take lkey akeys ∘ mask_filter mask) <$> data referendum) ++
               [("code_dep", left_take lkey akeys lkey);
                ("name_dep", left_take lkey akeys (mask_filter mask names));
                ("code_reg", right_take lkey akeys creg);
                ("name_reg", right_take lkey akeys nreg)])).
Proof using All.
  destruct (columns_four _ _ _ _ _ Hcols) as (x1 & nreg & x3 & x4 & Hd).
  assert (x1 = creg) as ->.
  { unfold getitem in Hcreg. rewrite Hd in Hcreg. by injection Hcreg. }
  assert (x3 = cdep) as ->.
  { unfold getitem in Hcdep. rewrite Hd in Hcdep. by injection Hcdep. }
  exists nreg. split. { unfold getitem. by rewrite Hd. }
  destruct (dep_key_astype_str _ _ Hkeys) as (scodes & Hsc & Ek).
  destruct (dep_key_astype_str _ _ Hakeys) as (sdep & Hsd & Ea).
  rewrite <- mask_filter_keep_mask, Ek, Ea.
  apply (merge_referendum_and_areas_eq _ _ codes names creg nreg cdep x4 scodes sdep);
    try done.
  - by eapply getitem_length.
  - rewrite <- Ek. by eapply str_not_contains_keys.
Qed.

(** A column of the referendum table in the result. *)
Lemma merge_referendum_and_areas_getitem out c col :
  merge_referendum_and_areas referendum areas = Some out →
  getitem c referendum = Some col →
  getitem c out = Some (left_take lkey akeys (mask_filter mask col)).
Proof using All.
  destruct merge_referendum_and_areas_data as (nreg & _ & ->).
  intros [= <-] Hc.
  assert (Hin := getitem_in_columns _ _ _ Hc).
  rewrite getitem_app_old.
  - by apply (getitem_fmap_id (left_take lkey akeys ∘ mask_filter mask)).
  - rewrite !Forall_cons in Hfresh.
    destruct Hfresh as (L1 & L2 & L3 & L4 & L5 & L6 & _).
    repeat constructor; cbn [fst]; intros <-; eauto.
Qed.

(** C2: with at most one area row per department code, the result has the
    rows of the referendum table whose key has no Z, all of them and in
    order: the number of rows is the number of input rows minus those with a
    Z, and every input column comes out restricted to the kept rows. *)
Theorem merge_referendum_and_areas_drops_Z :
  Forall (λ k, count_key k akeys ≤ 1) keys →
  ∃ out,
    merge_referendum_and_areas referendum areas = Some out
    ∧ nrows out = nrows referendum - length (filter (λ k, has_Z k = true) keys)
    ∧ getitem "code_dep" out = Some (filter (λ k, has_Z k = false) keys)
    ∧ ∀ c col, getitem c referendum = Some col →
        getitem c out = Some (mask_filter (keep_mask keys) col).
Proof using All.
  intros Hu. apply Forall_kept in Hu.
  destruct merge_referendum_and_areas_data as (nreg & Hn & Hm).
  eexists. split; [exact Hm|].
  split.
  { unfold nrows at 1. cbn [index]. rewrite length_range_index.
    rewrite left_take_unique by done. unfold kept.
    by rewrite length_filter_negb, length_keys. }
  split.
  { rewrite getitem_app_tail.
    - rewrite left_take_unique by done. reflexivity.
    - rewrite !Forall_cons in Hfresh. destruct Hfresh as (L1 & _).
      apply not_in_columns in L1. each_column. done. }
  intros c col Hc.
  rewrite (merge_referendum_and_areas_getitem _ _ _ Hm Hc).
  assert (Hlen : length (keep_mask keys) = length col).
  { unfold keep_mask. rewrite length_fmap, length_keys. symmetry.
    by eapply getitem_length. }
  rewrite left_take_unique; [done|done|].
  rewrite length_mask_filter by done.
  rewrite <- (length_mask_filter _ keys), mask_filter_keep_mask; [done|].
  unfold keep_mask. by rewrite length_fmap.
Qed.

(** The rows of the result: keys and region codes. *)
Lemma merge_referendum_and_areas_rows :
  ∃ out deps regs,
    merge_referendum_and_areas referendum areas = Some out
    ∧ getitem "code_dep" out = Some deps
    ∧ getitem "code_reg" out = Some regs
    ∧ Forall (λ k, k ∈ keys) deps
    ∧ Forall (λ p, ((p.1 ∉ akeys) ∧ p.2 = VNull)
                   ∨ (∃ j, akeys !! j = Some p.1 ∧ creg !! j = Some p.2))
        (zip deps regs).
Proof using All.
  destruct merge_referendum_and_areas_data as (nreg & Hn & Hm).
  assert (L1 : Forall (λ p : string * list value, p.1 ≠ "code_dep") (data referendum)).
  { rewrite !Forall_cons in Hfresh. destruct Hfresh as (L1 & _).
    by apply not_in_columns in L1. }
  assert (L5 : Forall (λ p : string * list value, p.1 ≠ "code_reg") (data referendum)).
  { rewrite !Forall_cons in Hfresh. destruct Hfresh as (_ & _ & _ & _ & L5 & _).
    by apply not_in_columns in L5. }
  eexists _, _, _. split; [exact Hm|].
  split. { rewrite getitem_app_tail; [reflexivity|]. each_column. done. }
  split. { rewrite getitem_app_tail; [reflexivity|]. each_column. done. }
  split.
  { rewrite Forall_forall. intros k Hk%elem_of_left_take.
    by apply list_elem_of_filter in Hk as [_ ?]. }
  apply join_rows. rewrite length_akeys. by eapply getitem_length.
Qed.

(** C6: the keys of both sides are the codes turned into strings and
    padded with zeros to two characters or more; a row of the result has a
    key of the referendum side, and carries the region of an area row
    whose key is the same string, or no region when there is no such row.
    So a referendum code "1" finds the area code "01". *)
Theorem merge_referendum_and_areas_normalized_keys :
  ∃ out deps regs,
    merge_referendum_and_areas referendum areas = Some out
    ∧ getitem "code_dep" out = Some deps
    ∧ getitem "code_reg" out = Some regs
    ∧ Forall2 (λ v k, ∃ s, to_str v = Some s ∧ k = VStr (zfill 2 s)
                           ∧ 2 ≤ String.length (zfill 2 s)) codes keys
    ∧ Forall2 (λ v k, ∃ s, to_str v = Some s ∧ k = VStr (zfill 2 s)
                           ∧ 2 ≤ String.length (zfill 2 s)) cdep akeys
    ∧ Forall (λ k, k ∈ keys) deps
    ∧ Forall (λ p, ((p.1 ∉ akeys) ∧ p.2 = VNull)
                   ∨ (∃ j, akeys !! j = Some p.1 ∧ creg !! j = Some p.2))
        (zip deps regs)
    ∧ dep_key (VStr "1") = dep_key (VStr "01").
Proof using All.
  destruct merge_referendum_and_areas_rows
    as (out & deps & regs & Hm & Hd & Hr & Hk & Hrows).
  exists out, deps, regs. do 3 (split; [done|]).
  split; [by apply mapM_dep_key_str|].
  split; [by apply mapM_dep_key_str|].
  done.
Qed.

(** C7: the result has the columns of the referendum table followed by
    [code_dep], [name_dep], [code_reg], [name_reg]: one column [name_dep],
    none with a suffix, none from the area side.  In every row [name_dep]
    is the "Department name" of the referendum row. *)
Theorem merge_referendum_and_areas_name_dep :
  ∃ out dnames,
    merge_referendum_and_areas referendum areas = Some out
    ∧ columns out = (columns referendum ++ ["code_dep"; "name_dep"; "code_reg"; "name_reg"])%list
    ∧ getitem "name_dep" out = Some dnames
    ∧ getitem "Department name" out = Some dnames
    ∧ dnames = left_take lkey akeys (mask_filter mask names)
    ∧ Forall (λ v, v ∈ names) dnames.
Proof using All.
  destruct merge_referendum_and_areas_data as (nreg & Hn & Hm).
  assert (L2 : Forall (λ p : string * list value, p.1 ≠ "name_dep") (data referendum)).
  { rewrite !Forall_cons in Hfresh. destruct Hfresh as (_ & L2 & _).
    by apply not_in_columns in L2. }
  eexists _, _. split; [exact Hm|].
  split.
  { unfold columns. cbn [data]. rewrite fmap_app, fst_prod_map, list_fmap_id. done. }
  split. { rewrite getitem_app_tail; [reflexivity|]. each_column. done. }
  split. { by apply (merge_referendum_and_areas_getitem _ _ _ Hm). }
  split; [done|].
  rewrite Forall_forall. intros v Hv%elem_of_left_take.
  revert Hv. generalize mask. clear. intros m. revert m.
  induction names as [|x l IH]; intros [|[] m]; cbn [mask_filter];
    try (by intros ?%elem_of_nil).
  - intros [->|?]%elem_of_cons; [left|right; eauto].
  - right; eauto.
Qed.

Lemma merge_referendum_and_areas_wf out :
  merge_referendum_and_areas referendum areas = Some out → wf out.
Proof using All.
  destruct merge_referendum_and_areas_data as (nreg & Hn & ->). intros [= <-].
  assert (Hm : length mask = nrows referendum).
  { unfold keep_mask. by rewrite length_fmap, length_keys. }
  assert (Hcol : ∀ col, length col = nrows referendum →
            length (left_take lkey akeys (mask_filter mask col))
            = length (left_take lkey akeys lkey)).
  { intros col Hl. apply length_left_take.
    rewrite <- mask_filter_keep_mask, !length_mask_filter; [done|..].
    - by rewrite Hm, length_keys.
    - congruence. }
  assert (Hr : ∀ c col, getitem c areas = Some col →
            length (right_take lkey akeys col) = length (left_take lkey akeys lkey)).
  { intros c col Hc. apply length_right_take.
    rewrite length_akeys. by eapply getitem_length. }
  unfold wf, nrows. cbn [data index]. rewrite length_range_index.
  apply Forall_app. split.
  - rewrite Forall_fmap. unfold wf in Hwf. eapply Forall_impl; [exact Hwf|].
    intros [c col] Hl. cbn [prod_map fst snd compose] in *. by apply Hcol.
  - rewrite !Forall_cons, Forall_nil. cbn [snd].
    split; [done|]. split; [apply Hcol; by eapply getitem_length|].
    split; [by eapply Hr|]. split; [by eapply Hr|done].
Qed.

(** C10: a row of the merged table whose department key is the key of no
    area row has no region code; the aggregation by region is that of the
    rows with a region code, so the rows without one are in no regional
    total, and no row of the result is labelled by a missing code. *)
Theorem unmatched_rows_in_no_region :
  ∃ merged deps regs,
    merge_referendum_and_areas referendum areas = Some merged
    ∧ getitem "code_dep" merged = Some deps
    ∧ getitem "code_reg" merged = Some regs
    ∧ Forall (λ p, p.1 ∉ akeys → p.2 = VNull) (zip deps regs)
    ∧ compute_referendum_result_by_regions merged
      = (rows ← filter_rows (notna <$> regs) merged;
         compute_referendum_result_by_regions rows)
    ∧ ∀ out, compute_referendum_result_by_regions merged = Some out →
        index out = group_keys regs ∧ VNull ∉ index out.
Proof using All.
  destruct merge_referendum_and_areas_rows
    as (merged & deps & regs & Hm & Hd & Hr & _ & Hrows).
  exists merged, deps, regs. do 3 (split; [done|]).
  split.
  { eapply Forall_impl; [exact Hrows|]. intros [k r]. cbn [fst snd].
    intros [[_ ->]|(j & Hj & _)] Hk; [done|].
    destruct Hk. by eapply list_elem_of_lookup_2. }
  split.
  { apply groupby_agg_dropna; [|done]. by apply merge_referendum_and_areas_wf. }
  intros out Ho. unfold compute_referendum_result_by_regions, groupby_agg in Ho.
  rewrite Hr in Ho. cbn [mbind option_bind] in Ho.
  destruct (mapM _ _) in Ho; [|done]. injection Ho as <-. cbn [index].
  split; [done|]. by intros [_ ?]%elem_of_group_keys.
Qed.

End referendum_and_areas.

Lemma merge_referendum_and_areas_drops_Z_witness :
  ∃ out,
    merge_referendum_and_areas ex_referendum ex_areas = Some out
    ∧ nrows out = nrows ex_referendum - length (filter (λ k, has_Z k = true) ex_keys)
    ∧ getitem "code_dep" out = Some (filter (λ k, has_Z k = false) ex_keys)
    ∧ ∀ c col, getitem c ex_referendum = Some col →
        getitem c out = Some (mask_filter (keep_mask ex_keys) col).
Proof.
  apply (merge_referendum_and_areas_drops_Z ex_referendum ex_areas
           ex_codes ex_names ex_code_reg ex_code_dep ex_keys ex_code_dep);
    try reflexivity; by_compute.
Defined.

Lemma merge_referendum_and_areas_normalized_keys_witness :
  ∃ out deps regs,
    merge_referendum_and_areas ex_referendum ex_areas = Some out
    ∧ getitem "code_dep" out = Some deps
    ∧ getitem "code_reg" out = Some regs
    ∧ Forall2 (λ v k, ∃ s, to_str v = Some s ∧ k = VStr (zfill 2 s)
                           ∧ 2 ≤ String.length (zfill 2 s)) ex_codes ex_keys
    ∧ Forall2 (λ v k, ∃ s, to_str v = Some s ∧ k = VStr (zfill 2 s)
                           ∧ 2 ≤ String.length (zfill 2 s)) ex_code_dep ex_code_dep
    ∧ Forall (λ k, k ∈ ex_keys) deps
    ∧ Forall (λ p, ((p.1 ∉ ex_code_dep) ∧ p.2 = VNull)
                   ∨ (∃ j, ex_code_dep !! j = Some p.1 ∧ ex_code_reg !! j = Some p.2))
        (zip deps regs)
    ∧ dep_key (VStr "1") = dep_key (VStr "01").
Proof.
  apply (merge_referendum_and_areas_normalized_keys ex_referendum ex_areas
           ex_codes ex_names ex_code_reg ex_code_dep ex_keys ex_code_dep);
    try reflexivity; by_compute.
Defined.

Lemma merge_referendum_and_areas_name_dep_witness :
  ∃ out dnames,
    merge_referendum_and_areas ex_referendum ex_areas = Some out
    ∧ columns out
      = (columns ex_referendum ++ ["code_dep"; "name_dep"; "code_reg"; "name_reg"])%list
    ∧ getitem "name_dep" out = Some dnames
    ∧ getitem "Department name" out = Some dnames
    ∧ dnames = left_take (kept ex_keys) ex_code_dep (mask_filter (keep_mask ex_keys) ex_names)
    ∧ Forall (λ v, v ∈ ex_names) dnames.
Proof.
  apply (merge_referendum_and_areas_name_dep ex_referendum ex_areas
           ex_codes ex_names ex_code_reg ex_code_dep ex_keys ex_code_dep);
    try reflexivity; by_compute.
Defined.

Lemma unmatched_rows_in_no_region_witness :
  ∃ merged deps regs,
    merge_referendum_and_areas ex_referendum ex_areas = Some merged
    ∧ getitem "code_dep" merged = Some deps
    ∧ getitem "code_reg" merged = Some regs
    ∧ Forall (λ p, p.1 ∉ ex_code_dep → p.2 = VNull) (zip deps regs)
    ∧ compute_referendum_result_by_regions merged
      = (rows ← filter_rows (notna <$> regs) merged;
         compute_referendum_result_by_regions rows)
    ∧ ∀ out, compute_referendum_result_by_regions merged = Some out →
        index out = group_keys regs ∧ VNull ∉ index out.
Proof.
  apply (unmatched_rows_in_no_region ex_referendum ex_areas
           ex_codes ex_names ex_code_reg ex_code_dep ex_keys ex_code_dep);
    try reflexivity; by_compute.
Defined.

(** On the example tables: the referendum codes "1" and 75 find the area
    codes "01" and "75", the row "ZA" is dropped, the row "99" has no
    region. *)
Example merge_referendum_and_areas_example :
  (merge_referendum_and_areas ex_referendum ex_areas ≫= getitem "code_dep")
  = Some [VStr "01"; VStr "2A"; VStr "75"; VStr "99"]
  ∧ (merge_referendum_and_areas ex_referendum ex_areas ≫= getitem "code_reg")
    = Some [VStr "84"; VStr "94"; VStr "11"; VNull].
Proof. by vm_compute. Qed.


(** ** End to end *)

(** C1, as stated, fails: the row of department "971" is not removed by
    the filter of [merge_referendum_and_areas], whose test is the letter Z;
    the merged table has a row with key "971". *)
Lemma overseas_971_survives_filter :
  ∃ merged deps,
    merge_referendum_and_areas
      (c1_referendum "AIN" "GUADELOUPE" 1200 100 100 300 30 3 100 167)
      (c1_areas "Auvergne-Rhone-Alpes" "Ain") = Some merged
    ∧ has_Z (VStr "971") = false
    ∧ getitem "code_dep" merged = Some deps
    ∧ VStr "971" ∈ deps
    ∧ nrows merged = 2.
Proof.
  eexists _, _. split; [vm_compute; reflexivity|].
  split; [reflexivity|]. split; [reflexivity|]. split; [|reflexivity].
  right. left.
Qed.

(** C1, amended: whatever the other cells, the final table has one row,
    for region "84", with 600 for Choice A and 400 for Choice B.  The row of
    department "971" passes the filter (its code has no Z); the area table
    does not list it, so it leaves the merge without a region code and
    counts in no region. *)
Theorem end_to_end_region_84 n1 n2 r1 a1 u1 r2 a2 u2 ca2 cb2 rname dname :
  ∃ merged result,
    merge_referendum_and_areas
      (c1_referendum n1 n2 r1 a1 u1 r2 a2 u2 ca2 cb2) (c1_areas rname dname) = Some merged
    ∧ getitem "code_dep" merged = Some [VStr "01"; VStr "971"]
    ∧ getitem "code_reg" merged = Some [VStr "84"; VNull]
    ∧ compute_referendum_result_by_regions merged = Some result
    ∧ index result = [VStr "84"]
    ∧ getitem "Choice A" result = Some [VInt 600]
    ∧ getitem "Choice B" result = Some [VInt 400].
Proof.
  eexists _, _. split; [vm_compute; reflexivity|].
  split; [reflexivity|]. split; [reflexivity|].
  split; [vm_compute; reflexivity|].
  repeat split.
Qed.

(** ** The ratio in binary64 *)

Section binary64.
Local Open Scope Z_scope.

Lemma digits2_pos_size p : digits2_pos p = Pos.size p.
Proof. induction p as [p IH|p IH|]; simpl; by rewrite ?IH. Qed.

Lemma Zdigits2_log2 m : 0 < m → Zdigits2 m = Z.log2 m + 1.
Proof.
  destruct m as [|p|p]; try lia. intros _. cbn [Zdigits2].
  rewrite digits2_pos_size. destruct p; simpl; lia.
Qed.

(** The number of binary digits of a positive integer, from bounds. *)
Lemma Zdigits2_eq m n : 0 < n → 2 ^ (n - 1) ≤ m < 2 ^ n → Zdigits2 m = n.
Proof.
  intros Hn Hm. assert (0 < m) by (pose proof (Z.pow_pos_nonneg 2 (n - 1)); lia).
  rewrite Zdigits2_log2 by done.
  rewrite (Z.log2_unique m (n - 1)); [lia|lia|].
  by replace (Z.succ (n - 1)) with n by lia.
Qed.

Lemma Zdigits2_bounds m : 0 < m → 2 ^ (Zdigits2 m - 1) ≤ m < 2 ^ Zdigits2 m.
Proof.
  intros Hm. rewrite Zdigits2_log2 by done.
  replace (Z.log2 m + 1 - 1) with (Z.log2 m) by lia.
  replace (Z.log2 m + 1) with (Z.succ (Z.log2 m)) by lia.
  by apply Z.log2_spec.
Qed.

Lemma Zpos_iter_xO m n : Zpos (Pos.iter xO m n) = Zpos m * 2 ^ Zpos n.
Proof.
  induction n as [|n IH] using Pos.peano_ind.
  - simpl. lia.
  - rewrite Pos.iter_succ, Pos2Z.inj_succ, Z.pow_succ_r by lia.
    rewrite Pos2Z.inj_xO, IH. lia.
Qed.

Lemma loc_of_shr_record_of_loc m l : loc_of_shr_record (shr_record_of_loc m l) = l.
Proof. by destruct l as [|[]]. Qed.

Lemma shr_m_record_of_loc m l : shr_m (shr_record_of_loc m l) = m.
Proof. by destruct l as [|[]]. Qed.

(** A mantissa of 53 digits is not shifted. *)
Lemma shr_fexp_53 m e l :
  2 ^ 52 ≤ m < 2 ^ 53 → -1074 ≤ e →
  shr_fexp prec emax m e l = (shr_record_of_loc m l, e).
Proof.
  intros Hm He. unfold shr_fexp.
  rewrite (Zdigits2_eq m 53) by lia.
  unfold fexp, emin, prec, emax.
  replace (Z.max (53 + e - 53) (3 - 1024 - 53) - e) with 0 by lia. done.
Qed.

(** A mantissa of 54 digits is shifted by one place. *)
Lemma shr_fexp_54 m e l :
  2 ^ 53 ≤ m < 2 ^ 54 → -1075 ≤ e →
  shr_fexp prec emax m e l = (shr_1 (shr_record_of_loc m l), e + 1).
Proof.
  intros Hm He. unfold shr_fexp.
  rewrite (Zdigits2_eq m 54) by lia.
  unfold fexp, emin, prec, emax.
  replace (Z.max (54 + e - 53) (3 - 1024 - 53) - e) with 1 by lia. done.
Qed.

Lemma shr_m_shr_1 m r s : 0 ≤ m → shr_m (shr_1 (Build_shr_record m r s)) = m / 2.
Proof.
  intros Hm. destruct m as [|[p|p|]|]; try lia; cbn [shr_1 shr_m].
  - done.
  - apply (Z.div_unique_pos _ _ _ 1); lia.
  - apply (Z.div_unique_pos _ _ _ 0); lia.
  - done.
Qed.

Lemma round_nearest_even_bounds m l :
  m ≤ round_nearest_even m l ≤ m + 1.
Proof. destruct l as [|[]]; cbn; try lia. destruct (Z.even m); lia. Qed.

Lemma finish_round_spec m e :
  2 ^ 52 ≤ m ≤ 2 ^ 53 → -1074 ≤ e ≤ 900 →
  ∃ mf ef, finish_round m e = S754_finite false mf ef
    ∧ ((m < 2 ^ 53 ∧ Zpos mf = m ∧ ef = e)
       ∨ (m = 2 ^ 53 ∧ Zpos mf = 2 ^ 52 ∧ ef = e + 1)).
Proof.
  intros Hm He. unfold finish_round.
  destruct (decide (m < 2 ^ 53)) as [Hlt|Hge].
  - rewrite shr_fexp_53 by lia. cbn [shr_record_of_loc shr_m].
    destruct m as [|p|p]; try lia.
    unfold emax, prec. rewrite (proj2 (Z.leb_le _ _)) by lia.
    exists p, e. split; [done|]. left. lia.
  - assert (m = 2 ^ 53) as -> by lia.
    rewrite shr_fexp_54 by lia.
    change (shr_m (shr_1 (shr_record_of_loc (2 ^ 53) loc_Exact))) with (Zpos (2 ^ 52)).
    unfold emax, prec. rewrite (proj2 (Z.leb_le _ _)) by lia.
    exists (2 ^ 52)%positive, (e + 1). split; [done|]. right. lia.
Qed.

Lemma binary_round_aux_53 q e l :
  2 ^ 52 ≤ q < 2 ^ 53 → -1074 ≤ e →
  binary_round_aux prec emax false q e l = finish_round (round_nearest_even q l) e.
Proof.
  intros Hq He. unfold binary_round_aux, finish_round.
  rewrite (shr_fexp_53 q e l) by lia.
  by rewrite shr_m_record_of_loc, loc_of_shr_record_of_loc.
Qed.

Lemma binary_round_aux_54 q e l :
  2 ^ 53 ≤ q < 2 ^ 54 → -1075 ≤ e →
  binary_round_aux prec emax false q e l
  = finish_round
      (round_nearest_even (q / 2) (loc_of_shr_record (shr_1 (shr_record_of_loc q l))))
      (e + 1).
Proof.
  intros Hq He. unfold binary_round_aux, finish_round.
  rewrite (shr_fexp_54 q e l) by lia.
  replace (shr_m (shr_1 (shr_record_of_loc q l))) with (q / 2); [done|].
  destruct l as [|[]]; cbn [shr_record_of_loc]; by rewrite shr_m_shr_1 by lia.
Qed.

(** The result of rounding a quotient with 53 or 54 digits: a normal
    number whose exponent is that of the quotient, or one or two more. *)
Lemma binary_round_aux_normal q e l :
  2 ^ 52 ≤ q < 2 ^ 54 → -1074 ≤ e ≤ 800 →
  ∃ mf ef, binary_round_aux prec emax false q e l = S754_finite false mf ef
    ∧ 2 ^ 52 ≤ Zpos mf < 2 ^ 53
    ∧ (q < 2 ^ 53 → ef = e ∨ (ef = e + 1 ∧ Zpos mf = 2 ^ 52))
    ∧ (2 ^ 53 ≤ q → ef = e + 1 ∨ (ef = e + 2 ∧ Zpos mf = 2 ^ 52))
    ∧ (q = 2 ^ 53 → l = loc_Exact → ef = e + 1 ∧ Zpos mf = 2 ^ 52).
Proof.
  intros Hq He. destruct (decide (q < 2 ^ 53)) as [Hlt|Hge].
  - rewrite binary_round_aux_53 by lia.
    pose proof (round_nearest_even_bounds q l) as Hr.
    destruct (finish_round_spec (round_nearest_even q l) e) as (mf & ef & -> & Hf);
      [lia|lia|].
    exists mf, ef. split; [done|]. split; [lia|]. split; [|lia]. intros _. lia.
  - rewrite binary_round_aux_54 by lia.
    set (l' := loc_of_shr_record (shr_1 (shr_record_of_loc q l))).
    pose proof (round_nearest_even_bounds (q / 2) l') as Hr.
    assert (Hq2 : 2 ^ 52 ≤ q / 2 < 2 ^ 53).
    { split; [apply Z.div_le_lower_bound; lia|apply Z.div_lt_upper_bound; lia]. }
    destruct (finish_round_spec (round_nearest_even (q / 2) l') (e + 1))
      as (mf & ef & -> & Hf); [lia|lia|].
    exists mf, ef. split; [done|]. split; [lia|]. split; [lia|].
    split; [intros _; lia|].
    intros -> ->. subst l'.
    change (round_nearest_even (2 ^ 53 / 2)
              (loc_of_shr_record (shr_1 (shr_record_of_loc (2 ^ 53) loc_Exact))))
      with (2 ^ 52) in Hf. lia.
Qed.

Lemma Z_div_eucl_div_mod a b : Z.div_eucl a b = (a / b, a mod b).
Proof. unfold Z.div, Z.modulo. by destruct (Z.div_eucl a b). Qed.

(** The quotient of two normal mantissas, before rounding. *)
Lemma SFdiv_core_binary_normal mx ex my ey :
  2 ^ 52 ≤ mx < 2 ^ 53 → 2 ^ 52 ≤ my < 2 ^ 53 → -900 ≤ ex - ey ≤ 900 →
  SFdiv_core_binary prec emax mx ex my ey
  = (mx * 2 ^ 53 / my, ex - ey - 53, new_location my (mx * 2 ^ 53 mod my)).
Proof.
  intros Hx Hy He. unfold SFdiv_core_binary.
  rewrite (Zdigits2_eq mx 53), (Zdigits2_eq my 53) by lia.
  unfold fexp, emin, prec, emax.
  replace (Z.min (Z.max (53 + ex - (53 + ey) - 53) (3 - 1024 - 53)) (ex - ey))
    with (ex - ey - 53) by lia.
  replace (ex - ey - (ex - ey - 53)) with 53 by lia.
  rewrite Z.shiftl_mul_pow2 by lia. by rewrite Z_div_eucl_div_mod.
Qed.

Lemma new_location_0 n : new_location n 0 = loc_Exact.
Proof. unfold new_location. by destruct (Z.even n). Qed.

Lemma float_one_eq : float_one = S754_finite false 4503599627370496 (-52).
Proof. by vm_compute. Qed.

Lemma SFleb_one mf ef :
  ef < -52 ∨ (ef = -52 ∧ Zpos mf ≤ 2 ^ 52) →
  SFleb (S754_finite false mf ef) float_one = true.
Proof.
  intros H. rewrite float_one_eq. unfold SFleb, SFcompare.
  destruct (Z.compare_spec ef (-52)) as [->|?|?]; [|done|lia].
  destruct H as [?|[_ H]]; [lia|].
  rewrite Pos.compare_cont_spec.
  destruct (Pos.compare_spec mf 4503599627370496); try done. lia.
Qed.

(** The quotient of two normal numbers [x ≤ y] is a normal number at
    most one. *)
Lemma SFdiv_le_one mx ex my ey :
  2 ^ 52 ≤ Zpos mx < 2 ^ 53 → 2 ^ 52 ≤ Zpos my < 2 ^ 53 →
  -100 ≤ ex ≤ ey → ey ≤ 100 → (ex = ey → Zpos mx ≤ Zpos my) →
  ∃ mf ef,
    SFdiv prec emax (S754_finite false mx ex) (S754_finite false my ey)
    = S754_finite false mf ef
    ∧ (ef < -52 ∨ (ef = -52 ∧ Zpos mf ≤ 2 ^ 52)).
Proof.
  intros Hx Hy He1 He2 Hle. unfold SFdiv.
  rewrite SFdiv_core_binary_normal by lia. cbn [xorb].
  set (q := Zpos mx * 2 ^ 53 / Zpos my).
  set (r := Zpos mx * 2 ^ 53 mod Zpos my).
  assert (Hdm : Zpos mx * 2 ^ 53 = Zpos my * q + r ∧ 0 ≤ r < Zpos my).
  { split; [apply Z.div_mod; lia|apply Z.mod_pos_bound; lia]. }
  assert (Hq : 2 ^ 52 ≤ q < 2 ^ 54).
  { split; [apply Z.div_le_lower_bound; lia|apply Z.div_lt_upper_bound; lia]. }
  assert (Hq' : ex = ey → q ≤ 2 ^ 53).
  { intros E. specialize (Hle E). apply Z.div_le_upper_bound; lia. }
  clearbody q r.
  destruct (binary_round_aux_normal q (ex - ey - 53) (new_location (Zpos my) r))
    as (mf & ef & -> & Hmf & H53 & H54 & Hex); [done|lia|].
  exists mf, ef. split; [done|].
  destruct (decide (q < 2 ^ 53)) as [Hlt|Hge].
  { destruct (H53 Hlt) as [?|[? ?]]; lia. }
  destruct (decide (ex = ey)) as [E|Hne].
  - specialize (Hle E). specialize (Hq' E).
    assert (q = 2 ^ 53) as Eq by lia. subst q.
    assert (r = 0) as -> by lia.
    destruct (Hex eq_refl (new_location_0 _)) as [? ?]. lia.
  - destruct (H54 ltac:(lia)) as [?|[? ?]]; lia.
Qed.

(** An integer with at most 53 digits is a float: its mantissa is the
    integer shifted to 53 digits. *)
Lemma of_Z_normal z :
  0 < z < 2 ^ 53 →
  ∃ mz ez, of_Z z = S754_finite false mz ez
    ∧ 2 ^ 52 ≤ Zpos mz < 2 ^ 53
    ∧ ez = Zdigits2 z - 53
    ∧ Zpos mz = z * 2 ^ (53 - Zdigits2 z)
    ∧ 1 ≤ Zdigits2 z ≤ 53.
Proof.
  intros Hz. destruct z as [|p|p]; try lia.
  pose proof (Zdigits2_bounds (Zpos p) ltac:(lia)) as Hd.
  assert (Hd53 : 1 ≤ Zdigits2 (Zpos p) ≤ 53).
  { split.
    - cbn [Zdigits2]. lia.
    - destruct (decide (Zdigits2 (Zpos p) ≤ 53)) as [|Hgt]; [done|].
      assert (2 ^ 53 ≤ 2 ^ (Zdigits2 (Zpos p) - 1)) by (apply Z.pow_le_mono_r; lia).
      lia. }
  set (n := Zdigits2 (Zpos p)) in *.
  assert (Hsh : ∃ mz, shl_align p 0 (fexp prec emax (Zpos (digits2_pos p) + 0))
                      = (mz, n - 53) ∧ Zpos mz = Zpos p * 2 ^ (53 - n)).
  { change (Zpos (digits2_pos p)) with n. unfold fexp, emin, prec, emax, shl_align.
    replace (Z.max (n + 0 - 53) (3 - 1024 - 53) - 0) with (n - 53) by lia.
    replace (Z.max (n + 0 - 53) (3 - 1024 - 53)) with (n - 53) by lia.
    destruct (n - 53) as [|k|k] eqn:E; try lia.
    - exists p. split; [done|]. replace (53 - n) with 0 by lia. lia.
    - exists (Pos.iter xO p k). split; [done|].
      rewrite Zpos_iter_xO. f_equal. f_equal. lia. }
  destruct Hsh as (mz & Hsh & Hmz).
  assert (Hn : 2 ^ 52 ≤ Zpos mz < 2 ^ 53).
  { rewrite Hmz.
    replace (2 ^ 52) with (2 ^ (n - 1) * 2 ^ (53 - n))
      by (rewrite <- Z.pow_add_r by lia; f_equal; lia).
    replace (2 ^ 53) with (2 ^ n * 2 ^ (53 - n))
      by (rewrite <- Z.pow_add_r by lia; f_equal; lia).
    assert (0 < 2 ^ (53 - n)) by (apply Z.pow_pos_nonneg; lia).
    split; [apply Z.mul_le_mono_nonneg_r; lia|apply Z.mul_lt_mono_pos_r; lia]. }
  unfold of_Z, binary_normalize, binary_round. rewrite Hsh.
  rewrite binary_round_aux_53 by lia. cbn [round_nearest_even].
  destruct (finish_round_spec (Zpos mz) (n - 53)) as (mf & ef & -> & Hf); [lia|lia|].
  exists mf, ef. split; [done|]. lia.
Qed.

Lemma SFleb_zero_finite m e : SFleb float_zero (S754_finite false m e) = true.
Proof. done. Qed.

(** The ratio of two counts, not both zero and with fewer than 2^53
    votes in all: the quotient of the two floats, between 0 and 1. *)
Lemma ratio_cell_bounds a b :
  0 ≤ a → 0 ≤ b → 0 < a + b < 2 ^ 53 →
  ∃ f, ratio_cell (VInt a) (VInt b) = Some (VFloat f)
    ∧ f = SFdiv prec emax (of_Z a) (of_Z (a + b))
    ∧ SFleb float_zero f = true
    ∧ SFleb f float_one = true.
Proof.
  intros Ha Hb Hs.
  destruct (of_Z_normal (a + b) Hs) as (my & ey & Ey & Hmy & Hey & Hvy & Hds).
  unfold ratio_cell, add_cell, div_cell, to_float. step.
  destruct (decide (a = 0)) as [->|Hne].
  { exists (S754_zero false). rewrite Ey. by vm_compute. }
  destruct (of_Z_normal a ltac:(lia)) as (mx & ex & Ex & Hmx & Hex & Hvx & _).
  assert (Hda : 1 ≤ Zdigits2 a ≤ Zdigits2 (a + b)).
  { rewrite !Zdigits2_log2 by lia. split; [pose proof (Z.log2_nonneg a); lia|].
    pose proof (Z.log2_le_mono a (a + b)). lia. }
  destruct (SFdiv_le_one mx ex my ey) as (mf & ef & Ef & Hf); try lia.
  { intros E. assert (Zdigits2 a = Zdigits2 (a + b)) as En by lia.
    rewrite Hvx, Hvy, En. apply Z.mul_le_mono_nonneg_r; [|lia].
    apply Z.pow_nonneg. lia. }
  rewrite Ex, Ey, Ef. cbn [of_float].
  exists (S754_finite false mf ef). split; [done|]. split; [done|].
  split; [done|]. by apply SFleb_one.
Qed.

Lemma ratio_cell_zero : ratio_cell (VInt 0) (VInt 0) = Some VNull.
Proof. by vm_compute. Qed.

End binary64.

(** ** The map *)

Lemma add_cell_numeric a b :
  numeric a = true → numeric b = true →
  ∃ t, add_cell a b = Some t ∧ numeric t = true.
Proof.
  destruct a, b; try done; intros _ _; cbn; eauto;
    match goal with |- context [of_float ?f] => by destruct f; eauto end.
Qed.

Lemma div_cell_numeric a b :
  numeric a = true → numeric b = true →
  ∃ t, div_cell a b = Some t ∧ numeric t = true.
Proof.
  destruct a, b; try done; intros _ _; cbn; eauto;
    match goal with |- context [of_float ?f] => by destruct f; eauto end.
Qed.

Lemma ratio_cell_numeric a b :
  numeric a = true → numeric b = true → is_Some (ratio_cell a b).
Proof.
  intros Ha Hb. unfold ratio_cell.
  destruct (add_cell_numeric a b Ha Hb) as (t & -> & Ht). step.
  destruct (div_cell_numeric a t Ha Ht) as (r & -> & _). eauto.
Qed.

Lemma ratio_cell_null_l b : ratio_cell VNull b = Some VNull.
Proof. done. Qed.

(** The ratio column, cell by cell. *)
Lemma series_ratio a b :
  length a = length b →
  Forall (λ v, numeric v = true) a → Forall (λ v, numeric v = true) b →
  ∃ ratio,
    (total ← series_add a b; series_div a total) = Some ratio
    ∧ length ratio = length a
    ∧ ∀ i x y, a !! i = Some x → b !! i = Some y →
        ∃ r, ratio !! i = Some r ∧ ratio_cell x y = Some r.
Proof.
  intros Hl Ha Hb.
  assert (H : ∃ total ratio,
    Forall2 (λ p t, add_cell p.1 p.2 = Some t) (zip a b) total
    ∧ Forall2 (λ p r, div_cell p.1 p.2 = Some r) (zip a total) ratio).
  { revert b Hl Hb. induction Ha as [|x a Hx Ha IH]; intros [|y b] Hl Hb; try done.
    - exists [], []. split; constructor.
    - apply Forall_cons in Hb as [Hy Hb].
      destruct (IH b) as (total & ratio & H1 & H2); [simpl in Hl; congruence|done|].
      destruct (add_cell_numeric x y Hx Hy) as (t & Ht & Hn).
      destruct (div_cell_numeric x t Hx Hn) as (r & Hr & _).
      exists (t :: total), (r :: ratio). split; by constructor. }
  destruct H as (total & ratio & H1 & H2).
  assert (L1 : length total = length a).
  { apply Forall2_length in H1. rewrite length_zip in H1. lia. }
  assert (L2 : length ratio = length a).
  { apply Forall2_length in H2. rewrite length_zip in H2. lia. }
  exists ratio. split.
  { unfold series_add, series_div, series_op.
    rewrite bool_decide_eq_true_2 by done.
    apply mapM_Some in H1. rewrite H1. step.
    rewrite bool_decide_eq_true_2 by done. by apply mapM_Some. }
  split; [done|].
  intros i x y Hx Hy.
  destruct (lookup_lt_is_Some_2 total i) as [t Ht].
  { rewrite L1. by eapply lookup_lt_Some. }
  destruct (lookup_lt_is_Some_2 ratio i) as [r Hr].
  { rewrite L2. by eapply lookup_lt_Some. }
  exists r. split; [done|]. unfold ratio_cell.
  assert (Hz : zip a b !! i = Some (x, y)) by (by apply lookup_zip_with_Some; eauto 6).
  assert (Hz' : zip a total !! i = Some (x, t)) by (by apply lookup_zip_with_Some; eauto 6).
  pose proof (Forall2_lookup_lr _ _ _ _ _ _ H1 Hz Ht) as E1.
  pose proof (Forall2_lookup_lr _ _ _ _ _ _ H2 Hz' Hr) as E2.
  cbn [fst snd] in E1, E2. by rewrite E1.
Qed.

Lemma getitem_cons_ne c c' col n i d :
  c' ≠ c → getitem c (mkDF n i ((c', col) :: d)) = getitem c (mkDF n i d).
Proof. intros H. unfold getitem, named. cbn [data]. by rewrite filter_cons_False. Qed.

Lemma getitem_cons_eq c col n i d :
  Forall (λ p, p.1 ≠ c) d → getitem c (mkDF n i ((c, col) :: d)) = Some col.
Proof.
  intros H. unfold getitem, named. cbn [data].
  by rewrite filter_cons_True, filter_none.
Qed.

Lemma suffixed_data_id sfx other (g : list value → list value) d :
  Forall (λ c, c ∉ other) d.*1 →
  prod_map (suffixed sfx other) g <$> d = prod_map id g <$> d.
Proof.
  intros H. apply fmap_relabel_id. rewrite Forall_fmap in H.
  eapply Forall_impl; [exact H|]. intros [c col] Hc. by apply suffixed_absent.
Qed.

Section the_map.
Variables geo results : DataFrame.
Variables gcodes a b : list value.
Hypothesis Hwg : wf geo.
Hypothesis Hwr : wf results.
Hypothesis Hcode : getitem "code" geo = Some gcodes.
Hypothesis Hname : index_name results = Some "code_reg".
Hypothesis Hfresh :
  Forall (λ c, c ∉ columns geo) ("code_reg" :: "ratio" :: columns results).
Hypothesis Hreg : "code_reg" ∉ columns results.
Hypothesis Hratio : "ratio" ∉ columns results.
Hypothesis Ha : getitem "Choice A" results = Some a.
Hypothesis Hb : getitem "Choice B" results = Some b.
Hypothesis Hna : Forall (λ v, numeric v = true) a.
Hypothesis Hnb : Forall (λ v, numeric v = true) b.

Local Abbreviation rcodes := (index results).

Lemma numeric_right_take col :
  Forall (λ v, numeric v = true) col →
  Forall (λ v, numeric v = true) (right_take gcodes rcodes col).
Proof using Type.
  intros Hc. unfold right_take. rewrite Forall_forall.
  intros x (k & Hx & _)%list_elem_of_bind.
  destruct (cells_at k rcodes col) as [|v cs] eqn:E.
  - by apply list_elem_of_singleton in Hx as ->.
  - rewrite <- E in Hx. rewrite Forall_forall in Hc.
    eapply Hc, elem_of_cells_at_col, Hx.
Qed.

(** The table the script returns, column by column. *)
Lemma plot_referendum_map_data :
  ∃ ratio,
    plot_referendum_map geo results =
      Some (mkDF None (range_index (length (left_take gcodes rcodes gcodes)))
              ((prod_map id (left_take gcodes rcodes) <$> data geo) ++
               (prod_map id (right_take gcodes rcodes) <$> (("code_reg", rcodes) :: data results)) ++
               [("ratio", ratio)]))
    ∧ length ratio = length (left_take gcodes rcodes gcodes)
    ∧ ∀ i x y,
        right_take gcodes rcodes a !! i = Some x →
        right_take gcodes rcodes b !! i = Some y →
        ∃ r, ratio !! i = Some r ∧ ratio_cell x y = Some r.
Proof using All.
  apply Forall_cons in Hfresh as [F1 F2]. apply Forall_cons in F2 as [F2 F3].
  assert (La : length a = length rcodes) by (by eapply getitem_length).
  assert (Lb : length b = length rcodes) by (by eapply getitem_length).
  destruct (series_ratio (right_take gcodes rcodes a) (right_take gcodes rcodes b))
    as (ratio & Hr & Lr & Hcells).
  { by rewrite !length_right_take. }
  { by apply numeric_right_take. }
  { by apply numeric_right_take. }
  rewrite length_right_take in Lr by done.
  exists ratio. split; [|done].
  unfold plot_referendum_map, reset_index. rewrite Hname.
  rewrite bool_decide_eq_false_2 by done. step.
  unfold merge_left. rewrite Hcode. step.
  rewrite getitem_cons_eq by (by apply not_in_columns). step.
  rewrite bool_decide_eq_false_2 by done. cbn [data].
  change (columns (mkDF None (range_index (nrows results)) (("code_reg", rcodes) :: data results)))
    with ("code_reg" :: columns results).
  assert (G1 : Forall (λ c, c ∉ "code_reg" :: columns results) (columns geo)).
  { rewrite Forall_forall. intros c Hc [->|Hin]%elem_of_cons; [done|].
    rewrite Forall_forall in F3. by apply (F3 c). }
  assert (G2 : Forall (λ c, c ∉ columns geo) ("code_reg" :: columns results)).
  { by constructor. }
  change ((("code_reg", rcodes) :: data results).*1) with ("code_reg" :: columns results).
  rewrite !suffixed_fmap_id, !suffix_dups_same by done. cbn [orb].
  rewrite !suffixed_data_id by done. step.
  set (G := prod_map id (left_take gcodes rcodes) <$> data geo).
  set (R := prod_map id (right_take gcodes rcodes) <$> (("code_reg", rcodes) :: data results)).
  assert (HG : ∀ c, c ∈ columns results → Forall (λ p, p.1 ≠ c) G).
  { intros c Hc. subst G. rewrite Forall_fmap.
    apply not_in_columns. rewrite Forall_forall in F3. by apply F3. }
  assert (HR : ∀ c col, getitem c results = Some col → ∀ n i,
            getitem c (mkDF n i (G ++ R)) = Some (right_take gcodes rcodes col)).
  { intros c col Hc n i. rewrite getitem_app_tail
      by (eapply HG, getitem_in_columns, Hc).
    subst R. rewrite fmap_cons. cbn [prod_map fst snd id].
    rewrite getitem_cons_ne.
    - by apply getitem_fmap_id.
    - intros <-. by apply Hreg, (getitem_in_columns _ _ _ Hc). }
  rewrite (HR _ _ Ha), (HR _ _ Hb). step.
  destruct (series_add _ _) as [total|]; [|done].
  cbn [mbind option_bind] in Hr |- *. rewrite Hr. step.
  rewrite setitem_new.
  - cbn [index_name index data]. step. rewrite getitem_app_new.
    + step. by rewrite <- app_assoc.
    + apply Forall_app. split.
      * subst G. rewrite Forall_fmap. by apply not_in_columns.
      * subst R. rewrite Forall_fmap. constructor; [cbn; by intros [=]|].
        by apply not_in_columns.
  - unfold columns. cbn [data]. rewrite fmap_app. subst G R.
    rewrite !fst_prod_map, !list_fmap_id.
    intros [Hin|Hin]%elem_of_app; [done|].
    apply elem_of_cons in Hin as [?|?]; done.
  - unfold nrows. cbn [index]. by rewrite length_range_index.
Qed.

Lemma plot_referendum_map_geo out c col :
  plot_referendum_map geo results = Some out →
  getitem c geo = Some col →
  getitem c out = Some (left_take gcodes rcodes col).
Proof using All.
  destruct plot_referendum_map_data as (ratio & Hd & _). intros Ho Hc.
  rewrite Hd in Ho. apply (inj Some) in Ho. subst out.
  assert (Hin := getitem_in_columns _ _ _ Hc).
  apply Forall_cons in Hfresh as [F1 F2]. apply Forall_cons in F2 as [F2 F3].
  rewrite getitem_app_old; [by apply getitem_fmap_id|].
  apply Forall_app. split.
  - rewrite Forall_fmap. constructor; [cbn; by intros <-|].
    rewrite Forall_forall. intros [c' col'] Hp Heq. cbn in Heq. subst c'.
    apply (list_elem_of_fmap_2 fst) in Hp. cbn in Hp.
    rewrite Forall_forall in F3. by apply (F3 c).
  - repeat constructor. cbn. by intros <-.
Qed.

Lemma plot_referendum_map_results out :
  plot_referendum_map geo results = Some out →
  getitem "code_reg" out = Some (right_take gcodes rcodes rcodes)
  ∧ ∀ c col, getitem c results = Some col →
      getitem c out = Some (right_take gcodes rcodes col).
Proof using All.
  destruct plot_referendum_map_data as (ratio & Hd & _). intros Ho.
  rewrite Hd in Ho. apply (inj Some) in Ho. subst out.
  apply Forall_cons in Hfresh as [F1 F2]. apply Forall_cons in F2 as [F2 F3].
  assert (HG : ∀ c, c ∉ columns geo →
            Forall (λ p : string * list value, p.1 ≠ c)
              (prod_map id (left_take gcodes rcodes) <$> data geo)).
  { intros c Hc. rewrite Forall_fmap. by apply not_in_columns. }
  split.
  - rewrite getitem_app_tail by by apply HG.
    rewrite getitem_app_old by (repeat constructor; cbn; by intros [=]).
    rewrite fmap_cons. apply getitem_cons_eq.
    rewrite Forall_fmap. by apply not_in_columns.
  - intros c col Hc. assert (Hin := getitem_in_columns _ _ _ Hc).
    rewrite getitem_app_tail by (apply HG; rewrite Forall_forall in F3; by apply F3).
    rewrite getitem_app_old by (repeat constructor; cbn; by intros <-).
    rewrite fmap_cons. cbn [prod_map fst snd].
    rewrite getitem_cons_ne by (unfold id; by intros <-).
    by apply getitem_fmap_id.
Qed.

Lemma plot_referendum_map_ratio out :
  plot_referendum_map geo results = Some out →
  ∃ ratio,
    getitem "ratio" out = Some ratio
    ∧ ∀ i x y, cell "Choice A" i out = Some x → cell "Choice B" i out = Some y →
        ∃ r, ratio !! i = Some r ∧ ratio_cell x y = Some r.
Proof using All.
  intros Ho. destruct (plot_referendum_map_results _ Ho) as [_ Hres].
  pose proof (Hres _ _ Ha) as Ha'. pose proof (Hres _ _ Hb) as Hb'.
  destruct plot_referendum_map_data as (ratio & Hd & _ & Hcells).
  rewrite Hd in Ho. apply (inj Some) in Ho. subst out.
  apply Forall_cons in Hfresh as [F1 F2]. apply Forall_cons in F2 as [F2 F3].
  exists ratio. split.
  - rewrite app_assoc. apply getitem_app_new. apply Forall_app. split.
    + rewrite Forall_fmap. by apply not_in_columns.
    + rewrite Forall_fmap. constructor; [cbn; by intros [=]|].
      by apply not_in_columns.
  - unfold cell. rewrite Ha', Hb'. cbn [mbind option_bind]. apply Hcells.
Qed.



End the_map.




(** The ratios of the example: 600 / 1000 is the float nearest to 0.6,
    [5404319552844595 * 2^-53]; the region without a result and the region
    without a vote have no ratio. *)
Example plot_referendum_map_example :
  (plot_referendum_map ex_geo ex_results ≫= getitem "ratio")
  = Some [VFloat (S754_finite false 5404319552844595 (-53)); VNull; VNull].
Proof. by vm_compute. Qed.


(** ** The store *)

Section store.
Import Store.
Variables (base : list DataFrame).

Lemma load_old new figs r df :
  base !! r = Some df →
  load r (mkState (base ++ new) figs) = Some (df, mkState (base ++ new) figs).
Proof using Type. intros H. unfold load. cbn [objects]. by rewrite (lookup_app_l_Some _ _ _ _ H). Qed.

Lemma load_new new figs i :
  load (length base + i) (mkState (base ++ new) figs)
  = (λ df, (df, mkState (base ++ new) figs)) <$> new !! i.
Proof using Type.
  unfold load. cbn [objects]. rewrite lookup_app_r by lia.
  by replace (length base + i - length base) with i by lia.
Qed.

Lemma new_app new figs df :
  Store.new df (mkState (base ++ new) figs)
  = Some (length base + length new, mkState (base ++ (new ++ [df])) figs).
Proof using Type. unfold Store.new. cbn [objects figures]. by rewrite length_app, app_assoc. Qed.

Lemma store_new new figs i df :
  i < length new →
  store (length base + i) df (mkState (base ++ new) figs)
  = Some ((), mkState (base ++ <[i:=df]> new) figs).
Proof using Type.
  intros Hi. unfold store. cbn [objects figures].
  rewrite bool_decide_eq_true_2 by (rewrite length_app; lia).
  rewrite insert_app_r_alt by lia.
  by replace (length base + i - length base) with i by lia.
Qed.

Lemma returns_new_app figs new figs' k out :
  new !! k = Some out →
  returns_new (mkState base figs)
    (Some (length base + k, mkState (base ++ new) figs')) (Some out).
Proof using Type.
  intros Hk. unfold returns_new. cbn [objects]. split; [lia|]. split.
  - rewrite lookup_app_r by lia.
    by replace (length base + k - length base) with k by lia.
  - split; [eauto|]. intros l df Hl. by apply lookup_app_l_Some.
Qed.

End store.

(** One step of a run: the binds of the program and of the function on
    tables are opened together. *)
Ltac run_step :=
  match goal with
  | |- context [Store.load (length ?b + ?i) (Store.mkState (?b ++ ?n) ?f)] =>
      rewrite (load_new b n f i); cbn [lookup list_lookup fmap option_fmap option_map]
  | |- context [Store.new ?df (Store.mkState (?b ++ ?n) ?f)] =>
      rewrite (new_app b n f df); cbn [app length]
  | |- context [Store.store (length ?b + ?i) ?df (Store.mkState (?b ++ ?n) ?f)] =>
      rewrite (store_new b n f i df) by (cbn [length]; lia);
      cbn [insert list_insert]
  end.

Ltac run_pure :=
  match goal with
  | |- context [@fmap option _ _ _ _ ?o] =>
      destruct o; cbn [fmap option_fmap option_map option_bind]; [|done]
  end.

Ltac run_unfold :=
  unfold Store.read_csv, Store.df_copy, Store.df_getitem, Store.df_setitem, Store.df_rename,
    Store.df_select, Store.df_drop, Store.df_filter_rows, Store.df_merge_left,
    Store.df_groupby_agg, Store.df_reset_index, Store.read_file, Store.df_plot,
    Store.draw, copy;
  unfold mbind, Store.M_bind, Store.lift, mret, Store.M_ret.

Ltac run :=
  repeat first
    [ run_step
    | match goal with
      | H : ?b !! ?r = Some ?df |- context [Store.load ?r (Store.mkState (?b ++ ?n) ?f)] =>
          rewrite (load_old b n f r df H)
      end
    | run_pure ].

Lemma compute_referendum_result_by_regions_store s r df :
  Store.objects s !! r = Some df →
  returns_new s (Store.compute_referendum_result_by_regions r s)
    (compute_referendum_result_by_regions df).
Proof.
  intros Hr. destruct s as [base figs]. cbn [Store.objects] in Hr.
  rewrite <- (app_nil_r base) at 2.
  unfold Store.compute_referendum_result_by_regions, Store.df_groupby_agg.
  unfold mbind, Store.M_bind.
  rewrite (load_old _ _ _ _ _ Hr).
  fold (compute_referendum_result_by_regions df).
  unfold Store.lift.
  destruct (compute_referendum_result_by_regions df) as [out|]; [|done].
  cbn [fmap option_fmap option_map]. run_step.
  by apply returns_new_app.
Qed.

Lemma merge_regions_and_departments_store s r1 r2 df1 df2 :
  Store.objects s !! r1 = Some df1 →
  Store.objects s !! r2 = Some df2 →
  returns_new s (Store.merge_regions_and_departments r1 r2 s)
    (merge_regions_and_departments df1 df2).
Proof.
  intros H1 H2. destruct s as [base figs]. cbn [Store.objects] in H1, H2.
  rewrite <- (app_nil_r base) at 2.
  unfold Store.merge_regions_and_departments, merge_regions_and_departments.
  run_unfold. run. by apply returns_new_app.
Qed.

Lemma merge_referendum_and_areas_store s r1 r2 df1 df2 :
  Store.objects s !! r1 = Some df1 →
  Store.objects s !! r2 = Some df2 →
  returns_new s (Store.merge_referendum_and_areas r1 r2 s)
    (merge_referendum_and_areas df1 df2).
Proof.
  intros H1 H2. destruct s as [base figs]. cbn [Store.objects] in H1, H2.
  rewrite <- (app_nil_r base) at 2.
  unfold Store.merge_referendum_and_areas, merge_referendum_and_areas.
  run_unfold. run. by apply returns_new_app.
Qed.

Lemma plot_referendum_map_store s geojson r df :
  Store.objects s !! r = Some df →
  returns_new s (Store.plot_referendum_map geojson r s)
    (plot_referendum_map geojson df).
Proof.
  intros H1. destruct s as [base figs]. cbn [Store.objects] in H1.
  rewrite <- (app_nil_r base) at 2.
  unfold Store.plot_referendum_map, plot_referendum_map.
  run_unfold. run. cbn [Store.objects Store.figures].
  by apply returns_new_app.
Qed.

(** C9: each of the four functions, run on tables of a store, returns a
    new object that holds the table computed from the arguments, and every
    object the store had before the call, the arguments among them, holds
    the table it held.  The function fails exactly when the computation on
    tables fails, and then returns nothing. *)
Theorem stages_leave_their_arguments s r1 r2 df1 df2 geojson :
  Store.objects s !! r1 = Some df1 →
  Store.objects s !! r2 = Some df2 →
  returns_new s (Store.merge_regions_and_departments r1 r2 s)
    (merge_regions_and_departments df1 df2)
  ∧ returns_new s (Store.merge_referendum_and_areas r1 r2 s)
      (merge_referendum_and_areas df1 df2)
  ∧ returns_new s (Store.compute_referendum_result_by_regions r1 s)
      (compute_referendum_result_by_regions df1)
  ∧ returns_new s (Store.plot_referendum_map geojson r1 s)
      (plot_referendum_map geojson df1).
Proof.
  intros H1 H2. split; [by apply merge_regions_and_departments_store|].
  split; [by apply merge_referendum_and_areas_store|].
  split; [by apply compute_referendum_result_by_regions_store|].
  by apply plot_referendum_map_store.
Qed.

Lemma stages_leave_their_arguments_witness :
  returns_new ex_store (Store.merge_regions_and_departments 2 3 ex_store)
    (merge_regions_and_departments ex_referendum ex_areas)
  ∧ returns_new ex_store (Store.merge_referendum_and_areas 2 3 ex_store)
      (merge_referendum_and_areas ex_referendum ex_areas)
  ∧ returns_new ex_store (Store.compute_referendum_result_by_regions 2 ex_store)
      (compute_referendum_result_by_regions ex_referendum)
  ∧ returns_new ex_store (Store.plot_referendum_map ex_geo 2 ex_store)
      (plot_referendum_map ex_geo ex_referendum).
Proof.
  apply (stages_leave_their_arguments ex_store 2 3 ex_referendum ex_areas ex_geo);
    reflexivity.
Defined.

(** A run on the example store: the merge of the referendum table (object
    2) and the area table (object 3) returns object 11 and leaves the six
    objects of the store as they were, although it has written columns into
    its two copies (objects 6 and 7). *)
Example merge_referendum_and_areas_store_example :
  ∃ s',
    Store.merge_referendum_and_areas 2 3 ex_store = Some (11, s')
    ∧ take 6 (Store.objects s') = Store.objects ex_store
    ∧ Store.objects s' !! 11 = merge_referendum_and_areas ex_referendum ex_areas
    ∧ (columns <$> Store.objects s' !! 6)
      = Some (columns ex_referendum ++ ["code_dep"; "name_dep"])%list.
Proof. eexists. split; [vm_compute; reflexivity|]. by vm_compute. Qed.

(** The whole script on the example files: the run of the program on
    the store returns the table that the functions on tables compute, with
    one row per region outline. *)
Example main_example :
  ∃ r s' out,
    Store.main ex_referendum ex_regions_csv ex_departments_csv ex_geo (Store.mkState [] [])
    = Some (r, s')
    ∧ Store.objects s' !! r = Some out
    ∧ main ex_referendum ex_regions_csv ex_departments_csv ex_geo = Some out
    ∧ getitem "code" out = Some [VStr "84"; VStr "11"; VStr "94"]
    ∧ getitem "Choice A" out = Some [VInt 600; VInt 1500; VInt 250]
    ∧ getitem "Choice B" out = Some [VInt 400; VInt 2000; VInt 400]
    ∧ length (Store.figures s') = 1.
Proof. eexists _, _, _. split; [vm_compute; reflexivity|]. by vm_compute. Qed.


(** ** What the functions need of their arguments *)

Lemma columns_rename m df : columns (rename m df) = rename_label m <$> columns df.
Proof. unfold columns, rename. cbn [data]. by rewrite fst_prod_map. Qed.

Lemma named_nonempty c d : named c d ≠ [] → c ∈ d.*1.
Proof.
  intros H. destruct (named c d) as [|p ps] eqn:E; [done|].
  assert (p ∈ named c d) as Hp by (rewrite E; left).
  apply list_elem_of_filter in Hp as [<- Hp]. by apply list_elem_of_fmap_2.
Qed.

Lemma select_in_columns cs df out :
  select cs df = Some out → Forall (λ c, c ∈ columns df) cs.
Proof.
  unfold select. intros H. apply bind_Some in H as (d & Hd & _).
  apply mapM_Some_1 in Hd. apply Forall_forall. intros c Hc.
  destruct (list_elem_of_lookup_1 _ _ Hc) as [i Hi].
  destruct (Forall2_lookup_l _ _ _ _ _ Hd Hi) as (ps & _ & Hps).
  apply named_nonempty. destruct (named c (data df)); [done|done].
Qed.

Lemma merge_left_columns left right left_on right_on out :
  merge_left left right left_on right_on = Some out →
  left_on ∈ columns left
  ∧ right_on ∈ columns right
  ∧ ∃ rlabels,
      rlabels ⊆ columns right
      ∧ (left_on ≠ right_on → rlabels = columns right)
      ∧ (left_on = right_on → right_on ∉ rlabels)
      ∧ (∀ c, c ∈ columns right → c ≠ right_on → c ∈ rlabels)
      ∧ columns out = ((suffixed "_x" rlabels <$> columns left)
                       ++ (suffixed "_y" (columns left) <$> rlabels))%list.
Proof.
  unfold merge_left. intros H.
  apply bind_Some in H as (lkey & Hl & H). apply bind_Some in H as (rkey & Hr & H).
  cbn zeta in H. destruct (_ || _) in H; [done|]. apply (inj Some) in H. subst out.
  split; [by eapply getitem_in_columns|]. split; [by eapply getitem_in_columns|].
  eexists. split; [|split; [|split; [|split]]]; last first.
  - unfold columns. cbn [data]. by rewrite fmap_app, !fst_prod_map.
  - intros c Hc Hne. case_bool_decide; [|done].
    apply list_elem_of_fmap in Hc as (p & -> & Hp).
    apply list_elem_of_fmap_2. by apply list_elem_of_filter.
  - intros ->. rewrite bool_decide_eq_true_2 by done.
    intros Hin. apply list_elem_of_fmap in Hin as (p & -> & Hp).
    by apply list_elem_of_filter in Hp as [? _].
  - intros Hne. by rewrite bool_decide_eq_false_2.
  - case_bool_decide; [|done]. intros c Hc.
    apply list_elem_of_fmap in Hc as (p & -> & Hp).
    apply list_elem_of_filter in Hp as [_ Hp]. by apply list_elem_of_fmap_2.
Qed.

Lemma suffixed_inv sfx other c x :
  suffixed sfx other c = x → (c = x ∧ c ∉ other) ∨ (c +:+ sfx = x ∧ c ∈ other).
Proof. unfold suffixed. case_bool_decide; intros <-; [by right|by left]. Qed.

(** A label that ends in a suffix of the join is not one of the labels
    the script asks for. *)
Ltac no_suffix :=
  let H := fresh in
  intros H; exfalso; revert H;
  match goal with
  | |- ?c +:+ _ = _ → False =>
      repeat (destruct c as [|? c]; cbn [String.append];
              [discriminate | first [discriminate | intros H; injection H as _ H; revert H]])
  end.

Lemma x_code_dep c : c +:+ "_x" ≠ "code_dep".
Proof. no_suffix. Qed.

Lemma x_name_dep c : c +:+ "_x" ≠ "name_dep".
Proof. no_suffix. Qed.

Lemma x_name_reg c : c +:+ "_x" ≠ "name_reg".
Proof. no_suffix. Qed.

Lemma y_name_reg c : c +:+ "_y" ≠ "name_reg".
Proof. no_suffix. Qed.

Lemma select_columns cs df out c :
  select cs df = Some out → c ∈ columns out ↔ c ∈ cs.
Proof.
  unfold select. intros H. apply bind_Some in H as (d & Hd & H).
  apply (inj Some) in H. subst out. unfold columns. cbn [data].
  apply mapM_Some_1 in Hd. induction Hd as [|c' ps cs d Hps Hd IH].
  - cbn. by rewrite !elem_of_nil.
  - cbn [concat]. rewrite fmap_app, elem_of_app, elem_of_cons, IH.
    assert (c ∈ ps.*1 ↔ c = c') as ->; [|done].
    cbn beta in Hps. revert Hps.
    destruct (named _ _) as [|p ps'] eqn:E; [done|]. intros Hps.
    apply (inj Some) in Hps. subst ps. split.
    + intros Hc. apply list_elem_of_fmap in Hc as (q & -> & Hq).
      rewrite <- E in Hq. by apply list_elem_of_filter in Hq as [? _].
    + intros ->. assert (p ∈ named c' (data df)) as Hp by (rewrite E; left).
      apply list_elem_of_filter in Hp as [Hp _]. rewrite fmap_cons, elem_of_cons. by left.
Qed.

Lemma in_columns_rename m c df :
  c ∈ columns (rename m df) ↔ ∃ c', c' ∈ columns df ∧ rename_label m c' = c.
Proof.
  rewrite columns_rename, list_elem_of_fmap. split; intros (c' & ? & ?); eauto.
Qed.

Ltac relabel H :=
  let c := fresh "c" in
  let E := fresh "E" in
  destruct H as (c & H & E); cbn [rename_label] in E;
  repeat case_bool_decide; subst; try done; eauto.

(** X4: merge_regions_and_departments returns a table only when the
    regions table has a column for the region code and one for the region
    name, the departments table has a column for the region code, one for
    the department code and one for the department name, under the labels
    of the files or the labels they are renamed to, and the departments
    table has no column name_reg of its own (the join would suffix both
    name_reg columns, and the selection of name_reg would fail). *)
Theorem merge_regions_and_departments_requires regions departments out :
  merge_regions_and_departments regions departments = Some out →
  ("code" ∈ columns regions ∨ "code_reg" ∈ columns regions)
  ∧ ("name" ∈ columns regions ∨ "name_reg" ∈ columns regions)
  ∧ ("region_code" ∈ columns departments ∨ "code_reg" ∈ columns departments)
  ∧ ("code" ∈ columns departments ∨ "code_dep" ∈ columns departments)
  ∧ ("name" ∈ columns departments ∨ "name_dep" ∈ columns departments)
  ∧ ("name_reg" ∉ columns departments).
Proof.
  unfold merge_regions_and_departments. cbn zeta. intros H.
  apply bind_Some in H as (regions2 & Hsel & H).
  apply bind_Some in H as (merged & Hm & H).
  pose proof (select_in_columns _ _ _ Hsel) as Hr.
  pose proof (select_in_columns _ _ _ H) as Hf.
  destruct (merge_left_columns _ _ _ _ _ Hm) as (Hl & _ & rl & Hsub & _ & Hkey & Hin & Hcols).
  rewrite Hcols in Hf. clear H Hcols.
  rewrite !Forall_cons in Hr. rewrite !Forall_cons in Hf.
  destruct Hr as (Hr1 & Hr2 & _). destruct Hf as (_ & Hf2 & Hf3 & Hf4 & _).
  assert (Hrl : ∀ c, c ∈ rl → c = "name_reg").
  { intros c Hc. pose proof (Hsub _ Hc) as Hc'.
    apply (select_columns _ _ _ c Hsel) in Hc'.
    rewrite !elem_of_cons, elem_of_nil in Hc'.
    destruct Hc' as [->|[->|[]]]; [by destruct (Hkey eq_refl)|done]. }
  assert (Hnr : "name_reg" ∈ rl).
  { apply Hin; [|done]. apply (select_columns _ _ _ _ Hsel). rewrite !elem_of_cons. auto. }
  assert (Hleft : ∀ x, x ≠ "name_reg" → x ≠ "name_reg_y" → (∀ c, c +:+ "_x" ≠ x) →
            x ∈ ((suffixed "_x" rl <$> columns
                    (rename [("code", "code_dep"); ("name", "name_dep");
                             ("region_code", "code_reg")] departments))
                 ++ (suffixed "_y" (columns
                    (rename [("code", "code_dep"); ("name", "name_dep");
                             ("region_code", "code_reg")] departments)) <$> rl))%list →
            ∃ c', c' ∈ columns departments
              ∧ rename_label [("code", "code_dep"); ("name", "name_dep");
                              ("region_code", "code_reg")] c' = x).
  { intros x Hx Hx' Hsfx Hin'. apply elem_of_app in Hin' as [Hin'|Hin'].
    - apply list_elem_of_fmap in Hin' as (c & Hc & Hin').
      symmetry in Hc. apply suffixed_inv in Hc as [[-> _]|[Hc _]]; [|by destruct (Hsfx c)].
      by apply in_columns_rename.
    - apply list_elem_of_fmap in Hin' as (c & Hc & Hin').
      rewrite (Hrl _ Hin') in Hc. unfold suffixed in Hc.
      by case_bool_decide; subst x. }
  apply in_columns_rename in Hr1, Hr2, Hl.
  apply Hleft in Hf3; [|done|done|apply x_code_dep].
  apply Hleft in Hf4; [|done|done|apply x_name_dep].
  clear Hleft.
  split; [relabel Hr1|]. split; [relabel Hr2|]. split; [relabel Hl|].
  split; [relabel Hf3|]. split; [relabel Hf4|].
  intros Hd.
  assert ("name_reg" ∈ columns
            (rename [("code", "code_dep"); ("name", "name_dep");
                     ("region_code", "code_reg")] departments)) as Hd'.
  { apply in_columns_rename. by exists "name_reg". }
  apply elem_of_app in Hf2 as [Hf2|Hf2];
    apply list_elem_of_fmap in Hf2 as (c & Hc & Hf2); symmetry in Hc;
    apply suffixed_inv in Hc as [[-> Hc]|[Hc _]]; try done.
  - by destruct (x_name_reg c).
  - by destruct (y_name_reg c).
Qed.

Lemma merge_regions_and_departments_requires_witness :
  ("code" ∈ columns c5_regions ∨ "code_reg" ∈ columns c5_regions)
  ∧ ("name" ∈ columns c5_regions ∨ "name_reg" ∈ columns c5_regions)
  ∧ ("region_code" ∈ columns c5_departments ∨ "code_reg" ∈ columns c5_departments)
  ∧ ("code" ∈ columns c5_departments ∨ "code_dep" ∈ columns c5_departments)
  ∧ ("name" ∈ columns c5_departments ∨ "name_dep" ∈ columns c5_departments)
  ∧ ("name_reg" ∉ columns c5_departments).
Proof.
  eapply (merge_regions_and_departments_requires c5_regions c5_departments).
  vm_compute. reflexivity.
Defined.

Lemma setitem_columns c col df df' x :
  setitem c col df = Some df' → x ∈ columns df' ↔ x = c ∨ x ∈ columns df.
Proof.
  unfold setitem. case_bool_decide; [|done]. intros Hs. apply (inj Some) in Hs. subst df'.
  unfold columns at 1. cbn [data]. case_bool_decide as Hc.
  - rewrite <- list_fmap_compose.
    assert (fst ∘ (λ p : string * list value, if bool_decide (p.1 = c) then (c, col) else p)
            <$> data df = columns df) as ->.
    { apply list_fmap_ext. intros i p _. cbn. by case_bool_decide. }
    split; [by right|]. by intros [->|].
  - rewrite fmap_app, elem_of_app. cbn. rewrite elem_of_cons, elem_of_nil.
    split; [intros [|[|[]]]; auto|intros [|]; auto].
Qed.

Lemma filter_rows_columns mask df df' :
  filter_rows mask df = Some df' → columns df' = columns df.
Proof.
  unfold filter_rows. case_bool_decide; [|done]. intros Hs. apply (inj Some) in Hs. subst df'.
  unfold columns. cbn [data]. by rewrite fst_prod_map, list_fmap_id.
Qed.

Lemma drop_in_columns cs df df' :
  drop cs df = Some df' → Forall (λ c, c ∈ columns df) cs.
Proof. unfold drop. by case_bool_decide. Qed.

Lemma x_name_dep_y c : c +:+ "_x" ≠ "name_dep_y".
Proof. no_suffix. Qed.

Lemma y_name_dep_y c : c +:+ "_y" = "name_dep_y" → c = "name_dep".
Proof.
  intros H.
  repeat (destruct c as [|? c]; cbn [String.append] in H;
          [first [discriminate H | reflexivity]
          | first [discriminate H | injection H as -> H]]).
Qed.

(** X6: merge_referendum_and_areas returns a table only when the
    referendum table has the columns Department code and Department name
    and the area table has a column code_dep; and only when the join
    produces a column name_dep_y for [drop] to remove, which it does when
    the area table has a column name_dep (or when one of the tables has a
    column name_dep_y of its own). *)
Theorem merge_referendum_and_areas_requires referendum areas out :
  merge_referendum_and_areas referendum areas = Some out →
  "Department code" ∈ columns referendum
  ∧ "Department name" ∈ columns referendum
  ∧ "code_dep" ∈ columns areas
  ∧ ("name_dep" ∈ columns areas
     ∨ "name_dep_y" ∈ columns areas
     ∨ "name_dep_y" ∈ columns referendum).
Proof.
  unfold merge_referendum_and_areas, copy. cbn zeta. intros H.
  apply bind_Some in H as (code & Hcode & H).
  apply bind_Some in H as (scode & _ & H).
  apply bind_Some in H as (ref1 & Hs1 & H).
  apply bind_Some in H as (name & Hname & H).
  apply bind_Some in H as (ref2 & Hs2 & H).
  apply bind_Some in H as (acode & Hacode & H).
  apply bind_Some in H as (sacode & _ & H).
  apply bind_Some in H as (areas1 & Hs3 & H).
  apply bind_Some in H as (code' & _ & H).
  apply bind_Some in H as (mask & _ & H).
  apply bind_Some in H as (ref3 & Hf & H).
  apply bind_Some in H as (merged & Hm & H).
  apply bind_Some in H as (merged' & Hd & _).
  apply getitem_in_columns in Hcode, Hname, Hacode.
  apply (setitem_columns _ _ _ _ _ Hs1) in Hname as [[=]|Hname].
  split; [done|]. split; [done|]. split; [done|].
  apply drop_in_columns in Hd. rewrite Forall_cons in Hd. destruct Hd as [Hd _].
  destruct (merge_left_columns _ _ _ _ _ Hm) as (_ & _ & rl & Hsub & _ & Hkey & _ & Hcols).
  rewrite Hcols in Hd. clear Hcols.
  apply elem_of_app in Hd as [Hd|Hd];
    apply list_elem_of_fmap in Hd as (c & Hc & Hd); symmetry in Hc;
    apply suffixed_inv in Hc as [[-> Hc]|[Hc Hc']].
  - rewrite (filter_rows_columns _ _ _ Hf) in Hd.
    apply (setitem_columns _ _ _ _ _ Hs2) in Hd as [[=]|Hd].
    apply (setitem_columns _ _ _ _ _ Hs1) in Hd as [[=]|Hd]. auto.
  - by destruct (x_name_dep_y c).
  - apply Hsub, (setitem_columns _ _ _ _ _ Hs3) in Hd as [[=]|Hd]. auto.
  - apply y_name_dep_y in Hc as ->.
    apply Hsub, (setitem_columns _ _ _ _ _ Hs3) in Hd as [[=]|Hd]. auto.
Qed.

Lemma merge_referendum_and_areas_requires_witness :
  "Department code" ∈ columns ex_referendum
  ∧ "Department name" ∈ columns ex_referendum
  ∧ "code_dep" ∈ columns ex_areas
  ∧ ("name_dep" ∈ columns ex_areas
     ∨ "name_dep_y" ∈ columns ex_areas
     ∨ "name_dep_y" ∈ columns ex_referendum).
Proof.
  eapply (merge_referendum_and_areas_requires ex_referendum ex_areas).
  vm_compute. reflexivity.
Defined.

Lemma groupby_agg_shape key spec df out :
  groupby_agg key spec df = Some out →
  ∃ keycol,
    getitem key df = Some keycol
    ∧ index_name out = Some key
    ∧ index out = group_keys keycol
    ∧ columns out = spec.*1
    ∧ wf out
    ∧ Forall (λ s, s.2.1 ∈ columns df) spec.
Proof.
  unfold groupby_agg. intros H. apply bind_Some in H as (keycol & Hk & H).
  cbn zeta in H. apply bind_Some in H as (d & Hd & H). apply (inj Some) in H. subst out.
  exists keycol. split; [done|]. split; [done|]. split; [done|].
  apply mapM_Some_1 in Hd. unfold columns, wf, nrows. cbn [data index].
  induction Hd as [|s p spec d Hp Hd (IH1 & IH2 & IH3)]; [by repeat constructor|].
  apply bind_Some in Hp as (col & Hcol & Hp). apply bind_Some in Hp as (cells & Hcells & Hp).
  apply (inj Some) in Hp. subst p. rewrite !fmap_cons. cbn [fst].
  split; [by rewrite IH1|]. split.
  - constructor; [|done]. cbn [snd]. apply mapM_Some_1, Forall2_length in Hcells. done.
  - constructor; [|done]. by eapply getitem_in_columns.
Qed.

(** X2: compute_referendum_result_by_regions returns a table only when
    its argument has the seven columns it reads; and whatever the cells of
    the argument, a table it returns is labelled by the region codes under
    the name code_reg, sorted and without the missing one, and has the six
    columns name_reg, Registered, Abstentions, Null, Choice A, Choice B, in
    this order, with one cell per region. *)
Theorem compute_referendum_result_by_regions_shape df out :
  compute_referendum_result_by_regions df = Some out →
  Forall (λ c, c ∈ columns df)
    ["code_reg"; "name_reg"; "Registered"; "Abstentions"; "Null"; "Choice A"; "Choice B"]
  ∧ index_name out = Some "code_reg"
  ∧ columns out = ["name_reg"; "Registered"; "Abstentions"; "Null"; "Choice A"; "Choice B"]
  ∧ wf out
  ∧ ∃ keycol, getitem "code_reg" df = Some keycol ∧ index out = group_keys keycol.
Proof.
  intros H. apply groupby_agg_shape in H as (keycol & Hk & Hn & Hi & Hc & Hwf & Hs).
  split.
  - constructor; [by eapply getitem_in_columns|].
    rewrite !Forall_cons in Hs. rewrite !Forall_cons. cbn [fst snd] in Hs.
    destruct Hs as (? & ? & ? & ? & ? & ? & _). by rewrite Forall_nil.
  - split; [done|]. split; [done|]. split; [done|]. by exists keycol.
Qed.

Lemma compute_referendum_result_by_regions_shape_witness :
  ∃ out,
    compute_referendum_result_by_regions ex_merged = Some out
    ∧ Forall (λ c, c ∈ columns ex_merged)
        ["code_reg"; "name_reg"; "Registered"; "Abstentions"; "Null"; "Choice A"; "Choice B"]
    ∧ index_name out = Some "code_reg"
    ∧ columns out = ["name_reg"; "Registered"; "Abstentions"; "Null"; "Choice A"; "Choice B"]
    ∧ wf out
    ∧ ∃ keycol, getitem "code_reg" ex_merged = Some keycol ∧ index out = group_keys keycol.
Proof.
  eexists. split; [vm_compute; reflexivity|].
  apply (compute_referendum_result_by_regions_shape ex_merged). vm_compute. reflexivity.
Defined.

Lemma x_choice_a c : c +:+ "_x" ≠ "Choice A".
Proof. no_suffix. Qed.

Lemma y_choice_a c : c +:+ "_y" ≠ "Choice A".
Proof. no_suffix. Qed.

Lemma x_choice_b c : c +:+ "_x" ≠ "Choice B".
Proof. no_suffix. Qed.

Lemma y_choice_b c : c +:+ "_y" ≠ "Choice B".
Proof. no_suffix. Qed.

Lemma reset_index_columns df df' :
  reset_index df = Some df' →
  ∃ r, columns df' = r :: columns df
    ∧ (r ∉ columns df)
    ∧ (index_name df = Some r ∨ (index_name df = None ∧ (r = "index" ∨ r = "level_0"))).
Proof.
  unfold reset_index. cbn zeta. case_bool_decide as Hr; [done|].
  intros H. apply (inj Some) in H. subst df'. eexists. split; [done|]. split; [done|].
  destruct (index_name df); [left; done|right]. split; [done|]. case_bool_decide; auto.
Qed.

(** X10: plot_referendum_map returns a table only when the table of
    outlines has a column code, and the results carry the region code
    either as row labels named code_reg or as a column code_reg, not both;
    and only when the joined table gets a column Choice A and a column
    Choice B, which one of the two tables has to bring.  The table it
    returns has the columns Choice A, Choice B and ratio. *)
Theorem plot_referendum_map_requires geo results out :
  plot_referendum_map geo results = Some out →
  "code" ∈ columns geo
  ∧ (index_name results = Some "code_reg" ∨ "code_reg" ∈ columns results)
  ∧ ¬ (index_name results = Some "code_reg" ∧ "code_reg" ∈ columns results)
  ∧ ("Choice A" ∈ columns geo ∨ "Choice A" ∈ columns results
     ∨ index_name results = Some "Choice A")
  ∧ ("Choice B" ∈ columns geo ∨ "Choice B" ∈ columns results
     ∨ index_name results = Some "Choice B")
  ∧ Forall (λ c, c ∈ columns out) ["Choice A"; "Choice B"; "ratio"].
Proof.
  unfold plot_referendum_map. intros H.
  apply bind_Some in H as (results' & Hr & H).
  apply bind_Some in H as (merged & Hm & H).
  apply bind_Some in H as (a & Ha & H).
  apply bind_Some in H as (b & Hb & H).
  apply bind_Some in H as (total & _ & H).
  apply bind_Some in H as (ratio & _ & H).
  apply bind_Some in H as (merged' & Hs & H).
  apply bind_Some in H as (drawn & _ & H). apply (inj Some) in H. subst out.
  apply getitem_in_columns in Ha, Hb.
  destruct (reset_index_columns _ _ Hr) as (r & Hcols & Hfresh & Hname).
  destruct (merge_left_columns _ _ _ _ _ Hm) as (Hl & Hro & rl & _ & Hrl & _ & _ & Hmc).
  rewrite (Hrl ltac:(done)), Hcols in Hmc. rewrite Hcols in Hro. clear Hrl.
  assert (Hside : ∀ x, (∀ c, c +:+ "_x" ≠ x) → (∀ c, c +:+ "_y" ≠ x) →
            x ≠ "index" → x ≠ "level_0" → x ∈ columns merged →
            x ∈ columns geo ∨ x ∈ columns results ∨ index_name results = Some x).
  { intros x Hx Hy Hi Hl0 Hin. rewrite Hmc in Hin.
    apply elem_of_app in Hin as [Hin|Hin];
      apply list_elem_of_fmap in Hin as (c & Hc & Hin); symmetry in Hc;
      apply suffixed_inv in Hc as [[-> Hc]|[Hc _]];
      [by left|by destruct (Hx c)| |by destruct (Hy c)].
    apply elem_of_cons in Hin as [->|Hin]; [|by auto].
    destruct Hname as [Hname|[_ [-> | ->]]]; by auto. }
  split; [done|]. split.
  { apply elem_of_cons in Hro as [<-|Hro]; [|by right].
    destruct Hname as [Hname|[_ [Hx|Hx]]]; [by left|discriminate Hx..]. }
  split.
  { intros [Hn Hin]. destruct Hname as [Hname|[Hname _]]; [|congruence].
    rewrite Hn in Hname. apply (inj Some) in Hname. by subst r. }
  split; [apply Hside; [apply x_choice_a|apply y_choice_a|done..]|].
  split; [apply Hside; [apply x_choice_b|apply y_choice_b|done..]|].
  rewrite !Forall_cons, Forall_nil.
  split; [apply (setitem_columns _ _ _ _ _ Hs); by right|].
  split; [apply (setitem_columns _ _ _ _ _ Hs); by right|].
  split; [apply (setitem_columns _ _ _ _ _ Hs); by left|done].
Qed.

Lemma plot_referendum_map_requires_witness :
  ∃ out,
    plot_referendum_map ex_geo ex_results = Some out
    ∧ "code" ∈ columns ex_geo
    ∧ (index_name ex_results = Some "code_reg" ∨ "code_reg" ∈ columns ex_results)
    ∧ ¬ (index_name ex_results = Some "code_reg" ∧ "code_reg" ∈ columns ex_results)
    ∧ ("Choice A" ∈ columns ex_geo ∨ "Choice A" ∈ columns ex_results
       ∨ index_name ex_results = Some "Choice A")
    ∧ ("Choice B" ∈ columns ex_geo ∨ "Choice B" ∈ columns ex_results
       ∨ index_name ex_results = Some "Choice B")
    ∧ Forall (λ c, c ∈ columns out) ["Choice A"; "Choice B"; "ratio"].
Proof.
  eexists. split; [vm_compute; reflexivity|].
  apply (plot_referendum_map_requires ex_geo ex_results). vm_compute. reflexivity.
Defined.

(** ** Rows of a join *)

Lemma left_take_cons k v lkey rkey col :
  left_take (k :: lkey) rkey (v :: col)
  = (replicate (Nat.max 1 (count_key k rkey)) v ++ left_take lkey rkey col)%list.
Proof. done. Qed.

Lemma length_left_take_sum lkey rkey :
  length (left_take lkey rkey lkey)
  = sum_list ((λ k, Nat.max 1 (count_key k rkey)) <$> lkey).
Proof.
  induction lkey as [|k lkey IH]; [done|].
  rewrite left_take_cons, length_app, length_replicate, fmap_cons. cbn [sum_list].
  unfold sum_list in *. cbn [sum_list_with]. unfold id at 1. by rewrite IH.
Qed.

Lemma length_left_take_ge lkey rkey : length lkey ≤ length (left_take lkey rkey lkey).
Proof.
  induction lkey as [|k lkey IH]; [done|].
  rewrite left_take_cons, length_app, length_replicate. cbn [length]. lia.
Qed.

Lemma length_left_take_eq lkey rkey :
  length (left_take lkey rkey lkey) = length lkey
  ↔ Forall (λ k, count_key k rkey ≤ 1) lkey.
Proof.
  induction lkey as [|k lkey IH]; [by split|].
  rewrite left_take_cons, length_app, length_replicate, Forall_cons, <- IH.
  pose proof (length_left_take_ge lkey rkey). cbn [length]. lia.
Qed.

Lemma elem_of_left_take_2 v lkey rkey col :
  length col = length lkey → v ∈ col → v ∈ left_take lkey rkey col.
Proof.
  revert col. induction lkey as [|k lkey IH]; intros [|x col] Hlen Hv; try done;
    try (by apply elem_of_nil in Hv).
  rewrite left_take_cons, elem_of_app. apply elem_of_cons in Hv as [->|Hv].
  - left. destruct (Nat.max 1 (count_key k rkey)) as [|n] eqn:E; [lia|]. by left.
  - right. apply IH; [by injection Hlen|done].
Qed.

(** X5: merge_regions_and_departments never loses a department.  Whatever
    the region codes, every row of the departments table is in the result,
    in the order of that table, once for each row of the regions table
    with its region code and once when there is none; so the result has
    one row per department exactly when no department has a region code
    that the regions table lists twice.  The rows are numbered afresh.
    (The region codes are strings in both tables: pandas joins columns of
    one kind.) *)
Theorem merge_regions_and_departments_rows regions departments rcode rname dcode dname dreg :
  wf departments →
  getitem "code" regions = Some rcode →
  getitem "name" regions = Some rname →
  "code_reg" ∉ columns regions →
  "name_reg" ∉ columns regions →
  getitem "code" departments = Some dcode →
  getitem "name" departments = Some dname →
  getitem "region_code" departments = Some dreg →
  Forall (λ c, c ∉ columns departments) ["code_reg"; "name_reg"; "code_dep"; "name_dep"] →
  Forall (Forall (λ v, is_str v = true)) [rcode; dreg] →
  ∃ out deps,
    merge_regions_and_departments regions departments = Some out
    ∧ getitem "code_dep" out = Some deps
    ∧ deps = flat_map (λ p, replicate (Nat.max 1 (count_key p.1 rcode)) p.2) (zip dreg dcode)
    ∧ (∀ v, v ∈ dcode ↔ v ∈ deps)
    ∧ nrows out = sum_list ((λ k, Nat.max 1 (count_key k rcode)) <$> dreg)
    ∧ nrows departments ≤ nrows out
    ∧ (nrows out = nrows departments ↔ Forall (λ k, count_key k rcode ≤ 1) dreg)
    ∧ index out = range_index (nrows out).
Proof.
  intros Hwd Hrc Hrn F1 F2 Hdc Hdn Hdr Hfresh _.
  assert (length dcode = length dreg) as Hlen.
  { by rewrite (getitem_length _ _ _ Hwd Hdc), (getitem_length _ _ _ Hwd Hdr). }
  assert (length dreg = nrows departments) as Hn by (by eapply getitem_length).
  eexists _, _. split; [by eapply merge_regions_and_departments_eq|].
  split; [reflexivity|]. split; [reflexivity|]. split.
  { intros v. split; [by apply elem_of_left_take_2|apply elem_of_left_take]. }
  rewrite <- Hn. unfold nrows. cbn [index]. rewrite length_range_index.
  split; [apply length_left_take_sum|]. split; [apply length_left_take_ge|].
  split; [apply length_left_take_eq|done].
Qed.

Lemma merge_regions_and_departments_rows_witness :
  ∃ out deps,
    merge_regions_and_departments ex_regions_csv ex_departments_csv = Some out
    ∧ getitem "code_dep" out = Some deps
    ∧ deps = flat_map (λ p, replicate (Nat.max 1 (count_key p.1
               [VStr "84"; VStr "94"; VStr "11"])) p.2)
               (zip [VStr "84"; VStr "94"; VStr "11"; VStr "84"]
                    [VStr "01"; VStr "2A"; VStr "75"; VStr "69"])
    ∧ (∀ v, v ∈ [VStr "01"; VStr "2A"; VStr "75"; VStr "69"] ↔ v ∈ deps)
    ∧ nrows out
      = sum_list ((λ k, Nat.max 1 (count_key k [VStr "84"; VStr "94"; VStr "11"]))
                  <$> [VStr "84"; VStr "94"; VStr "11"; VStr "84"])
    ∧ nrows ex_departments_csv ≤ nrows out
    ∧ (nrows out = nrows ex_departments_csv
       ↔ Forall (λ k, count_key k [VStr "84"; VStr "94"; VStr "11"] ≤ 1)
           [VStr "84"; VStr "94"; VStr "11"; VStr "84"])
    ∧ index out = range_index (nrows out).
Proof.
  eapply (merge_regions_and_departments_rows ex_regions_csv ex_departments_csv);
    try reflexivity; by_compute.
Defined.

Lemma getitem_app_absent (g : list value → list value) c n i d d2 :
  c ∉ d.*1 →
  getitem c (mkDF n i ((prod_map id g <$> d) ++ d2)) = getitem c (mkDF n i d2).
Proof.
  intros Hc. unfold getitem. cbn [data]. rewrite named_app, named_absent; [done|].
  by apply not_in_labels.
Qed.

(** ** The letter Z *)

Lemma contains_Z s :
  contains "Z" s = true ↔ ∃ pre post, s = pre +:+ String "Z" post.
Proof.
  induction s as [|c s IH].
  - split; [done|]. intros ([|? pre] & post & E); discriminate E.
  - cbn [contains String.prefix]. rewrite orb_true_iff, IH. split.
    + intros [Hc|(pre & post & ->)].
      * destruct (ascii_dec "Z" c) as [<-|]; [|done]. by exists "", s.
      * by exists (String c pre), post.
    + intros ([|c' pre] & post & E); injection E as -> ->.
      * left. destruct (ascii_dec "Z" "Z"); [by destruct post|done].
      * right. by exists pre, post.
Qed.

Lemma has_Z_spec v :
  has_Z v = true ↔ ∃ pre post, v = VStr (pre +:+ String "Z" post).
Proof.
  destruct v as [| |s|]; cbn [has_Z].
  1,2,4: split; [done|]; by intros (? & ? & ?).
  rewrite contains_Z. split; intros (pre & post & E); exists pre, post; congruence.
Qed.

Lemma elem_of_kept k keys : k ∈ kept keys ↔ k ∈ keys ∧ has_Z k = false.
Proof. unfold kept. rewrite list_elem_of_filter. tauto. Qed.

Section referendum_rows.

Variables referendum areas : DataFrame.
Variables codes names creg cdep keys akeys : list value.

Hypothesis Hwf : wf referendum.
Hypothesis Hcodes : getitem "Department code" referendum = Some codes.
Hypothesis Hnames : getitem "Department name" referendum = Some names.
Hypothesis Hfresh :
  Forall (λ c, c ∉ columns referendum)
    ["code_dep"; "name_dep"; "name_dep_x"; "name_dep_y"; "code_reg"; "name_reg"].
Hypothesis Hwfa : wf areas.
Hypothesis Hcols : columns areas = ["code_reg"; "name_reg"; "code_dep"; "name_dep"].
Hypothesis Hcreg : getitem "code_reg" areas = Some creg.
Hypothesis Hcdep : getitem "code_dep" areas = Some cdep.
Hypothesis Hkeys : mapM dep_key codes = Some keys.
Hypothesis Hakeys : mapM dep_key cdep = Some akeys.

(** X7: merge_referendum_and_areas never loses a row that it does not
    filter out.  Every referendum row whose key has no Z is in the result,
    in the order of the referendum table, once for each area row with the
    same key and once when there is none, and all columns of the
    referendum table are repeated alike; so the result has one row per
    such referendum row exactly when none of their keys is the key of two
    area rows.  The rows are numbered afresh, whatever labels the
    referendum rows had. *)
Theorem merge_referendum_and_areas_row_count :
  ∃ out,
    merge_referendum_and_areas referendum areas = Some out
    ∧ (∀ c col, getitem c referendum = Some col →
         getitem c out
         = Some (flat_map (λ p, replicate (Nat.max 1 (count_key p.1 akeys)) p.2)
                   (zip (kept keys) (mask_filter (keep_mask keys) col))))
    ∧ nrows out = sum_list ((λ k, Nat.max 1 (count_key k akeys)) <$> kept keys)
    ∧ length (kept keys) ≤ nrows out
    ∧ (nrows out = length (kept keys) ↔ Forall (λ k, count_key k akeys ≤ 1) (kept keys))
    ∧ index_name out = None
    ∧ index out = range_index (nrows out)
    ∧ wf out.
Proof using All.
  destruct (merge_referendum_and_areas_data referendum areas codes names creg cdep keys akeys)
    as (nreg & _ & Ho); try done.
  eexists. split; [exact Ho|]. split.
  { intros c col Hc.
    by rewrite (merge_referendum_and_areas_getitem referendum areas codes names creg cdep
                  keys akeys Hwf Hcodes Hnames Hfresh Hwfa Hcols Hcreg Hcdep Hkeys Hakeys
                  _ c col Ho Hc). }
  split. { unfold nrows. cbn [index]. rewrite length_range_index. apply length_left_take_sum. }
  split. { unfold nrows. cbn [index]. rewrite length_range_index. apply length_left_take_ge. }
  split. { unfold nrows. cbn [index]. rewrite length_range_index. apply length_left_take_eq. }
  split; [done|].
  split. { unfold nrows. cbn [index]. by rewrite length_range_index. }
  by eapply (merge_referendum_and_areas_wf referendum areas codes names creg cdep keys akeys).
Qed.

(** X9: the rows that merge_referendum_and_areas keeps.  The department
    codes of the result are the normalised department codes of the
    referendum table in which the capital letter Z does not occur, at any
    place; no other row is dropped, and none is added. *)
Theorem merge_referendum_and_areas_codes :
  ∃ out deps,
    merge_referendum_and_areas referendum areas = Some out
    ∧ getitem "code_dep" out = Some deps
    ∧ ∀ k, k ∈ deps
        ↔ k ∈ keys ∧ ¬ ∃ pre post, k = VStr (pre +:+ String "Z" post).
Proof using All.
  destruct (merge_referendum_and_areas_data referendum areas codes names creg cdep keys akeys)
    as (nreg & _ & Ho); try done.
  rewrite !Forall_cons in Hfresh. destruct Hfresh as (F1 & _).
  eexists _, _. split; [exact Ho|]. split.
  { rewrite getitem_app_absent by exact F1. reflexivity. }
  intros k. rewrite <- has_Z_spec, not_true_iff_false, <- elem_of_kept.
  split; [apply elem_of_left_take|by apply elem_of_left_take_2].
Qed.

End referendum_rows.

Lemma merge_referendum_and_areas_row_count_witness :
  ∃ out,
    merge_referendum_and_areas ex_referendum ex_areas = Some out
    ∧ (∀ c col, getitem c ex_referendum = Some col →
         getitem c out
         = Some (flat_map (λ p, replicate (Nat.max 1 (count_key p.1 ex_code_dep)) p.2)
                   (zip (kept ex_keys) (mask_filter (keep_mask ex_keys) col))))
    ∧ nrows out = sum_list ((λ k, Nat.max 1 (count_key k ex_code_dep)) <$> kept ex_keys)
    ∧ length (kept ex_keys) ≤ nrows out
    ∧ (nrows out = length (kept ex_keys)
       ↔ Forall (λ k, count_key k ex_code_dep ≤ 1) (kept ex_keys))
    ∧ index_name out = None
    ∧ index out = range_index (nrows out)
    ∧ wf out.
Proof.
  apply (merge_referendum_and_areas_row_count ex_referendum ex_areas
           ex_codes ex_names ex_code_reg ex_code_dep ex_keys ex_code_dep);
    try reflexivity; by_compute.
Defined.

Lemma merge_referendum_and_areas_codes_witness :
  ∃ out deps,
    merge_referendum_and_areas ex_referendum ex_areas = Some out
    ∧ getitem "code_dep" out = Some deps
    ∧ ∀ k, k ∈ deps
        ↔ k ∈ ex_keys ∧ ¬ ∃ pre post, k = VStr (pre +:+ String "Z" post).
Proof.
  apply (merge_referendum_and_areas_codes ex_referendum ex_areas
           ex_codes ex_names ex_code_reg ex_code_dep ex_keys ex_code_dep);
    try reflexivity; by_compute.
Defined.

(** ** Keys that are normalised already *)

Lemma zfill_idemp width s : zfill width (zfill width s) = zfill width s.
Proof. apply zfill_long. rewrite length_zfill. lia. Qed.

Lemma dep_key_idemp v k : dep_key v = Some k → dep_key k = Some k.
Proof.
  intros H. apply dep_key_str in H as (s & _ & -> & _).
  unfold dep_key. cbn. by rewrite zfill_idemp.
Qed.

Lemma mapM_dep_key_idemp col keys :
  mapM dep_key col = Some keys → mapM dep_key keys = Some keys.
Proof.
  intros H. apply mapM_Some_1 in H. apply mapM_Some_2.
  induction H as [|v k col keys Hk H IH]; constructor; [|done].
  by eapply dep_key_idemp.
Qed.

Lemma getitem_setitem c col old df df' :
  getitem c df = Some old → setitem c col df = Some df' → getitem c df' = Some col.
Proof.
  intros Hg. unfold setitem. case_bool_decide; [|done].
  rewrite bool_decide_eq_true_2 by (by eapply getitem_in_columns).
  intros Hs. apply (inj Some) in Hs. subst df'.
  apply getitem_named in Hg. unfold getitem, named in *. cbn [data].
  revert Hg. generalize (data df). intros d.
  assert (∀ d, filter (λ p : string * list value, p.1 = c)
            ((λ p : string * list value, if bool_decide (p.1 = c) then (c, col) else p) <$> d)
          = (λ _, (c, col)) <$> filter (λ p : string * list value, p.1 = c) d) as ->.
  { clear. intros d. induction d as [|p d IH]; [done|].
    rewrite fmap_cons, !filter_cons. cbn [fst]. case_bool_decide as Hp.
    - cbn [fst]. rewrite !decide_True by done. by rewrite fmap_cons, IH.
    - by rewrite !decide_False. }
  by intros ->.
Qed.

Lemma setitem_idemp c col df df' :
  setitem c col df = Some df' → setitem c col df' = Some df'.
Proof.
  unfold setitem. case_bool_decide as Hlen; [|done].
  intros Hs. apply (inj Some) in Hs. subst df'. unfold nrows, columns. cbn [index data].
  rewrite bool_decide_eq_true_2 by done. f_equal. f_equal.
  destruct (decide (c ∈ (data df).*1)) as [Hc|Hc].
  - rewrite (bool_decide_eq_true_2 (c ∈ (data df).*1)) by done.
    rewrite bool_decide_eq_true_2.
    + rewrite <- list_fmap_compose. apply list_fmap_ext. intros i p _. cbn.
      destruct (decide (p.1 = c)) as [Hp|Hp].
      * rewrite !(bool_decide_eq_true_2 (p.1 = c)) by done. cbn [fst].
        by rewrite ?bool_decide_eq_true_2 by done.
      * by rewrite !(bool_decide_eq_false_2 (p.1 = c)) by done.
    + rewrite <- list_fmap_compose.
      apply list_elem_of_fmap in Hc as (p & -> & Hp).
      apply list_elem_of_fmap. exists p. split; [|done]. cbn.
      by rewrite bool_decide_eq_true_2.
  - rewrite (bool_decide_eq_false_2 (c ∈ (data df).*1)) by done.
    rewrite bool_decide_eq_true_2 by (rewrite fmap_app, elem_of_app; right; by left).
    rewrite fmap_app. cbn [fmap list_fmap fst]. rewrite bool_decide_eq_true_2 by done.
    f_equal. rewrite <- (list_fmap_id (data df)) at 2. apply list_fmap_ext.
    intros i p Hp. cbn. rewrite bool_decide_eq_false_2; [done|].
    intros <-. apply Hc. apply list_elem_of_fmap. exists p. split; [done|].
    by eapply list_elem_of_lookup_2.
Qed.

Lemma str_zfill_idemp width col :
  str_zfill width (str_zfill width col) = str_zfill width col.
Proof.
  unfold str_zfill. rewrite <- list_fmap_compose. apply list_fmap_ext.
  intros i [] _; cbn; try done. by rewrite zfill_idemp.
Qed.

Lemma astype_str_str_zfill width col scol :
  astype_str col = Some scol →
  astype_str (str_zfill width scol) = Some (str_zfill width scol).
Proof.
  unfold astype_str. intros H. apply mapM_Some_1 in H. apply mapM_Some_2.
  induction H as [|v k col scol Hk H IH]; [constructor|].
  cbn [str_zfill fmap list_fmap]. constructor; [|exact IH].
  destruct (to_str v); [|done]. apply (inj Some) in Hk. by subst k.
Qed.

(** X8: the normalisation of the department codes is idempotent, so
    merge_referendum_and_areas returns the same table for an area table
    and for the area table with its code_dep column already normalised
    (converted to strings and padded to two characters). *)
Theorem merge_referendum_and_areas_normalized_areas referendum areas areas' cdep akeys :
  getitem "code_dep" areas = Some cdep →
  mapM dep_key cdep = Some akeys →
  setitem "code_dep" akeys areas = Some areas' →
  merge_referendum_and_areas referendum areas'
  = merge_referendum_and_areas referendum areas.
Proof.
  intros Hg Hk Hs.
  destruct (dep_key_astype_str _ _ Hk) as (scol & Ha & ->).
  unfold merge_referendum_and_areas, copy.
  destruct (getitem "Department code" referendum) as [code|]; [|done]. step.
  destruct (astype_str code) as [scode|]; [|done]. step.
  destruct (setitem "code_dep" (str_zfill 2 scode) referendum) as [ref1|]; [|done]. step.
  destruct (getitem "Department name" ref1) as [name|]; [|done]. step.
  destruct (setitem "name_dep" name ref1) as [ref2|]; [|done]. step.
  rewrite (getitem_setitem _ _ _ _ _ Hg Hs), Hg. step.
  rewrite (astype_str_str_zfill _ _ _ Ha), Ha. step.
  by rewrite str_zfill_idemp, (setitem_idemp _ _ _ _ Hs), Hs.
Qed.

Lemma merge_referendum_and_areas_normalized_areas_witness :
  merge_referendum_and_areas ex_referendum
    (mkDF None (range_index 3)
       [("code_reg", ex_code_reg);
        ("name_reg", [VStr "Auvergne-Rhone-Alpes"; VStr "Corse"; VStr "Ile-de-France"]);
        ("code_dep", [VStr "01"; VStr "2A"; VStr "75"]);
        ("name_dep", [VStr "Ain"; VStr "Corse-du-Sud"; VStr "Paris"])])
  = merge_referendum_and_areas ex_referendum
      (mkDF None (range_index 3)
         [("code_reg", ex_code_reg);
          ("name_reg", [VStr "Auvergne-Rhone-Alpes"; VStr "Corse"; VStr "Ile-de-France"]);
          ("code_dep", [VInt 1; VStr "2A"; VInt 75]);
          ("name_dep", [VStr "Ain"; VStr "Corse-du-Sud"; VStr "Paris"])]).
Proof.
  by apply (merge_referendum_and_areas_normalized_areas ex_referendum _ _
              [VInt 1; VStr "2A"; VInt 75] [VStr "01"; VStr "2A"; VStr "75"]).
Defined.

(** ** Totals of the regions *)

Lemma cells_at_cons k x v keycol col :
  cells_at k (x :: keycol) (v :: col)
  = if decide (x = k) then v :: cells_at k keycol col else cells_at k keycol col.
Proof.
  unfold cells_at. cbn [zip zip_with]. rewrite filter_cons. cbn [fst].
  by destruct (decide (x = k)).
Qed.

Lemma sum_cells_cons v cells :
  sum_cells (v :: cells) = (sum_cells [v] + sum_cells cells)%Z.
Proof. unfold sum_cells. cbn [foldr]. destruct v; lia. Qed.

Lemma sum_cells_VInt z : sum_cells [VInt z] = z.
Proof. unfold sum_cells. cbn [foldr]. lia. Qed.

Lemma sum_cells_keys_cons (ks : list value) x v keycol col :
  NoDup ks →
  sum_cells ((λ k, VInt (sum_cells (cells_at k (x :: keycol) (v :: col)))) <$> ks)
  = ((if bool_decide (x ∈ ks) then sum_cells [v] else 0)
     + sum_cells ((λ k, VInt (sum_cells (cells_at k keycol col))) <$> ks))%Z.
Proof.
  induction 1 as [|k ks Hk Hnd IH].
  - by rewrite bool_decide_eq_false_2 by set_solver.
  - rewrite !fmap_cons, (sum_cells_cons (VInt _)), IH, (sum_cells_cons (VInt _) (_ <$> ks)).
    rewrite cells_at_cons. destruct (decide (x = k)) as [->|Hne].
    + rewrite (bool_decide_eq_true_2 (k ∈ k :: ks)) by left.
      rewrite (bool_decide_eq_false_2 (k ∈ ks)) by done.
      rewrite (sum_cells_cons v), !sum_cells_VInt. lia.
    + rewrite (bool_decide_ext (x ∈ k :: ks) (x ∈ ks)); [rewrite !sum_cells_VInt; lia|].
      rewrite elem_of_cons. split; [by intros [?|?] | by right].
Qed.

Lemma sum_cells_keys (ks : list value) keycol col :
  NoDup ks →
  sum_cells ((λ k, VInt (sum_cells (cells_at k keycol col))) <$> ks)
  = sum_cells (mask_filter ((λ x, bool_decide (x ∈ ks)) <$> keycol) col).
Proof.
  intros Hnd. revert col. induction keycol as [|x keycol IH]; intros col.
  - cbn. induction ks as [|k ks IHk]; [done|].
    apply NoDup_cons in Hnd as [_ Hnd].
    rewrite fmap_cons, sum_cells_cons, IHk by done. done.
  - destruct col as [|v col].
    + cbn. clear IH. induction ks as [|k ks IHk]; [done|].
      apply NoDup_cons in Hnd as [_ Hnd].
      rewrite fmap_cons, sum_cells_cons, IHk by done. done.
    + rewrite sum_cells_keys_cons, IH by done. rewrite fmap_cons. cbn [mask_filter].
      destruct (bool_decide (x ∈ ks)); [|lia]. by rewrite (sum_cells_cons v (mask_filter _ _)).
Qed.

Lemma mask_filter_ext {A B} (f g : A → bool) (l : list A) (col : list B) :
  Forall (λ x, f x = g x) l → mask_filter (f <$> l) col = mask_filter (g <$> l) col.
Proof. intros H. f_equal. by apply Forall_fmap_ext. Qed.

Lemma sum_cells_groups keycol col :
  sum_cells ((λ k, VInt (sum_cells (cells_at k keycol col))) <$> group_keys keycol)
  = sum_cells (mask_filter (notna <$> keycol) col).
Proof.
  rewrite sum_cells_keys by apply NoDup_group_keys. f_equal.
  apply mask_filter_ext, Forall_forall. intros x Hx.
  unfold notna. destruct (decide (x = VNull)) as [->|Hne].
  - apply bool_decide_eq_false_2. rewrite elem_of_group_keys. by intros [_ ?].
  - rewrite bool_decide_eq_true_2 by (by apply elem_of_group_keys). by destruct x.
Qed.

Lemma mask_filter_all_true {A} (l : list A) (col : list value) :
  length col = length l → mask_filter ((λ _, true) <$> l) col = col.
Proof.
  revert col. induction l as [|x l IH]; intros [|v col] Hlen; try done.
  cbn [fmap list_fmap mask_filter]. f_equal. apply IH. by injection Hlen.
Qed.

Lemma mask_filter_notna_all (keycol col : list value) :
  VNull ∉ keycol → length col = length keycol →
  mask_filter (notna <$> keycol) col = col.
Proof.
  intros Hn Hlen. rewrite <- (mask_filter_all_true keycol col) at 2 by done.
  apply mask_filter_ext, Forall_forall. intros x Hx. destruct x; try done.
Qed.



(** ** The order of the regions *)

(** Whatever the relation it compares with, merge sort puts an element
    before another only if the comparison said so or refused the
    converse. *)
Section merge_sort_any.
Context {A} (R : relation A) `{∀ x y, Decision (R x y)}.

Local Abbreviation weak := (λ x y, R x y ∨ ¬ R y x).
Local Abbreviation sorted_stack :=
  (Forall (λ o : option (list A), from_option (Sorted weak) True o)).

Lemma HdRel_list_merge_weak x l1 l2 :
  HdRel weak x l1 → HdRel weak x l2 → HdRel weak x (list_merge R l1 l2).
Proof.
  destruct 1 as [|x1 l1 IH1], 1 as [|x2 l2 IH2];
    rewrite ?list_merge_cons; simpl; repeat case_decide; auto.
Qed.

Lemma Sorted_list_merge_weak l1 l2 :
  Sorted weak l1 → Sorted weak l2 → Sorted weak (list_merge R l1 l2).
Proof.
  intros Hl1. revert l2. induction Hl1 as [|x1 l1 Hs1 IH1 Hd1];
    induction 1 as [|x2 l2 Hs2 IH2 Hd2]; rewrite ?list_merge_cons; simpl;
    repeat case_decide; try (by constructor).
  - constructor; [apply IH1; by constructor|].
    apply HdRel_list_merge_weak; [done|]. constructor. by left.
  - constructor; [done|].
    apply HdRel_list_merge_weak; [|done]. constructor. by right.
Qed.

Lemma Sorted_merge_list_to_stack_weak st l :
  sorted_stack st → Sorted weak l → sorted_stack (merge_list_to_stack R st l).
Proof.
  intros Hst. revert l. induction Hst as [|[l'|] st Hl' Hst IH]; intros l Hl; cbn.
  - by repeat constructor.
  - constructor; [done|]. apply IH. by apply Sorted_list_merge_weak.
  - by constructor.
Qed.

Lemma Sorted_merge_stack_weak st : sorted_stack st → Sorted weak (merge_stack R st).
Proof.
  induction 1 as [|[l|] st Hl Hst IH]; cbn; [constructor| |done].
  by apply Sorted_list_merge_weak.
Qed.

Lemma Sorted_merge_sort_aux_weak st l :
  sorted_stack st → Sorted weak (merge_sort_aux R st l).
Proof.
  revert st. induction l as [|x l IH]; intros st Hst; cbn.
  - by apply Sorted_merge_stack_weak.
  - apply IH, Sorted_merge_list_to_stack_weak; [done|]. by repeat constructor.
Qed.

Lemma Sorted_merge_sort_weak l : Sorted weak (merge_sort R l).
Proof. apply Sorted_merge_sort_aux_weak. constructor. Qed.

End merge_sort_any.

Lemma Sorted_Forall_impl {A} (R R' : relation A) (P : A → Prop) l :
  (∀ x y, P x → P y → R x y → R' x y) →
  Forall P l → Sorted R l → Sorted R' l.
Proof.
  intros HR HP Hs. induction Hs as [|x l Hs IH Hd]; [constructor|].
  apply Forall_cons in HP as [Hx HP]. constructor; [by apply IH|].
  destruct Hd as [|y l Hxy]; constructor.
  apply Forall_cons in HP as [Hy _]. by apply HR.
Qed.

Lemma Sorted_NoDup_strict {A} (R : relation A) l :
  Sorted R l → NoDup l → Sorted (λ x y, R x y ∧ x ≠ y) l.
Proof.
  intros Hs. induction Hs as [|x l Hs IH Hd]; [constructor|].
  intros Hnd. apply NoDup_cons in Hnd as [Hx Hnd]. constructor; [by apply IH|].
  destruct Hd as [|y l Hxy]; constructor. split; [done|].
  intros ->. apply Hx. by left.
Qed.

Lemma Forall_group_keys (P : value → Prop) keycol :
  Forall (λ v, v ≠ VNull → P v) keycol → Forall P (group_keys keycol).
Proof.
  intros H. apply Forall_forall. intros k Hk.
  apply elem_of_group_keys in Hk as [Hk Hne].
  rewrite Forall_forall in H. by apply H.
Qed.

Lemma Sorted_group_keys keycol :
  Forall (λ v, is_str v || is_null v = true) keycol →
  Forall (λ v, is_str v = true) (group_keys keycol)
  ∧ Sorted (λ x y, ∃ s t, x = VStr s ∧ y = VStr t ∧ (s <? t)%string = true)
      (group_keys keycol).
Proof.
  intros Hstr.
  assert (Forall (λ v, is_str v = true) (group_keys keycol)) as Hs.
  { apply Forall_group_keys. eapply Forall_impl; [exact Hstr|].
    intros [] Hv; try done. }
  split; [done|].
  apply (Sorted_Forall_impl (λ x y, (value_le x y ∨ ¬ value_le y x) ∧ x ≠ y) _
           (λ v, is_str v = true)); [|done|].
  - intros [| |s|] [| |t|] Hx Hy [Hle Hne]; try done.
    exists s, t. split; [done|]. split; [done|].
    unfold value_le, value_leb, String.leb, String.ltb in *.
    destruct (s ?= t)%string eqn:E; [|done|].
    + apply String.compare_eq_iff in E. congruence.
    + exfalso. destruct Hle as [Hle|Hle]; [done|]. apply Hle.
      rewrite String.compare_antisym, E. done.
  - apply Sorted_NoDup_strict; [|apply NoDup_group_keys].
    apply Sorted_merge_sort_weak.
Qed.

(** X3: the regions come in the order of their codes.  When the region
    codes of the argument are strings (or missing), the row labels of the
    table compute_referendum_result_by_regions returns are strings, each
    strictly below the next one in the order of Python's strings; which
    rows of the argument come first does not matter. *)
Theorem compute_referendum_result_by_regions_sorted df keycol out :
  getitem "code_reg" df = Some keycol →
  Forall (λ v, is_str v || is_null v = true) keycol →
  compute_referendum_result_by_regions df = Some out →
  Forall (λ v, is_str v = true) (index out)
  ∧ Sorted (λ x y, ∃ s t, x = VStr s ∧ y = VStr t ∧ (s <? t)%string = true) (index out).
Proof.
  intros Hk Hstr Ho.
  apply groupby_agg_shape in Ho as (keycol' & Hk' & _ & -> & _).
  rewrite Hk in Hk'. apply (inj Some) in Hk'. subst keycol'.
  by apply Sorted_group_keys.
Qed.

Lemma compute_referendum_result_by_regions_sorted_witness :
  ∃ out,
    compute_referendum_result_by_regions ex_merged = Some out
    ∧ Forall (λ v, is_str v = true) (index out)
    ∧ Sorted (λ x y, ∃ s t, x = VStr s ∧ y = VStr t ∧ (s <? t)%string = true) (index out).
Proof.
  eexists. split; [vm_compute; reflexivity|].
  apply (compute_referendum_result_by_regions_sorted ex_merged
           [VStr "84"; VStr "11"; VStr "84"; VNull]);
    [reflexivity|by_compute|vm_compute; reflexivity].
Defined.

(** ** The values of the ratio *)

Section binary64_more.
Local Open Scope Z_scope.

(** Rounding carries into the next binade only from the largest
    mantissas. *)
Lemma binary_round_aux_carry q e l :
  2 ^ 52 ≤ q < 2 ^ 54 → -1074 ≤ e ≤ 800 →
  ∃ mf ef, binary_round_aux prec emax false q e l = S754_finite false mf ef
    ∧ 2 ^ 52 ≤ Zpos mf < 2 ^ 53
    ∧ (q < 2 ^ 53 → ef = e ∨ (ef = e + 1 ∧ q = 2 ^ 53 - 1))
    ∧ (2 ^ 53 ≤ q → ef = e + 1 ∨ (ef = e + 2 ∧ 2 ^ 54 - 2 ≤ q)).
Proof.
  intros Hq He. destruct (decide (q < 2 ^ 53)) as [Hlt|Hge].
  - rewrite binary_round_aux_53 by lia.
    pose proof (round_nearest_even_bounds q l) as Hr.
    destruct (finish_round_spec (round_nearest_even q l) e) as (mf & ef & -> & Hf);
      [lia|lia|].
    exists mf, ef. split; [done|]. split; [lia|]. split; [|lia]. intros _. lia.
  - rewrite binary_round_aux_54 by lia.
    set (l' := loc_of_shr_record (shr_1 (shr_record_of_loc q l))).
    pose proof (round_nearest_even_bounds (q / 2) l') as Hr.
    assert (Hq2 : 2 ^ 52 ≤ q / 2 < 2 ^ 53).
    { split; [apply Z.div_le_lower_bound; lia|apply Z.div_lt_upper_bound; lia]. }
    destruct (finish_round_spec (round_nearest_even (q / 2) l') (e + 1))
      as (mf & ef & -> & Hf); [lia|lia|].
    exists mf, ef. split; [done|]. split; [lia|]. split; [lia|].
    intros _. destruct Hf as [?|(Hm & ? & ?)]; [lia|]. right. split; [lia|].
    assert (2 ^ 53 - 1 ≤ q / 2) as Hd by lia.
    pose proof (Z.mul_div_le q 2 ltac:(lia)). lia.
Qed.

Lemma SFleb_half mf ef :
  2 ^ 52 ≤ Zpos mf → SFleb float_half (S754_finite false mf ef) = true ↔ -53 ≤ ef.
Proof.
  intros Hm. unfold SFleb, SFcompare, float_half.
  destruct (Z.compare_spec (-53) ef) as [<-|?|?].
  - rewrite Pos.compare_cont_spec.
    destruct (Pos.compare_spec 4503599627370496 mf) as [?|?|Hlt]; [by split..|].
    apply Pos2Z.pos_lt_pos in Hlt. split; [discriminate|]. intros _. exfalso. lia.
  - split; [lia|done].
  - split; [discriminate|lia].
Qed.

(** The quotient of two normal numbers, against one half. *)
Lemma SFdiv_half a t :
  0 < a → a ≤ t → t < 2 ^ 53 →
  ∃ mf ef,
    SFdiv prec emax (of_Z a) (of_Z t) = S754_finite false mf ef
    ∧ 2 ^ 52 ≤ Zpos mf
    ∧ (-53 ≤ ef ↔ t ≤ 2 * a).
Proof.
  intros Ha Hat Ht.
  destruct (of_Z_normal a ltac:(lia)) as (mx & ex & -> & Hmx & Hex & Hvx & Hda).
  destruct (of_Z_normal t ltac:(lia)) as (my & ey & -> & Hmy & Hey & Hvy & Hdt).
  pose proof (Zdigits2_bounds a ltac:(lia)) as Ba.
  pose proof (Zdigits2_bounds t ltac:(lia)) as Bt.
  assert (Zdigits2 a ≤ Zdigits2 t) as Hd.
  { rewrite !Zdigits2_log2 by lia. pose proof (Z.log2_le_mono a t). lia. }
  set (da := Zdigits2 a) in *. set (dt := Zdigits2 t) in *.
  unfold SFdiv. rewrite SFdiv_core_binary_normal by lia. cbn [xorb].
  set (q := Zpos mx * 2 ^ 53 / Zpos my).
  set (r := Zpos mx * 2 ^ 53 mod Zpos my).
  assert (Hdm : Zpos mx * 2 ^ 53 = Zpos my * q + r ∧ 0 ≤ r < Zpos my).
  { split; [apply Z.div_mod; lia|apply Z.mod_pos_bound; lia]. }
  assert (Hq : 2 ^ 52 ≤ q < 2 ^ 54).
  { split; [apply Z.div_le_lower_bound; lia|apply Z.div_lt_upper_bound; lia]. }
  clearbody q r.
  destruct (binary_round_aux_carry q (ex - ey - 53) (new_location (Zpos my) r))
    as (mf & ef & -> & Hmf & H53 & H54); [done|lia|].
  exists mf, ef. split; [done|]. split; [lia|].
  set (pt := 2 ^ (53 - dt)) in *.
  assert (0 < pt) as Hpt by (apply Z.pow_pos_nonneg; lia).
  assert (2 ^ (53 - da) = pt * 2 ^ (dt - da)) as Hpa.
  { unfold pt. rewrite <- Z.pow_add_r by lia. f_equal. lia. }
  rewrite Hpa in Hvx. clear Hpa.
  assert (Hef : ex - ey - 53 ≤ ef ≤ ex - ey - 53 + 2).
  { destruct (decide (q < 2 ^ 53)) as [Hlt|Hge]; [specialize (H53 Hlt)|specialize (H54 ltac:(lia))];
      lia. }
  assert (Hlow : q < 2 ^ 53 → Zpos mx < Zpos my).
  { intros Hlt. destruct Hdm as [Hdm Hr].
    assert (Zpos my * q ≤ Zpos my * (2 ^ 53 - 1)) by (apply Z.mul_le_mono_nonneg_l; lia).
    lia. }
  assert (Hhigh : 2 ^ 53 ≤ q → Zpos my ≤ Zpos mx).
  { intros Hge. destruct Hdm as [Hdm Hr].
    assert (Zpos my * 2 ^ 53 ≤ Zpos my * q) by (apply Z.mul_le_mono_nonneg_l; lia).
    lia. }
  set (P := 2 ^ (da - 1)) in *.
  assert (0 < P) as HP by (apply Z.pow_pos_nonneg; lia).
  assert (2 ^ da = 2 * P) as Eda.
  { unfold P. rewrite <- Z.pow_succ_r by lia. f_equal. lia. }
  rewrite Eda in Ba.
  destruct (decide (dt = da)) as [E0|N0].
  { (* the two counts have as many digits *)
    rewrite E0, Eda in Bt. split; lia. }
  destruct (decide (dt = da + 1)) as [E1|N1].
  { replace (dt - da) with 1 in Hvx by lia.
    change (2 ^ 1) with 2 in Hvx.
    assert (Zpos my ≤ Zpos mx ↔ t ≤ 2 * a) as Hcmp.
    { rewrite Hvx, Hvy. split; intros Hc.
      - apply (Z.mul_le_mono_pos_r _ _ pt); lia.
      - replace (a * (pt * 2)) with (2 * a * pt) by lia.
        apply Z.mul_le_mono_nonneg_r; lia. }
    split.
    - intros Hge. apply Hcmp. destruct (decide (q < 2 ^ 53)) as [Hlt|Hq53]; [|apply Hhigh; lia].
      exfalso. pose proof (Hlow Hlt) as Hmm.
      destruct (H53 Hlt) as [?|[_ Eq]]; [lia|]. subst q.
      destruct Hdm as [Hdm Hr].
      assert (1 * 2 ^ 53 ≤ (Zpos my - Zpos mx) * 2 ^ 53)
        by (apply Z.mul_le_mono_nonneg_r; lia).
      lia.
    - intros Hle. apply Hcmp in Hle.
      destruct (decide (q < 2 ^ 53)) as [Hlt|Hq53]; [pose proof (Hlow Hlt); lia|].
      destruct (H54 ltac:(lia)); lia. }
  assert (4 * P ≤ 2 ^ (dt - 1)) as Hbig.
  { replace (4 * P) with (2 ^ (da + 1)).
    - apply Z.pow_le_mono_r; lia.
    - unfold P. replace (da + 1) with (2 + (da - 1)) by lia.
      rewrite Z.pow_add_r by lia. done. }
  assert (2 * a < t) as Hlt2 by lia.
  split; [|lia]. intros Hge. exfalso.
  destruct (decide (dt = da + 2)) as [E2|N2]; [|lia].
  replace (dt - da) with 2 in Hvx by lia. change (2 ^ 2) with 4 in Hvx.
  destruct (decide (q < 2 ^ 53)) as [Hq53|Hq53]; [specialize (H53 Hq53); lia|].
  destruct (H54 ltac:(lia)) as [?|[_ Hq54]]; [lia|].
  destruct Hdm as [Hdm Hr].
  assert (Zpos my * (2 ^ 54 - 2) ≤ Zpos my * q) by (apply Z.mul_le_mono_nonneg_l; lia).
  assert (Zpos my * (2 ^ 54 - 2) ≤ Zpos mx * 2 ^ 53 ) as Hc by lia.
  rewrite Hvx, Hvy in Hc.
  replace (t * pt * (2 ^ 54 - 2)) with ((t * (2 ^ 54 - 2)) * pt) in Hc by lia.
  replace (a * (pt * 4) * 2 ^ 53) with ((a * 4 * 2 ^ 53) * pt) in Hc by lia.
  apply Z.mul_le_mono_pos_r in Hc; lia.
Qed.

End binary64_more.

Section ratio_values.
Local Open Scope Z_scope.

Lemma ratio_cell_majority a b :
  0 ≤ a → 0 ≤ b → 0 < a + b < 2 ^ 53 →
  ∃ f, ratio_cell (VInt a) (VInt b) = Some (VFloat f)
    ∧ (SFleb float_half f = true ↔ b ≤ a).
Proof.
  intros Ha Hb Hs.
  destruct (decide (a = 0)) as [->|Hne].
  { destruct (of_Z_normal (0 + b) Hs) as (my & ey & Ey & _).
    unfold ratio_cell, add_cell, div_cell, to_float. step. rewrite Ey.
    exists (S754_zero false). split; [by vm_compute|]. split; [discriminate|lia]. }
  destruct (SFdiv_half a (a + b)) as (mf & ef & Hf & Hm & Hef); [lia..|].
  unfold ratio_cell, add_cell, div_cell, to_float. step. rewrite Hf. cbn [of_float].
  eexists. split; [done|]. rewrite SFleb_half by done. lia.
Qed.

Lemma ratio_cell_all n :
  0 < n < 2 ^ 53 → ratio_cell (VInt n) (VInt 0) = Some (VFloat float_one).
Proof.
  intros Hn. unfold ratio_cell, add_cell, div_cell, to_float. step.
  rewrite Z.add_0_r.
  destruct (of_Z_normal n Hn) as (mx & ex & -> & Hmx & Hex & _ & Hd).
  unfold SFdiv. rewrite SFdiv_core_binary_normal by lia. cbn [xorb].
  rewrite Z.mul_comm, Z.div_mul, Z.mod_mul by lia.
  destruct (binary_round_aux_normal (2 ^ 53) (ex - ex - 53) (new_location (Zpos mx) 0))
    as (mf & ef & -> & _ & _ & _ & Hex'); [lia|lia|].
  destruct (Hex' eq_refl (new_location_0 _)) as [-> Hmf].
  cbn [of_float]. rewrite float_one_eq.
  assert (mf = 4503599627370496%positive) as -> by lia.
  by replace (ex - ex - 53 + 1) with (-52) by lia.
Qed.

Lemma ratio_cell_none n :
  0 < n < 2 ^ 53 → ratio_cell (VInt 0) (VInt n) = Some (VFloat float_zero).
Proof.
  intros Hn. destruct (of_Z_normal (0 + n) Hn) as (my & ey & Ey & _).
  unfold ratio_cell, add_cell, div_cell, to_float. step. rewrite Ey. by vm_compute.
Qed.

End ratio_values.

Lemma series_op_lookup op (a b res : list value) i x y :
  series_op op a b = Some res → a !! i = Some x → b !! i = Some y →
  ∃ z, res !! i = Some z ∧ op x y = Some z.
Proof.
  unfold series_op. case_bool_decide; [|done]. intros Hc Hx Hy.
  apply mapM_Some_1 in Hc.
  destruct (Forall2_lookup_l _ _ _ i (x, y) Hc) as (z & Hz & Hop); [|by exists z].
  rewrite lookup_zip_with, Hx. cbn. by rewrite Hy.
Qed.

Lemma getitem_setitem_ne c c' col df df' :
  c ≠ c' → setitem c' col df = Some df' → getitem c df' = getitem c df.
Proof.
  intros Hne. unfold setitem. case_bool_decide; [|done].
  intros Hs. apply (inj Some) in Hs. subst df'. unfold getitem, named. cbn [data].
  case_bool_decide.
  - assert (∀ d : list (string * list value),
              filter (λ p : string * list value, p.1 = c)
                ((λ p : string * list value,
                    if bool_decide (p.1 = c') then (c', col) else p) <$> d)
              = filter (λ p : string * list value, p.1 = c) d) as ->; [|done].
    intros d. induction d as [|p d IH]; [done|].
    rewrite fmap_cons, !filter_cons. case_bool_decide as Hp.
    + cbn [fst]. rewrite !decide_False by congruence. done.
    + destruct (decide (p.1 = c)); by rewrite IH.
  - rewrite filter_app. rewrite (filter_cons _ (c', col)). cbn [fst].
    rewrite decide_False by done. by rewrite filter_nil, app_nil_r.
Qed.

Lemma getitem_setitem_eq c col col' df df' :
  setitem c col df = Some df' → getitem c df' = Some col' → col' = col.
Proof.
  intros Hs Hg. apply getitem_named in Hg.
  assert ((c, col') ∈ named c (data df')) as Hin by (rewrite Hg; left).
  apply list_elem_of_filter in Hin as [_ Hin].
  revert Hs. unfold setitem. case_bool_decide; [|done].
  intros Hs. apply (inj Some) in Hs. subst df'. cbn [data] in Hin.
  case_bool_decide as Hc.
  - apply list_elem_of_fmap in Hin as (p & Hp & _).
    case_bool_decide; [by injection Hp|]. subst p. done.
  - apply elem_of_app in Hin as [Hin|Hin].
    + exfalso. apply Hc. apply list_elem_of_fmap. by exists (c, col').
    + apply elem_of_cons in Hin as [Hin|Hin]; [by injection Hin|by apply elem_of_nil in Hin].
Qed.

Lemma plot_referendum_map_ratio_cells geo results out i x y :
  plot_referendum_map geo results = Some out →
  cell "Choice A" i out = Some x → cell "Choice B" i out = Some y →
  cell "ratio" i out = ratio_cell x y.
Proof.
  unfold plot_referendum_map. intros H.
  apply bind_Some in H as (results' & _ & H).
  apply bind_Some in H as (merged & _ & H).
  apply bind_Some in H as (a & Ha & H).
  apply bind_Some in H as (b & Hb & H).
  apply bind_Some in H as (total & Ht & H).
  apply bind_Some in H as (ratio & Hr & H).
  apply bind_Some in H as (merged' & Hs & H).
  apply bind_Some in H as (drawn & Hd & H). apply (inj Some) in H. subst out.
  pose proof (getitem_setitem_eq _ _ _ _ _ Hs Hd) as ->.
  assert ("Choice A" ≠ "ratio") as NA by discriminate.
  assert ("Choice B" ≠ "ratio") as NB by discriminate.
  unfold cell. rewrite Hd, (getitem_setitem_ne _ _ _ _ _ NA Hs), Ha.
  rewrite (getitem_setitem_ne _ _ _ _ _ NB Hs), Hb. step.
  intros Hx Hy.
  destruct (series_op_lookup _ _ _ _ _ _ _ Ht Hx Hy) as (t & Hti & Hadd).
  destruct (series_op_lookup _ _ _ _ _ _ _ Hr Hx Hti) as (r & Hri & Hdiv).
  unfold ratio_cell. rewrite Hadd. step. by rewrite Hri.
Qed.

(** X11: the ratio says which choice has the majority.  In a row of the
    table that plot_referendum_map returns, whose cells of Choice A and
    Choice B are counts with a positive sum below 2^53, the ratio is a
    float, and it is at least 0.5 exactly when Choice A has at least as
    many votes as Choice B: the rounding of the binary64 division never
    moves a ratio across one half. *)
Theorem plot_referendum_map_majority geo results out :
  plot_referendum_map geo results = Some out →
  ∀ i x y,
    cell "Choice A" i out = Some (VInt x) →
    cell "Choice B" i out = Some (VInt y) →
    (0 ≤ x)%Z → (0 ≤ y)%Z → (0 < x + y < 2 ^ 53)%Z →
    ∃ f, cell "ratio" i out = Some (VFloat f)
      ∧ (SFleb float_half f = true ↔ (y ≤ x)%Z).
Proof.
  intros Ho i x y Hx Hy H0x H0y Hsum.
  rewrite (plot_referendum_map_ratio_cells _ _ _ _ _ _ Ho Hx Hy).
  by apply ratio_cell_majority.
Qed.

Lemma plot_referendum_map_majority_witness :
  ∃ out,
    plot_referendum_map ex_geo ex_results = Some out
    ∧ ∃ f, cell "ratio" 0 out = Some (VFloat f)
        ∧ (SFleb float_half f = true ↔ (400 ≤ 600)%Z).
Proof.
  eexists. split; [vm_compute; reflexivity|].
  apply (plot_referendum_map_majority ex_geo ex_results);
    [vm_compute; reflexivity..|lia|lia|lia].
Defined.

(** X12: a unanimous region.  In a row of the table that
    plot_referendum_map returns, with n votes for Choice A and none for
    Choice B (0 < n < 2^53) the ratio is exactly 1.0, and with n votes for
    Choice B and none for Choice A it is exactly 0.0. *)
Theorem plot_referendum_map_unanimous geo results out :
  plot_referendum_map geo results = Some out →
  ∀ i n, (0 < n < 2 ^ 53)%Z →
    (cell "Choice A" i out = Some (VInt n) → cell "Choice B" i out = Some (VInt 0) →
     cell "ratio" i out = Some (VFloat float_one))
    ∧ (cell "Choice A" i out = Some (VInt 0) → cell "Choice B" i out = Some (VInt n) →
       cell "ratio" i out = Some (VFloat float_zero)).
Proof.
  intros Ho i n Hn. split; intros Hx Hy;
    rewrite (plot_referendum_map_ratio_cells _ _ _ _ _ _ Ho Hx Hy).
  - by apply ratio_cell_all.
  - by apply ratio_cell_none.
Qed.

Lemma plot_referendum_map_unanimous_witness :
  ∃ out,
    plot_referendum_map ex_geo ex_results_unanimous = Some out
    ∧ cell "ratio" 0 out = Some (VFloat float_one)
    ∧ cell "ratio" 2 out = Some (VFloat float_zero).
Proof.
  eexists. split; [vm_compute; reflexivity|]. split.
  - apply (plot_referendum_map_unanimous ex_geo ex_results_unanimous _
             ltac:(vm_compute; reflexivity) 0 5 ltac:(lia));
      vm_compute; reflexivity.
  - apply (plot_referendum_map_unanimous ex_geo ex_results_unanimous _
             ltac:(vm_compute; reflexivity) 2 7 ltac:(lia));
      vm_compute; reflexivity.
Defined.

(** ** From the merged table to the map *)

Lemma cells_at_fmap_keys (f : value → value) k (keys : list value) :
  NoDup keys → k ∈ keys → cells_at k keys (f <$> keys) = [f k].
Proof.
  intros Hnd Hk. apply list_elem_of_lookup_1 in Hk as [j Hj].
  rewrite (cells_at_lookup _ _ _ j) by (done || by rewrite length_fmap).
  by rewrite list_lookup_fmap, Hj.
Qed.

Section map_of_regions.

Variables geo df : DataFrame.
Variables gcodes keycol names reg abst null a b : list value.

Hypothesis Hwg : wf geo.
Hypothesis Hcode : getitem "code" geo = Some gcodes.
Hypothesis Hfresh :
  Forall (λ c, c ∉ columns geo)
    ["code_reg"; "ratio"; "name_reg"; "Registered"; "Abstentions"; "Null";
     "Choice A"; "Choice B"].
Hypothesis Hk : getitem "code_reg" df = Some keycol.
Hypothesis Hn : getitem "name_reg" df = Some names.
Hypothesis Hr : getitem "Registered" df = Some reg.
Hypothesis Hab : getitem "Abstentions" df = Some abst.
Hypothesis Hu : getitem "Null" df = Some null.
Hypothesis Ha : getitem "Choice A" df = Some a.
Hypothesis Hb : getitem "Choice B" df = Some b.
Hypothesis Hsum : Forall (Forall (λ v, summable v = true)) [reg; abst; null; a; b].

Local Abbreviation total col := (λ k, VInt (sum_cells (cells_at k keycol col))).
Local Abbreviation regions := (group_keys keycol).
Local Abbreviation results :=
  (mkDF (Some "code_reg") regions
     [("name_reg", (λ k, agg_first (cells_at k keycol names)) <$> regions);
      ("Registered", total reg <$> regions);
      ("Abstentions", total abst <$> regions);
      ("Null", total null <$> regions);
      ("Choice A", total a <$> regions);
      ("Choice B", total b <$> regions)]).

Lemma wf_results : wf results.
Proof using Type.
  unfold wf, nrows. cbn [data index snd].
  rewrite !Forall_cons, Forall_nil. cbn [snd]. by rewrite !length_fmap.
Qed.

Lemma numeric_total col : Forall (λ v, numeric v = true) (total col <$> regions).
Proof using Type. rewrite Forall_fmap. by apply Forall_true. Qed.

Lemma map_of_regions_cells :
  ∃ out,
    compute_referendum_result_by_regions df = Some results
    ∧ plot_referendum_map geo results = Some out
    ∧ nrows out = nrows geo
    ∧ (∀ c col, getitem c geo = Some col → getitem c out = Some col)
    ∧ (∀ i g c col, gcodes !! i = Some g → getitem c results = Some col →
         cell c i out = Some (default VNull (head (cells_at g regions col))))
    ∧ (∀ i g, gcodes !! i = Some g →
         cell "code_reg" i out = Some (default VNull (head (cells_at g regions regions))))
    ∧ (∀ i x y, cell "Choice A" i out = Some x → cell "Choice B" i out = Some y →
         cell "ratio" i out = ratio_cell x y).
Proof using All.
  pose proof wf_results as Hwr.
  assert (Hu1 : Forall (λ k, count_key k regions ≤ 1) gcodes).
  { rewrite Forall_forall. intros k _. apply count_key_NoDup, NoDup_group_keys. }
  assert (Lg : length gcodes = nrows geo) by (by eapply getitem_length).
  assert (Hreg : "code_reg" ∉ columns results) by by_compute.
  assert (Hratio : "ratio" ∉ columns results) by by_compute.
  pose proof (plot_referendum_map_data geo results gcodes _ _ Hwg Hwr Hcode eq_refl Hfresh
                Hreg Hratio eq_refl eq_refl (numeric_total a) (numeric_total b))
    as (ratio & Ho & Lr & _).
  pose proof (plot_referendum_map_geo geo results gcodes _ _ Hwg Hwr Hcode eq_refl Hfresh
                Hreg Hratio eq_refl eq_refl (numeric_total a) (numeric_total b)) as Hgeo.
  pose proof (plot_referendum_map_results geo results gcodes _ _ Hwg Hwr Hcode eq_refl Hfresh
                Hreg Hratio eq_refl eq_refl (numeric_total a) (numeric_total b) _ Ho)
    as [Hcr Hres].
  pose proof (plot_referendum_map_ratio geo results gcodes _ _ Hwg Hwr Hcode eq_refl Hfresh
                Hreg Hratio eq_refl eq_refl (numeric_total a) (numeric_total b) _ Ho)
    as (ratio' & Hratio' & Hcells).
  eexists. split; [by eapply compute_referendum_result_by_regions_eq|].
  split; [exact Ho|]. cbn [index] in *.
  split. { unfold nrows at 1. cbn [index]. by rewrite length_range_index, left_take_unique. }
  split.
  { intros c col Hc. rewrite (Hgeo _ c col Ho Hc).
    rewrite left_take_unique; [done|done|]. rewrite Lg. by eapply getitem_length. }
  split.
  { intros i g c col Hi Hc. unfold cell. rewrite (Hres _ _ Hc). cbn [mbind option_bind].
    rewrite right_take_unique; [|done|by eapply (getitem_length c results)].
    by rewrite list_lookup_fmap, Hi. }
  split.
  { intros i g Hi. unfold cell. rewrite Hcr. cbn [mbind option_bind].
    rewrite right_take_unique by done. by rewrite list_lookup_fmap, Hi. }
  intros i x y Hx Hy. destruct (Hcells i x y Hx Hy) as (r & Hr' & ->).
  unfold cell. rewrite Hratio'. done.
Qed.

(** The region codes are strings in both tables, missing ones apart. *)
Hypothesis Hkstr : Forall (λ v, is_str v || is_null v = true) keycol.
Hypothesis Hgstr : Forall (λ v, is_str v = true) gcodes.


End map_of_regions.


(** ** The whole script *)

Lemma Forall_mask_filter {A} (P : A → Prop) (mask : list bool) (l : list A) :
  Forall P l → Forall P (mask_filter mask l).
Proof.
  intros H. revert mask. induction H as [|x l Hx H IH]; intros [|[] mask]; cbn; auto.
Qed.

Lemma Forall_left_take (P : value → Prop) lkey rkey col :
  Forall P col → Forall P (left_take lkey rkey col).
Proof.
  intros H. apply Forall_forall. intros v Hv.
  apply elem_of_left_take in Hv. by eapply Forall_forall in H.
Qed.

Lemma mapM_dep_key_left_take lkey rkey col :
  Forall (λ v, is_Some (dep_key v)) col →
  is_Some (mapM dep_key (left_take lkey rkey col)).
Proof. intros H. apply mapM_is_Some. by apply Forall_left_take. Qed.

Section pipeline.

Variables referendum df_reg df_dep geo : DataFrame.
Variables rcode rname dcode dname dreg : list value.
Variables codes names keys reg abst null a b gcodes : list value.

Hypothesis Hwr : wf df_reg.
Hypothesis Hrcode : getitem "code" df_reg = Some rcode.
Hypothesis Hrname : getitem "name" df_reg = Some rname.
Hypothesis Hrfresh : Forall (λ c, c ∉ columns df_reg) ["code_reg"; "name_reg"].

Hypothesis Hwd : wf df_dep.
Hypothesis Hdcode : getitem "code" df_dep = Some dcode.
Hypothesis Hdname : getitem "name" df_dep = Some dname.
Hypothesis Hdreg : getitem "region_code" df_dep = Some dreg.
Hypothesis Hdfresh :
  Forall (λ c, c ∉ columns df_dep) ["code_reg"; "name_reg"; "code_dep"; "name_dep"].
Hypothesis Hdkeys : Forall (λ v, is_Some (dep_key v)) dcode.

Hypothesis Hwf : wf referendum.
Hypothesis Hcodes : getitem "Department code" referendum = Some codes.
Hypothesis Hnames : getitem "Department name" referendum = Some names.
Hypothesis Hfresh :
  Forall (λ c, c ∉ columns referendum)
    ["code_dep"; "name_dep"; "name_dep_x"; "name_dep_y"; "code_reg"; "name_reg"].
Hypothesis Hkeys : mapM dep_key codes = Some keys.
Hypothesis Hr : getitem "Registered" referendum = Some reg.
Hypothesis Hab : getitem "Abstentions" referendum = Some abst.
Hypothesis Hu : getitem "Null" referendum = Some null.
Hypothesis Ha : getitem "Choice A" referendum = Some a.
Hypothesis Hb : getitem "Choice B" referendum = Some b.
Hypothesis Hsum : Forall (Forall (λ v, summable v = true)) [reg; abst; null; a; b].

Hypothesis Hwg : wf geo.
Hypothesis Hcode : getitem "code" geo = Some gcodes.
Hypothesis Hgfresh :
  Forall (λ c, c ∉ columns geo)
    ["code_reg"; "ratio"; "name_reg"; "Registered"; "Abstentions"; "Null";
     "Choice A"; "Choice B"].

(** The columns that are joined hold strings on both sides. *)
Hypothesis Hstr : Forall (Forall (λ v, is_str v = true)) [rcode; dreg; gcodes].

Local Abbreviation areas :=
  (mkDF None (range_index (length (left_take dreg rcode dreg)))
     [("code_reg", left_take dreg rcode dreg);
      ("name_reg", right_take dreg rcode rname);
      ("code_dep", left_take dreg rcode dcode);
      ("name_dep", left_take dreg rcode dname)]).

Lemma pipeline_areas :
  merge_regions_and_departments df_reg df_dep = Some areas ∧ wf areas.
Proof using Hwr Hrcode Hrname Hrfresh Hwd Hdcode Hdname Hdreg Hdfresh.
  rewrite !Forall_cons in Hrfresh. destruct Hrfresh as (? & ? & _).
  split; [by apply merge_regions_and_departments_eq|].
  assert (length rcode = nrows df_reg) by (by eapply getitem_length).
  assert (length rname = nrows df_reg) by (by eapply getitem_length).
  assert (length dcode = nrows df_dep) by (by eapply getitem_length).
  assert (length dname = nrows df_dep) by (by eapply getitem_length).
  assert (length dreg = nrows df_dep) by (by eapply getitem_length).
  unfold wf, nrows. cbn [data index]. rewrite length_range_index.
  rewrite !Forall_cons, Forall_nil. cbn [snd].
  rewrite (length_left_take _ _ dcode), (length_left_take _ _ dname),
    (length_right_take _ _ rname) by congruence. done.
Qed.

(** X14: the whole script returns the map.  On a table of outlines with
    a column code, a referendum table with the two department columns and
    the five columns of counts (integers or missing), a regions and a
    departments table with their columns, none of them with a column named
    like the ones the script adds, the four steps of the script succeed one
    after the other: the result has the rows of the table of outlines, each
    once and with its cells unchanged, and in every row the ratio is
    computed from the cells Choice A and Choice B of that row. *)
Theorem main_returns_the_map :
  ∃ out,
    main referendum df_reg df_dep geo = Some out
    ∧ nrows out = nrows geo
    ∧ (∀ c col, getitem c geo = Some col → getitem c out = Some col)
    ∧ ∀ i x y, cell "Choice A" i out = Some x → cell "Choice B" i out = Some y →
        cell "ratio" i out = ratio_cell x y.
Proof using All.
  destruct pipeline_areas as [Hareas Hwa].
  destruct (mapM_dep_key_left_take dreg rcode dcode Hdkeys) as [akeys Hakeys].
  pose proof (merge_referendum_and_areas_data referendum areas codes names
                (left_take dreg rcode dreg) (left_take dreg rcode dcode) keys akeys
                Hwf Hcodes Hnames Hfresh Hwa eq_refl eq_refl eq_refl Hkeys Hakeys)
    as (nreg & Hnreg & Hm).
  pose proof (λ c col, merge_referendum_and_areas_getitem referendum areas codes names
                (left_take dreg rcode dreg) (left_take dreg rcode dcode) keys akeys
                Hwf Hcodes Hnames Hfresh Hwa eq_refl eq_refl eq_refl Hkeys Hakeys _ c col Hm)
    as Hcols.
  unfold main. rewrite Hareas. step. rewrite Hm. step.
  rewrite !Forall_cons in Hsum. destruct Hsum as (S1 & S2 & S3 & S4 & S5 & _).
  rewrite !Forall_cons in Hfresh. destruct Hfresh as (F1 & F2 & F3 & F4 & F5 & F6 & _).
  assert (Hs : ∀ col, Forall (λ v, summable v = true) col →
            Forall (λ v, summable v = true)
              (left_take (kept keys) akeys (mask_filter (keep_mask keys) col))).
  { intros col Hcol. by apply Forall_left_take, Forall_mask_filter. }
  match goal with
  | |- context [compute_referendum_result_by_regions ?merged] =>
      edestruct (map_of_regions_cells geo merged)
        as (out & Hc & Ho & Hrows & Hgeo & _ & _ & Hratio)
  end;
    [exact Hwg|exact Hcode|exact Hgfresh
    |rewrite getitem_app_absent by exact F5; reflexivity
    |rewrite getitem_app_absent by exact F6; reflexivity
    |exact (Hcols _ _ Hr)|exact (Hcols _ _ Hab)|exact (Hcols _ _ Hu)
    |exact (Hcols _ _ Ha)|exact (Hcols _ _ Hb)
    |rewrite !Forall_cons, Forall_nil; auto 10
    |rewrite Hc; step; exists out; by rewrite Ho].
Qed.

End pipeline.

Lemma main_returns_the_map_witness :
  ∃ out,
    main ex_referendum ex_regions_csv ex_departments_csv ex_geo = Some out
    ∧ nrows out = nrows ex_geo
    ∧ (∀ c col, getitem c ex_geo = Some col → getitem c out = Some col)
    ∧ ∀ i x y, cell "Choice A" i out = Some x → cell "Choice B" i out = Some y →
        cell "ratio" i out = ratio_cell x y.
Proof.
  eapply (main_returns_the_map ex_referendum ex_regions_csv ex_departments_csv ex_geo);
    try reflexivity; by_compute.
Defined.

(** ** The script as a program *)

Section program.
Import Store.

Lemma keeps_figures_bind {A B} (m : M A) (f : A → M B) :
  keeps_figures m → (∀ a, keeps_figures (f a)) → keeps_figures (m ≫= f).
Proof.
  intros Hm Hf s b s'. unfold mbind, M_bind.
  destruct (m s) as [[a s1]|] eqn:E; [|done].
  intros H. rewrite (Hf _ _ _ _ H). by eapply Hm.
Qed.

Lemma keeps_figures_ret {A} (a : A) : keeps_figures (mret a).
Proof. by intros s b s' [= _ <-]. Qed.

Lemma keeps_figures_lift {A} (o : option A) : keeps_figures (lift o).
Proof. intros s b s'. unfold lift. destruct o; [|done]. by intros [= _ <-]. Qed.

Lemma keeps_figures_new df : keeps_figures (new df).
Proof. by intros s b s' [= _ <-]. Qed.

Lemma keeps_figures_load r : keeps_figures (load r).
Proof. intros s b s'. unfold load. destruct (objects s !! r); [|done]. by intros [= _ <-]. Qed.

Lemma keeps_figures_store r df : keeps_figures (store r df).
Proof. intros s b s'. unfold store. case_bool_decide; [|done]. intros ?. by simplify_eq. Qed.

End program.

Ltac keeps :=
  repeat first
    [ apply keeps_figures_bind; [|intros ?]
    | apply keeps_figures_ret
    | apply keeps_figures_lift
    | apply keeps_figures_new
    | apply keeps_figures_load
    | apply keeps_figures_store ].

Lemma keeps_figures_merge_regions_and_departments r1 r2 :
  keeps_figures (Store.merge_regions_and_departments r1 r2).
Proof.
  unfold Store.merge_regions_and_departments, Store.df_rename, Store.df_select,
    Store.df_merge_left. keeps.
Qed.

Lemma keeps_figures_merge_referendum_and_areas r1 r2 :
  keeps_figures (Store.merge_referendum_and_areas r1 r2).
Proof.
  unfold Store.merge_referendum_and_areas, Store.df_rename, Store.df_select,
    Store.df_merge_left, Store.df_copy, Store.df_getitem, Store.df_setitem,
    Store.df_filter_rows, Store.df_drop. keeps.
Qed.

Lemma keeps_figures_compute_referendum_result_by_regions r :
  keeps_figures (Store.compute_referendum_result_by_regions r).
Proof. unfold Store.compute_referendum_result_by_regions, Store.df_groupby_agg. keeps. Qed.

Lemma keeps_figures_load_data f1 f2 f3 : keeps_figures (Store.load_data f1 f2 f3).
Proof. unfold Store.load_data, Store.read_csv. keeps. Qed.

Ltac run_pure_eqn :=
  match goal with
  | |- context [@fmap option _ _ _ _ ?o] =>
      destruct o eqn:?; cbn [fmap option_fmap option_map option_bind]; [|done]
  end.

Ltac run_eqn :=
  repeat first
    [ run_step
    | match goal with
      | H : ?b !! ?r = Some ?df |- context [Store.load ?r (Store.mkState (?b ++ ?n) ?f)] =>
          rewrite (load_old b n f r df H)
      end
    | run_pure_eqn ].

Lemma plot_referendum_map_figure s geojson r df :
  Store.objects s !! r = Some df →
  match Store.plot_referendum_map geojson r s with
  | Some (m, s') =>
      ∃ out ratio,
        Store.objects s' !! m = Some out
        ∧ getitem "ratio" out = Some ratio
        ∧ Store.figures s' = (Store.figures s ++ [ratio])%list
  | None => True
  end.
Proof.
  intros H1. destruct s as [base figs]. cbn [Store.objects] in H1.
  cbn [Store.figures]. rewrite <- (app_nil_r base).
  unfold Store.plot_referendum_map.
  run_unfold. run_eqn. cbn [Store.objects Store.figures].
  exists d1, l3. split; [|done].
  rewrite lookup_app_r by lia. by replace (length base + 2 - length base) with 2 by lia.
Qed.

Lemma returns_new_length s r s' res :
  returns_new s (Some (r, s')) res →
  length (Store.objects s) ≤ length (Store.objects s').
Proof.
  intros (_ & _ & _ & Hold).
  destruct (decide (length (Store.objects s) = 0)) as [->|Hne]; [lia|].
  destruct (lookup_lt_is_Some_2 (Store.objects s) (length (Store.objects s) - 1)) as [df Hdf];
    [lia|].
  apply Hold, lookup_lt_Some in Hdf. lia.
Qed.

(** X15: the script on the store.  [load_data] puts the content of the
    three files into three new objects, and the body of the script, run
    from any store, fails exactly when the four functions on tables fail
    on these contents; when it returns, the reference it returns is new and
    holds the table the functions compute, every object the store had is
    as it was, the three loaded tables are as they were loaded, and exactly
    one figure has been drawn: the ratio column of the returned table. *)
Theorem main_store referendum_csv regions_csv departments_csv geojson s :
  returns_new s (Store.main referendum_csv regions_csv departments_csv geojson s)
    (main referendum_csv regions_csv departments_csv geojson)
  ∧ ∀ r s',
      Store.main referendum_csv regions_csv departments_csv geojson s = Some (r, s') →
      (∀ i f, [referendum_csv; regions_csv; departments_csv] !! i = Some f →
         Store.objects s' !! (length (Store.objects s) + i) = Some f)
      ∧ ∃ out ratio,
          Store.objects s' !! r = Some out
          ∧ getitem "ratio" out = Some ratio
          ∧ Store.figures s' = (Store.figures s ++ [ratio])%list.
Proof.
  destruct s as [base figs]. cbn [Store.objects Store.figures].
  set (s1 := Store.mkState (base ++ [referendum_csv; regions_csv; departments_csv]) figs).
  assert (Store.main referendum_csv regions_csv departments_csv geojson
                 (Store.mkState base figs)
    = (regions_and_departments ←
         Store.merge_regions_and_departments (length base + 1) (length base + 2);
       referendum_and_areas ←
         Store.merge_referendum_and_areas (length base + 0) regions_and_departments;
       referendum_results ← Store.compute_referendum_result_by_regions referendum_and_areas;
       Store.plot_referendum_map geojson referendum_results) s1) as Hmain.
  { unfold Store.main, Store.load_data, Store.read_csv.
    unfold mbind, Store.M_bind, mret, Store.M_ret.
    rewrite <- (app_nil_r base) at 1. run. cbn [fst snd]. done. }
  rewrite Hmain. clear Hmain. unfold mbind, Store.M_bind, main.
  assert (L : ∀ i f, [referendum_csv; regions_csv; departments_csv] !! i = Some f →
            Store.objects s1 !! (length base + i) = Some f).
  { intros i f Hi. unfold s1. cbn [Store.objects]. rewrite lookup_app_r by lia.
    by replace (length base + i - length base) with i by lia. }
  assert (B : ∀ l df, base !! l = Some df → Store.objects s1 !! l = Some df).
  { intros l df Hl. by apply lookup_app_l_Some. }
  assert (F1 : Store.figures s1 = figs) by done.
  assert (N1 : length base ≤ length (Store.objects s1)).
  { unfold s1. cbn [Store.objects]. rewrite length_app. lia. }
  clearbody s1.
  pose proof (merge_regions_and_departments_store s1 _ _ _ _
                (L 1 _ eq_refl) (L 2 _ eq_refl)) as R1.
  pose proof (keeps_figures_merge_regions_and_departments
                (length base + 1) (length base + 2) s1) as K1.
  destruct (Store.merge_regions_and_departments _ _ s1) as [[r1 s2]|];
    [|rewrite R1; by split].
  pose proof (returns_new_length _ _ _ _ R1) as N2.
  destruct R1 as (_ & O1 & [areas E1] & P1). rewrite E1 in O1 |- *. step.
  pose proof (merge_referendum_and_areas_store s2 _ _ _ _ (P1 _ _ (L 0 _ eq_refl)) O1) as R2.
  pose proof (keeps_figures_merge_referendum_and_areas (length base + 0) r1 s2) as K2.
  destruct (Store.merge_referendum_and_areas _ _ s2) as [[r2 s3]|];
    [|rewrite R2; by split].
  pose proof (returns_new_length _ _ _ _ R2) as N3.
  destruct R2 as (_ & O2 & [merged E2] & P2). rewrite E2 in O2 |- *. step.
  pose proof (compute_referendum_result_by_regions_store s3 _ _ O2) as R3.
  pose proof (keeps_figures_compute_referendum_result_by_regions r2 s3) as K3.
  destruct (Store.compute_referendum_result_by_regions _ s3) as [[r3 s4]|];
    [|rewrite R3; by split].
  pose proof (returns_new_length _ _ _ _ R3) as N4.
  destruct R3 as (_ & O3 & [results E3] & P3). rewrite E3 in O3 |- *. step.
  pose proof (plot_referendum_map_store s4 geojson _ _ O3) as R4.
  pose proof (plot_referendum_map_figure s4 geojson _ _ O3) as K4.
  destruct (Store.plot_referendum_map geojson r3 s4) as [[r4 s5]|];
    [|rewrite R4; by split].
  destruct R4 as (N5 & O4 & S4 & P4).
  split.
  - split; [cbn [Store.objects]; lia|]. split; [done|]. split; [done|].
    intros l df Hl. apply P4, P3, P2, P1, B, Hl.
  - intros r s' [= <- <-]. split; [intros i f Hi; apply P4, P3, P2, P1, L, Hi|].
    destruct K4 as (out & ratio & Ho & Hr & Hf). exists out, ratio.
    by rewrite Hf, (K3 _ _ eq_refl), (K2 _ _ eq_refl), (K1 _ _ eq_refl), F1.
Qed.

(** ** The table of the map *)

Section map_shape.

Variables geo results : DataFrame.
Variables gcodes a b : list value.

Hypothesis Hwg : wf geo.
Hypothesis Hwr : wf results.
Hypothesis Hcode : getitem "code" geo = Some gcodes.
Hypothesis Hname : index_name results = Some "code_reg".
Hypothesis Hfresh :
  Forall (λ c, c ∉ columns geo) ("code_reg" :: "ratio" :: columns results).
Hypothesis Hreg : "code_reg" ∉ columns results.
Hypothesis Hratio : "ratio" ∉ columns results.
Hypothesis Ha : getitem "Choice A" results = Some a.
Hypothesis Hb : getitem "Choice B" results = Some b.
Hypothesis Hna : Forall (λ v, numeric v = true) a.
Hypothesis Hnb : Forall (λ v, numeric v = true) b.


End map_shape.


(** ** From the referendum to the map *)

Lemma length_mask_filter_keep keys (col : list value) :
  length col = length keys →
  length (mask_filter (keep_mask keys) col) = length (kept keys).
Proof.
  intros Hlen. rewrite <- mask_filter_keep_mask.
  rewrite !length_mask_filter; [done|unfold keep_mask; by rewrite length_fmap..].
Qed.

Section referendum_map.

Variables referendum areas geo : DataFrame.
Variables codes names creg cdep keys akeys gcodes : list value.
Variables reg abst null a b : list value.

Hypothesis Hwf : wf referendum.
Hypothesis Hcodes : getitem "Department code" referendum = Some codes.
Hypothesis Hnames : getitem "Department name" referendum = Some names.
Hypothesis Hfresh :
  Forall (λ c, c ∉ columns referendum)
    ["code_dep"; "name_dep"; "name_dep_x"; "name_dep_y"; "code_reg"; "name_reg"].
Hypothesis Hr : getitem "Registered" referendum = Some reg.
Hypothesis Hab : getitem "Abstentions" referendum = Some abst.
Hypothesis Hu' : getitem "Null" referendum = Some null.
Hypothesis Ha : getitem "Choice A" referendum = Some a.
Hypothesis Hb : getitem "Choice B" referendum = Some b.
Hypothesis Hsum : Forall (Forall (λ v, summable v = true)) [reg; abst; null; a; b].
Hypothesis Hwfa : wf areas.
Hypothesis Hcols : columns areas = ["code_reg"; "name_reg"; "code_dep"; "name_dep"].
Hypothesis Hcreg : getitem "code_reg" areas = Some creg.
Hypothesis Hcdep : getitem "code_dep" areas = Some cdep.
Hypothesis Hkeys : mapM dep_key codes = Some keys.
Hypothesis Hakeys : mapM dep_key cdep = Some akeys.
Hypothesis Hunique : NoDup akeys.
Hypothesis Hwg : wf geo.
Hypothesis Hcode : getitem "code" geo = Some gcodes.
Hypothesis Hgfresh :
  Forall (λ c, c ∉ columns geo)
    ["code_reg"; "ratio"; "name_reg"; "Registered"; "Abstentions"; "Null";
     "Choice A"; "Choice B"].

(** The region codes are strings in both tables. *)
Hypothesis Hstr : Forall (Forall (λ v, is_str v = true)) [creg; gcodes].

Local Abbreviation mask := (keep_mask keys).
Local Abbreviation regs := (region_of akeys creg <$> kept keys).


End referendum_map.


